(** * Fibers of [sylar] (fiber_lib/2fiber/fiber.cpp): a model and its properties

    The file models the fiber object of [fiber.cpp], the three thread-local
    pointers it keeps per OS thread, the two process-wide counters, and the
    context switches that [resume] and [yield] perform through
    [swapcontext].  The library functions are written in a state-and-fault
    monad over the memory they touch; client code (the closures given to
    fibers and the program of a thread) is a list of calls into the
    library, and a saved execution context is the code that remains to be
    run on some stack.

    What the model takes for granted: [assert] is compiled in;
    [getcontext], [swapcontext] and [malloc] succeed; a context filled by
    [getcontext] alone is not one to switch to; the memory of a fiber
    object is never given back, so the address of an object is its rank in
    the order of construction ([~Fiber] is run in processes that record
    which objects were destroyed and which blocks were freed); the steps
    of several threads interleave at the grain of a library call. *)

From Stdlib Require Import ZArith Lia List Bool.
From stdpp Require Import base list.

Local Open Scope Z_scope.

(** ** Data *)

(** Pointers to fiber objects; [option addr] is a nullable pointer. *)
Definition addr := nat.

(** [Fiber::State]. *)
Inductive State := READY | RUNNING | TERM.

Definition State_eqb (a b : State) : bool :=
  match a, b with
  | READY, READY | RUNNING, RUNNING | TERM, TERM => true
  | _, _ => false
  end.

(** Client code: the calls a closure, or the program of the thread, makes
    into the library.  Fibers are named by their addresses. *)
#[local] Unset Elimination Schemes.
Inductive cmd :=
| CGetThis                                   (* Fiber::GetThis() *)
| CGetFiberId                                (* Fiber::GetFiberId() *)
| CCreate (cb : list cmd) (stacksize : Z) (run_in_scheduler : bool)
                                             (* new Fiber(cb, stacksize, run_in_scheduler) *)
| CReset (f : addr) (cb : list cmd)          (* f->reset(cb) *)
| CResume (f : addr)                         (* f->resume() *)
| CYield (f : addr)                          (* f->yield() *)
| CYieldThis                                 (* Fiber::GetThis()->yield() *)
| CSetSchedulerFiber (f : option addr).      (* Fiber::SetSchedulerFiber(f) *)
#[local] Set Elimination Schemes.

(** A [std::function<void()>]. *)
Definition closure := list cmd.

(** What remains to be run on a stack: client calls, the start of the
    trampoline [Fiber::MainFunc], and the part of [MainFunc] that follows
    the call [curr->m_cb()]. *)
Inductive instr :=
| ICmd (c : cmd)
| IMainFunc
| IMainFuncAfter (curr : addr).

(** The stack the processor runs on: the stack of the OS thread, or a
    block obtained from [malloc]. *)
Inductive stack_id := OsStack | Block (b : nat).

(** The machine part of a [ucontext_t].  [McCaptured]: filled by
    [getcontext] only (the frame that called it has returned since, so it
    is not a context one may switch to).  [McEntry]: prepared by
    [makecontext(.., &Fiber::MainFunc, 0)].  [McSaved s k]: written by
    [swapcontext], to continue with [k] on stack [s]. *)
Inductive mcontext :=
| McCaptured
| McEntry
| McSaved (s : stack_id) (k : list instr).

Record ucontext := mkUcontext {
  uc_link : option addr;
  ss_sp : option nat;
  ss_size : Z;
  uc_mcontext : mcontext
}.

(** Modelled from the spec: the class declaration (fiber.h) is not among
    the sources.  The fields are those [fiber.cpp] uses; [m_id] is a
    [uint64_t] as the counter it is drawn from, [m_stacksize] holds a
    [size_t] as the constructor's parameter does, [m_stack] is a nullable
    pointer to the block, [m_cb] an optional closure. *)
Record Fiber := mkFiber {
  m_id : Z;
  m_stacksize : Z;
  m_state : State;
  m_ctx : ucontext;
  m_stack : option nat;
  m_cb : option closure;
  m_runInScheduler : bool
}.

(** Modelled from the spec: what the in-class initialisers of fiber.h leave
    in the fields that [Fiber::Fiber()] does not assign.  The thread fiber
    has no stack block ([m_stack] null) and no closure; its [m_stacksize]
    and [m_runInScheduler] are whatever the header says, and are kept as
    parameters. *)
Record Header := mkHeader {
  hdr_stacksize : Z;
  hdr_runInScheduler : bool
}.

Definition uc_raw : ucontext :=
  {| uc_link := None; ss_sp := None; ss_size := 0; uc_mcontext := McCaptured |}.

Definition raw_fiber (hdr : Header) : Fiber :=
  {| m_id := 0; m_stacksize := hdr_stacksize hdr; m_state := READY;
     m_ctx := uc_raw; m_stack := None; m_cb := None;
     m_runInScheduler := hdr_runInScheduler hdr |}.

(** Field updates. *)
Definition with_id (v : Z) (f : Fiber) : Fiber :=
  mkFiber v (m_stacksize f) (m_state f) (m_ctx f) (m_stack f) (m_cb f) (m_runInScheduler f).
Definition with_stacksize (v : Z) (f : Fiber) : Fiber :=
  mkFiber (m_id f) v (m_state f) (m_ctx f) (m_stack f) (m_cb f) (m_runInScheduler f).
Definition with_state (v : State) (f : Fiber) : Fiber :=
  mkFiber (m_id f) (m_stacksize f) v (m_ctx f) (m_stack f) (m_cb f) (m_runInScheduler f).
Definition with_ctx (v : ucontext) (f : Fiber) : Fiber :=
  mkFiber (m_id f) (m_stacksize f) (m_state f) v (m_stack f) (m_cb f) (m_runInScheduler f).
Definition with_stack (v : option nat) (f : Fiber) : Fiber :=
  mkFiber (m_id f) (m_stacksize f) (m_state f) (m_ctx f) v (m_cb f) (m_runInScheduler f).
Definition with_cb (v : option closure) (f : Fiber) : Fiber :=
  mkFiber (m_id f) (m_stacksize f) (m_state f) (m_ctx f) (m_stack f) v (m_runInScheduler f).
Definition with_runInScheduler (v : bool) (f : Fiber) : Fiber :=
  mkFiber (m_id f) (m_stacksize f) (m_state f) (m_ctx f) (m_stack f) (m_cb f) v.

Definition with_uc_link (v : option addr) (u : ucontext) : ucontext :=
  mkUcontext v (ss_sp u) (ss_size u) (uc_mcontext u).
Definition with_ss_sp (v : option nat) (u : ucontext) : ucontext :=
  mkUcontext (uc_link u) v (ss_size u) (uc_mcontext u).
Definition with_ss_size (v : Z) (u : ucontext) : ucontext :=
  mkUcontext (uc_link u) (ss_sp u) v (uc_mcontext u).
Definition with_mcontext (v : mcontext) (u : ucontext) : ucontext :=
  mkUcontext (uc_link u) (ss_sp u) (ss_size u) v.

(** Memory shared by all threads: the fiber objects (the address of an
    object is its index; objects are laid out in the order of their
    construction and the model never frees one), the two atomic counters,
    and the blocks [malloc] has handed out, each with its size (a block is
    named by its index). *)
Record Global := mkGlobal {
  heap : list Fiber;
  s_fiber_id : Z;
  s_fiber_count : Z;
  blocks : list Z
}.

(** What one OS thread owns: the three [thread_local] pointers, and the
    processor state (the stack it runs on and the code that remains). *)
Record Thread := mkThread {
  t_fiber : option addr;
  t_thread_fiber : option addr;
  t_scheduler_fiber : option addr;
  sp : stack_id;
  pc : list instr
}.

Record Machine := mkMachine { glob : Global; thr : Thread }.

Definition with_heap (h : list Fiber) (g : Global) : Global :=
  mkGlobal h (s_fiber_id g) (s_fiber_count g) (blocks g).
Definition with_fiber_id (v : Z) (g : Global) : Global :=
  mkGlobal (heap g) v (s_fiber_count g) (blocks g).
Definition with_fiber_count (v : Z) (g : Global) : Global :=
  mkGlobal (heap g) (s_fiber_id g) v (blocks g).
Definition with_blocks (v : list Z) (g : Global) : Global :=
  mkGlobal (heap g) (s_fiber_id g) (s_fiber_count g) v.

Definition with_t_fiber (v : option addr) (t : Thread) : Thread :=
  mkThread v (t_thread_fiber t) (t_scheduler_fiber t) (sp t) (pc t).
Definition with_t_thread_fiber (v : option addr) (t : Thread) : Thread :=
  mkThread (t_fiber t) v (t_scheduler_fiber t) (sp t) (pc t).
Definition with_t_scheduler_fiber (v : option addr) (t : Thread) : Thread :=
  mkThread (t_fiber t) (t_thread_fiber t) v (sp t) (pc t).
Definition with_cpu (s : stack_id) (k : list instr) (t : Thread) : Thread :=
  mkThread (t_fiber t) (t_thread_fiber t) (t_scheduler_fiber t) s k.

Definition on_glob (f : Global -> Global) (m : Machine) : Machine :=
  mkMachine (f (glob m)) (thr m).
Definition on_thr (f : Thread -> Thread) (m : Machine) : Machine :=
  mkMachine (glob m) (f (thr m)).

(** The object at an address, and the machine with that object replaced. *)
Definition fiber_at (m : Machine) (a : addr) : option Fiber := heap (glob m) !! a.
Definition set_fiber (a : addr) (f : Fiber) (m : Machine) : Machine :=
  on_glob (fun g => with_heap (<[a := f]> (heap g)) g) m.
Definition state_of (m : Machine) (a : addr) : option State :=
  m_state <$> fiber_at m a.

(** [uint64_t] arithmetic. *)
Definition wrap64 (z : Z) : Z := z mod 2 ^ 64.

(** ** The monad of library code *)

Inductive fault :=
| AssertionFailed      (* assert(..) *)
| NullPointer          (* a member of a null pointer is accessed *)
| WildPointer          (* a pointer to no fiber object is dereferenced *)
| BadFunctionCall      (* an empty std::function is called *)
| UndefinedContext.    (* a context that is not a valid target is activated *)

Inductive outcome (A : Type) :=
| Ret (a : A) (m : Machine)
| Fault (e : fault) (m : Machine).
Arguments Ret {A} a m.
Arguments Fault {A} e m.

(** The machine a call leaves behind, whether it returns or faults. *)
Definition final {A} (o : outcome A) : Machine :=
  match o with Ret _ m => m | Fault _ m => m end.

Definition M (A : Type) : Type := Machine -> outcome A.

#[global] Instance M_ret : MRet M := fun A a m => Ret a m.
#[global] Instance M_bind : MBind M := fun A B k c m =>
  match c m with
  | Ret a m' => k a m'
  | Fault e m' => Fault e m'
  end.

Definition throw {A} (e : fault) : M A := fun m => Fault e m.
Definition assert (b : bool) : M unit :=
  if b then mret tt else throw AssertionFailed.
Definition gets {A} (f : Machine -> A) : M A := fun m => Ret (f m) m.
Definition modify (f : Machine -> Machine) : M unit := fun m => Ret tt (f m).

(** [p->field]: the object a pointer refers to. *)
Definition deref (p : option addr) : M Fiber := fun m =>
  match p with
  | None => Fault NullPointer m
  | Some a =>
      match fiber_at m a with
      | Some f => Ret f m
      | None => Fault WildPointer m
      end
  end.

(** [p->field = v]. *)
Definition update (p : option addr) (upd : Fiber -> Fiber) : M unit := fun m =>
  match p with
  | None => Fault NullPointer m
  | Some a =>
      match fiber_at m a with
      | Some f => Ret tt (set_fiber a (upd f) m)
      | None => Fault WildPointer m
      end
  end.

(** Storage for a new object, its fields as the header initialises them. *)
Definition new_object (hdr : Header) : M addr := fun m =>
  Ret (length (heap (glob m)))
      (on_glob (fun g => with_heap (heap g ++ [raw_fiber hdr]) g) m).

(** [malloc(size)]: a new block of that size; it is taken to succeed. *)
Definition malloc (size : Z) : M (option nat) := fun m =>
  Ret (Some (length (blocks (glob m))))
      (on_glob (fun g => with_blocks (blocks g ++ [size]) g) m).

(** [s_fiber_id++]: the value before the increment. *)
Definition s_fiber_id_postinc : M Z := fun m =>
  Ret (s_fiber_id (glob m))
      (on_glob (fun g => with_fiber_id (wrap64 (s_fiber_id g + 1)) g) m).

(** [s_fiber_count ++]. *)
Definition s_fiber_count_inc : M unit :=
  modify (on_glob (fun g => with_fiber_count (wrap64 (s_fiber_count g + 1)) g)).

(** [getcontext(&p->m_ctx)]; it is taken to succeed. *)
Definition getcontext (p : option addr) : M unit :=
  update p (fun f => with_ctx (with_mcontext McCaptured (m_ctx f)) f).

(** [makecontext(&p->m_ctx, &Fiber::MainFunc, 0)]. *)
Definition makecontext (p : option addr) : M unit :=
  update p (fun f => with_ctx (with_mcontext McEntry (m_ctx f)) f).

(** The processor takes up a context. *)
Definition activate (u : ucontext) : M unit :=
  match uc_mcontext u with
  | McCaptured => throw UndefinedContext
  | McEntry =>
      match ss_sp u with
      | None => throw NullPointer
      | Some b => modify (on_thr (with_cpu (Block b) [IMainFunc]))
      end
  | McSaved s k => modify (on_thr (with_cpu s k))
  end.

(** [swapcontext(&oucp->m_ctx, &ucp->m_ctx)]: the running context is saved
    in the first, then the second is taken up.  The code that remains at
    the call is what follows the library function that makes it, which is
    the [pc] of the machine.  It is taken to succeed. *)
Definition swapcontext (oucp ucp : option addr) : M unit :=
  s ← gets (fun m => sp (thr m));
  k ← gets (fun m => pc (thr m));
  update oucp (fun f => with_ctx (with_mcontext (McSaved s k) (m_ctx f)) f);;
  target ← deref ucp;
  activate (m_ctx target).

(** ** The functions of fiber.cpp *)

Section FiberCpp.

Variable hdr : Header.

(** [Fiber::SetThis]. *)
Definition SetThis (f : option addr) : M unit :=
  modify (on_thr (with_t_fiber f)).

(** [Fiber::Fiber()], run on the storage at [this]. *)
Definition Fiber_main (this : addr) : M unit :=
  SetThis (Some this);;
  update (Some this) (with_state RUNNING);;
  getcontext (Some this);;
  id ← s_fiber_id_postinc;
  update (Some this) (with_id id);;
  s_fiber_count_inc.

(** [Fiber::Fiber(cb, stacksize, run_in_scheduler)], run on the storage at
    [this]. *)
Definition Fiber_ctor (this : addr) (cb : closure) (stacksize : Z)
    (run_in_scheduler : bool) : M unit :=
  update (Some this) (with_cb (Some cb));;
  update (Some this) (with_runInScheduler run_in_scheduler);;
  update (Some this) (with_state READY);;
  update (Some this) (with_stacksize (if stacksize =? 0 then 128000 else stacksize));;
  self ← deref (Some this);
  block ← malloc (m_stacksize self);
  update (Some this) (with_stack block);;
  getcontext (Some this);;
  update (Some this) (fun f => with_ctx (with_uc_link None (m_ctx f)) f);;
  update (Some this) (fun f => with_ctx (with_ss_sp (m_stack f) (m_ctx f)) f);;
  update (Some this) (fun f => with_ctx (with_ss_size (m_stacksize f) (m_ctx f)) f);;
  makecontext (Some this);;
  id ← s_fiber_id_postinc;
  update (Some this) (with_id id);;
  s_fiber_count_inc.

(** [new Fiber()] and [new Fiber(cb, stacksize, run_in_scheduler)]. *)
Definition new_Fiber_main : M addr :=
  this ← new_object hdr; Fiber_main this;; mret this.

Definition new_Fiber (cb : closure) (stacksize : Z) (run_in_scheduler : bool) : M addr :=
  this ← new_object hdr; Fiber_ctor this cb stacksize run_in_scheduler;; mret this.

(** [p->shared_from_this()]. *)
Definition shared_from_this (p : option addr) : M addr :=
  _ ← deref p;
  match p with
  | Some a => mret a
  | None => throw NullPointer
  end.

Definition ptr_eqb (p q : option addr) : bool :=
  match p, q with
  | None, None => true
  | Some a, Some b => Nat.eqb a b
  | _, _ => false
  end.

(** [Fiber::GetThis]. *)
Definition GetThis : M addr :=
  cur ← gets (fun m => t_fiber (thr m));
  match cur with
  | Some _ => shared_from_this cur
  | None =>
      main_fiber ← new_Fiber_main;
      modify (on_thr (with_t_thread_fiber (Some main_fiber)));;
      modify (on_thr (with_t_scheduler_fiber (Some main_fiber)));;
      cur' ← gets (fun m => t_fiber (thr m));
      assert (ptr_eqb cur' (Some main_fiber));;
      shared_from_this cur'
  end.

(** [Fiber::SetSchedulerFiber]. *)
Definition SetSchedulerFiber (f : option addr) : M unit :=
  modify (on_thr (with_t_scheduler_fiber f)).

(** [Fiber::GetFiberId]. *)
Definition GetFiberId : M Z :=
  cur ← gets (fun m => t_fiber (thr m));
  match cur with
  | Some _ => f ← deref cur; mret (m_id f)
  | None => mret (wrap64 (-1))
  end.

(** [Fiber::reset]. *)
Definition reset (this : addr) (cb : closure) : M unit :=
  self ← deref (Some this);
  assert (bool_decide (m_stack self <> None) && State_eqb (m_state self) TERM);;
  update (Some this) (with_state READY);;
  update (Some this) (with_cb (Some cb));;
  getcontext (Some this);;
  update (Some this) (fun f => with_ctx (with_uc_link None (m_ctx f)) f);;
  update (Some this) (fun f => with_ctx (with_ss_sp (m_stack f) (m_ctx f)) f);;
  update (Some this) (fun f => with_ctx (with_ss_size (m_stacksize f) (m_ctx f)) f);;
  makecontext (Some this).

(** [Fiber::resume]. *)
Definition resume (this : addr) : M unit :=
  self ← deref (Some this);
  assert (State_eqb (m_state self) READY);;
  update (Some this) (with_state RUNNING);;
  if m_runInScheduler self then
    SetThis (Some this);;
    sched ← gets (fun m => t_scheduler_fiber (thr m));
    swapcontext sched (Some this)
  else
    SetThis (Some this);;
    main ← gets (fun m => t_thread_fiber (thr m));
    swapcontext main (Some this).

(** [Fiber::yield]. *)
Definition yield (this : addr) : M unit :=
  self ← deref (Some this);
  assert (State_eqb (m_state self) RUNNING || State_eqb (m_state self) TERM);;
  (if negb (State_eqb (m_state self) TERM)
   then update (Some this) (with_state READY)
   else mret tt);;
  if m_runInScheduler self then
    sched ← gets (fun m => t_scheduler_fiber (thr m));
    SetThis sched;;
    swapcontext (Some this) sched
  else
    main ← gets (fun m => t_thread_fiber (thr m));
    SetThis main;;
    swapcontext (Some this) main.

(** [curr->m_cb()]: the body of the closure is run, then what follows the
    call. *)
Definition call (cb : option closure) (after : instr) : M unit :=
  match cb with
  | None => throw BadFunctionCall
  | Some body =>
      modify (on_thr (fun t => with_cpu (sp t) (map ICmd body ++ after :: pc t) t))
  end.

(** [Fiber::MainFunc], up to and including the call of the closure. *)
Definition MainFunc : M unit :=
  curr ← GetThis;
  self ← deref (Some curr);
  call (m_cb self) (IMainFuncAfter curr).

(** [Fiber::MainFunc], from the return of the closure on. *)
Definition MainFunc_after (curr : addr) : M unit :=
  update (Some curr) (with_cb None);;
  update (Some curr) (with_state TERM);;
  yield curr.

(** ** Running code *)

Definition exec_cmd (c : cmd) : M unit :=
  match c with
  | CGetThis => _ ← GetThis; mret tt
  | CGetFiberId => _ ← GetFiberId; mret tt
  | CCreate cb stacksize run_in_scheduler =>
      _ ← new_Fiber cb stacksize run_in_scheduler; mret tt
  | CReset f cb => reset f cb
  | CResume f => resume f
  | CYield f => yield f
  | CYieldThis => f ← GetThis; yield f
  | CSetSchedulerFiber f => SetSchedulerFiber f
  end.

Definition exec_instr (i : instr) : M unit :=
  match i with
  | ICmd c => exec_cmd c
  | IMainFunc => MainFunc
  | IMainFuncAfter curr => MainFunc_after curr
  end.

(** One step of a thread: the next instruction is taken off the code that
    remains and run.  [None]: nothing remains (the program of the thread
    is over, or [MainFunc] has returned with no [uc_link]). *)
Definition step (m : Machine) : option (outcome unit) :=
  match pc (thr m) with
  | [] => None
  | i :: k => Some (exec_instr i (on_thr (with_cpu (sp (thr m)) k) m))
  end.

(** At most [n] steps; the thread stops at a fault. *)
Fixpoint run (n : nat) (m : Machine) : outcome unit :=
  match n with
  | O => Ret tt m
  | S n' =>
      match step m with
      | None => Ret tt m
      | Some (Ret _ m') => run n' m'
      | Some (Fault e m') => Fault e m'
      end
  end.

End FiberCpp.

(** A thread that has not called the library yet, about to run [prog]. *)
Definition thread0 (prog : list cmd) : Thread :=
  {| t_fiber := None; t_thread_fiber := None; t_scheduler_fiber := None;
     sp := OsStack; pc := map ICmd prog |}.

Definition global0 : Global :=
  {| heap := []; s_fiber_id := 0; s_fiber_count := 0; blocks := [] |}.

Definition machine0 (prog : list cmd) : Machine :=
  {| glob := global0; thr := thread0 prog |}.

(** ** Several threads *)

(** The threads of a process share the memory; each has its own pointers
    and processor state. *)
Record System := mkSystem { sys_glob : Global; sys_threads : list Thread }.

(** Thread [i] takes a step.  The steps of the threads interleave at the
    grain of a library call; a fault ends the process. *)
Definition sys_step (hdr : Header) (i : nat) (s : System) : option System :=
  match sys_threads s !! i with
  | None => None
  | Some t =>
      match step hdr (mkMachine (sys_glob s) t) with
      | Some (Ret _ m') =>
          Some (mkSystem (glob m') (<[i := thr m']> (sys_threads s)))
      | _ => None
      end
  end.

(** The threads step in the order [sched] gives. *)
Fixpoint sys_run (hdr : Header) (sched : list nat) (s : System) : option System :=
  match sched with
  | [] => Some s
  | i :: sched' =>
      match sys_step hdr i s with
      | Some s' => sys_run hdr sched' s'
      | None => None
      end
  end.

Definition sys0 (progs : list (list cmd)) : System :=
  {| sys_glob := global0; sys_threads := map thread0 progs |}.

(** ** Notions the properties are stated with *)

(** The context [swapcontext] writes on a machine. *)
Definition save_ctx (m : Machine) (f : Fiber) : Fiber :=
  with_ctx (with_mcontext (McSaved (sp (thr m)) (pc (thr m))) (m_ctx f)) f.

(** The last part of [swapcontext]: the target is looked up and taken up. *)
Definition take_up (ucp : option addr) : M unit :=
  target ← deref ucp; activate (m_ctx target).

(** The fiber [resume] and [yield] exchange contexts with. *)
Definition counterpart (self : Fiber) (t : Thread) : option addr :=
  if m_runInScheduler self then t_scheduler_fiber t else t_thread_fiber t.

(** What [yield] leaves in [m_state]. *)
Definition yielded (self : Fiber) : Fiber :=
  match m_state self with
  | TERM => self
  | _ => with_state READY self
  end.

Definition entry_ctx (self : Fiber) : ucontext :=
  {| uc_link := None; ss_sp := m_stack self; ss_size := m_stacksize self;
     uc_mcontext := McEntry |}.

(** The object [new Fiber(cb, stacksize, run_in_scheduler)] builds on a
    machine with memory [g]. *)
Definition built_fiber (g : Global) (cb : closure) (stacksize : Z)
    (run_in_scheduler : bool) : Fiber :=
  let size := if stacksize =? 0 then 128000 else stacksize in
  {| m_id := s_fiber_id g; m_stacksize := size; m_state := READY;
     m_ctx := {| uc_link := None; ss_sp := Some (length (blocks g));
                 ss_size := size; uc_mcontext := McEntry |};
     m_stack := Some (length (blocks g)); m_cb := Some cb;
     m_runInScheduler := run_in_scheduler |}.

(** The object [new Fiber()] builds. *)
Definition built_main (hdr : Header) (g : Global) : Fiber :=
  {| m_id := s_fiber_id g; m_stacksize := hdr_stacksize hdr; m_state := RUNNING;
     m_ctx := uc_raw; m_stack := None; m_cb := None;
     m_runInScheduler := hdr_runInScheduler hdr |}.

(** Where a context continues when it is taken up. *)
Definition resumption (u : ucontext) : option (stack_id * list instr) :=
  match uc_mcontext u with
  | McCaptured => None
  | McEntry => match ss_sp u with Some b => Some (Block b, [IMainFunc]) | None => None end
  | McSaved s k => Some (s, k)
  end.

(** Fibers that agree on every field but [m_ctx]. *)
Definition same_but_ctx (f f' : Fiber) : Prop := f' = with_ctx (m_ctx f') f.

Definition is_running (f : Fiber) : bool := State_eqb (m_state f) RUNNING.

(** The number of fiber objects whose state is RUNNING. *)
Definition running (m : Machine) : nat :=
  length (List.filter is_running (heap (glob m))).

(** Fibers that agree on every field but [m_ctx] and [m_state]. *)
Definition same_fields (f f' : Fiber) : Prop :=
  f' = with_ctx (m_ctx f') (with_state (m_state f') f).

(** The same, and the state too at every address but [this]. *)
Definition touched_at (this : addr) (a : addr) (f f' : Fiber) : Prop :=
  same_fields f f' /\ (a <> this -> m_state f' = m_state f).

(** [resume], [yield] and [reset] on one fiber leave the state of every
    other fiber as it was. *)
Definition state_kept_off (this : addr) (a : addr) (f f' : Fiber) : Prop :=
  a <> this -> m_state f' = m_state f.

(** [c] leaves every machine related by [R] to the one it started from,
    whether it returns or faults. *)
Definition preserves {A} (R : relation Machine) (c : M A) : Prop :=
  forall m, R m (final (c m)).

(** [R] holds across a write of [m_state] at [this]. *)
Definition state_move (R : relation Machine) (this : addr) : Prop :=
  forall m f s, fiber_at m this = Some f -> R m (set_fiber this (with_state s f) m).

(** [R] holds across a write of [m_cb] at [this]. *)
Definition cb_move (R : relation Machine) (this : addr) : Prop :=
  forall m f cb, fiber_at m this = Some f -> R m (set_fiber this (with_cb cb f) m).

(** Every object of [m] is still there in [m'], related by [Rf] to what it
    was. *)
Definition heap_rel (Rf : addr -> relation Fiber) (m m' : Machine) : Prop :=
  forall a f, fiber_at m a = Some f -> exists f', fiber_at m' a = Some f' /\ Rf a f f'.

(** The counter and the identities agree with the order of construction:
    the counter has counted the objects, and the object built [a]-th
    (from 0) has identity [a], both modulo 2^64. *)
Definition ids_ok (g : Global) : Prop :=
  s_fiber_id g = wrap64 (Z.of_nat (length (heap g))) /\
  forall a f, heap g !! a = Some f -> m_id f = wrap64 (Z.of_nat a).

Definition id_kept (a : addr) (f f' : Fiber) : Prop := m_id f' = m_id f.

(** ** Scenarios *)

(** The header values used in the examples. *)
Definition hdr0 : Header := {| hdr_stacksize := 0; hdr_runInScheduler := false |}.

(** A thread that makes its thread fiber (fiber 0), builds a fiber
    (fiber 1) and resumes it. *)
Definition prog_AB (cb : closure) (ris : bool) : list cmd :=
  [CGetThis; CCreate cb 0 ris; CResume 1%nat].

(** The same thread before the [resume]. *)
Definition m_before_resume : Machine :=
  Eval vm_compute in final (run hdr0 2 (machine0 (prog_AB [CGetFiberId] false))).

Definition f_B_ready : Fiber :=
  Eval vm_compute in default (raw_fiber hdr0) (fiber_at m_before_resume 1%nat).

(** The machine after four steps of that thread: the trampoline of fiber 1
    has just called the closure. *)
Definition m_in_B : Machine :=
  Eval vm_compute in final (run hdr0 4 (machine0 (prog_AB [CGetFiberId] false))).

Definition f_B : Fiber :=
  Eval vm_compute in default (raw_fiber hdr0) (fiber_at m_in_B 1%nat).

Definition f_A : Fiber :=
  Eval vm_compute in default (raw_fiber hdr0) (fiber_at m_in_B 0%nat).

(** The machine once the closure has returned and the fiber has yielded
    for the last time. *)
Definition m_B_done : Machine :=
  Eval vm_compute in final (run hdr0 6 (machine0 (prog_AB [CGetFiberId] false))).

Definition f_B_done : Fiber :=
  Eval vm_compute in default (raw_fiber hdr0) (fiber_at m_B_done 1%nat).

(** A thread whose fiber 1, once resumed, calls [yield] on the thread
    fiber (fiber 0). *)
Definition prog_yield_other : list cmd :=
  prog_AB [CYield 0%nat; CGetFiberId] false.

(** Fiber 1 runs and is current; [yield] is called on the thread fiber. *)
Definition m_yield_other : Machine :=
  Eval vm_compute in
    on_thr (with_cpu (Block 0) [ICmd CGetFiberId; IMainFuncAfter 1%nat])
      (final (run hdr0 4 (machine0 prog_yield_other))).








(** A thread that makes its thread fiber (fiber 0) and builds two fibers;
    it resumes fiber 1, whose closure resumes fiber 2. *)
Definition prog_nested : list cmd :=
  [CGetThis; CCreate [CResume 2%nat] 0 false; CCreate [CGetFiberId] 0 false;
   CResume 1%nat].

(** The machine after seven steps: the trampoline of fiber 2 has just
    called the closure. *)
Definition m_nested : Machine :=
  Eval vm_compute in final (run hdr0 7 (machine0 prog_nested)).

(** Two threads: one makes its thread fiber, builds a fiber and resumes
    it; the other builds two fibers and makes its thread fiber in between.
    In the interleaving below the fiber the first thread builds is at
    address 2. *)
Definition two_threads : list (list cmd) :=
  [[CGetThis; CCreate [CGetFiberId] 0 false; CResume 2%nat];
   [CCreate [] 4096 true; CGetThis; CCreate [] 0 false]].

Definition interleaving : list nat := [1; 0; 0; 1; 1; 0; 0]%nat.

Definition sys_example : System :=
  Eval vm_compute in
    default (sys0 two_threads) (sys_run hdr0 interleaving (sys0 two_threads)).

(** ** Destruction *)

(** [s_fiber_count --]. *)
Definition s_fiber_count_dec : M unit :=
  modify (on_glob (fun g => with_fiber_count (wrap64 (s_fiber_count g - 1)) g)).

(** [Fiber::~Fiber], run on the object at [this].  The call [free(m_stack)]
    is what the function returns: the block handed to [free], if any. *)
Definition Fiber_dtor (this : addr) : M (option nat) :=
  s_fiber_count_dec;;
  self ← deref (Some this);
  match m_stack self with
  | Some b => mret (Some b)
  | None => mret None
  end.

(** A process: its threads and memory, the objects whose destructor has
    run, and the blocks handed to [free], latest first. *)
Record Process := mkProcess {
  proc_sys : System;
  destroyed : list addr;
  freed : list nat
}.

(** What happens in a process: a thread takes a step, or a thread runs the
    destructor of an object. *)
Inductive event :=
| EStep (i : nat)
| EDestroy (i : nat) (a : addr).

Definition free_block (b : option nat) (l : list nat) : list nat :=
  match b with Some x => x :: l | None => l end.

(** One event.  The destructor of an object runs once at most (the object
    is owned through a [shared_ptr]). *)
Definition proc_step (hdr : Header) (e : event) (p : Process) : option Process :=
  match e with
  | EStep i =>
      match sys_step hdr i (proc_sys p) with
      | Some s' => Some (mkProcess s' (destroyed p) (freed p))
      | None => None
      end
  | EDestroy i a =>
      if bool_decide (a ∈ destroyed p) then None
      else
        match sys_threads (proc_sys p) !! i with
        | None => None
        | Some t =>
            match Fiber_dtor a (mkMachine (sys_glob (proc_sys p)) t) with
            | Ret b m' =>
                Some (mkProcess (mkSystem (glob m') (sys_threads (proc_sys p)))
                        (a :: destroyed p) (free_block b (freed p)))
            | Fault _ _ => None
            end
        end
  end.

Fixpoint proc_run (hdr : Header) (es : list event) (p : Process) : option Process :=
  match es with
  | [] => Some p
  | e :: es' =>
      match proc_step hdr e p with
      | Some p' => proc_run hdr es' p'
      | None => None
      end
  end.

Definition proc0 (progs : list (list cmd)) : Process :=
  {| proc_sys := sys0 progs; destroyed := []; freed := [] |}.

(** ** Further notions *)

(** The calls that only read the current fiber: [GetThis] and
    [GetFiberId]. *)
Definition quiet (c : cmd) : bool :=
  match c with
  | CGetThis | CGetFiberId => true
  | _ => false
  end.


(** The instructions a thread executes in its first [n] steps, the one
    that faults included. *)
Fixpoint trace (hdr : Header) (n : nat) (m : Machine) : list instr :=
  match n with
  | O => []
  | S n' =>
      match pc (thr m), step hdr m with
      | i :: _, Some (Ret _ m') => i :: trace hdr n' m'
      | i :: _, Some (Fault _ _) => [i]
      | _, _ => []
      end
  end.

(** The current fiber, if any, is a live object; and once the thread has a
    thread fiber, it has a current fiber, and the thread fiber is a live
    object with no stack block. *)
Definition reg_ok (m : Machine) : Prop :=
  (forall a, t_fiber (thr m) = Some a -> is_Some (fiber_at m a)) /\
  (forall a, t_thread_fiber (thr m) = Some a ->
     t_fiber (thr m) <> None /\
     exists f, fiber_at m a = Some f /\ m_stack f = None).

(** Objects that keep the fields no function of the library writes after
    construction. *)
Definition fixed_kept (a : addr) (f f' : Fiber) : Prop :=
  m_id f' = m_id f /\ m_stack f' = m_stack f /\ m_stacksize f' = m_stacksize f /\
  m_runInScheduler f' = m_runInScheduler f.

(** How the pointers of a thread stand after an instruction that returns:
    the current and the thread fiber are as they were; or the current
    fiber is some live object and the thread fiber is as it was; or the
    thread had no current fiber and now has a thread fiber. *)
Definition ptrs_after (m m' : Machine) : Prop :=
  (t_fiber (thr m') = t_fiber (thr m) /\
   t_thread_fiber (thr m') = t_thread_fiber (thr m)) \/
  ((exists c, t_fiber (thr m') = Some c /\ is_Some (fiber_at m' c)) /\
   t_thread_fiber (thr m') = t_thread_fiber (thr m)) \/
  (t_fiber (thr m) = None /\
   exists a f c, t_thread_fiber (thr m') = Some a /\ fiber_at m' a = Some f /\
     m_stack f = None /\ t_fiber (thr m') = Some c /\ is_Some (fiber_at m' c)).

(** Every fiber that has a stack block has one that [malloc] handed out
    with the size the fiber records, which is not 0, and no other fiber has
    that block. *)
Definition stacks_ok (g : Global) : Prop :=
  forall a f b, heap g !! a = Some f -> m_stack f = Some b ->
    blocks g !! b = Some (m_stacksize f) /\ m_stacksize f <> 0 /\
    forall a' f', heap g !! a' = Some f' -> m_stack f' = Some b -> a' = a.

(** The live count is the number of objects built less the number
    destroyed, modulo 2^64. *)
Definition count_ok (g : Global) (d : nat) : Prop :=
  s_fiber_count g = wrap64 (Z.of_nat (length (heap g)) - Z.of_nat d).

(** What holds of a process: the count; the stack blocks; the destroyed
    objects are objects, each once; the freed blocks are the stack blocks
    of destroyed objects, each once. *)
Definition proc_ok (p : Process) : Prop :=
  count_ok (sys_glob (proc_sys p)) (length (destroyed p)) /\
  stacks_ok (sys_glob (proc_sys p)) /\
  NoDup (destroyed p) /\
  (forall a, a ∈ destroyed p -> is_Some (heap (sys_glob (proc_sys p)) !! a)) /\
  NoDup (freed p) /\
  (forall b, b ∈ freed p ->
     exists a f, a ∈ destroyed p /\ heap (sys_glob (proc_sys p)) !! a = Some f /\
                 m_stack f = Some b).

(** ** Further scenarios *)

(** A thread that makes its thread fiber, builds a fiber whose closure
    yields once, and resumes it twice. *)
Definition prog_twice : list cmd :=
  [CGetThis; CCreate [CGetFiberId; CYieldThis; CGetThis] 0 false;
   CResume 1%nat; CResume 1%nat].

(** The machine after two steps, at the first [resume]. *)
Definition m_twice : Machine :=
  Eval vm_compute in final (run hdr0 2 (machine0 prog_twice)).

Definition f_twice : Fiber :=
  Eval vm_compute in default (raw_fiber hdr0) (fiber_at m_twice 1%nat).

Definition f_twice_main : Fiber :=
  Eval vm_compute in default (raw_fiber hdr0) (fiber_at m_twice 0%nat).

(** A thread that makes its thread fiber, builds a scheduler-managed fiber,
    names it scheduler fiber and resumes it. *)
Definition prog_self : list cmd :=
  [CGetThis; CCreate [CGetFiberId] 0 true; CSetSchedulerFiber (Some 1%nat);
   CResume 1%nat; CGetFiberId].

(** The machine after three steps, at the [resume]. *)
Definition m_self : Machine :=
  Eval vm_compute in final (run hdr0 3 (machine0 prog_self)).

Definition f_self : Fiber :=
  Eval vm_compute in default (raw_fiber hdr0) (fiber_at m_self 1%nat).

(** The two threads of the scenario above; the second destroys the first
    fiber it built and builds another. *)
Definition events_example : list event :=
  [EStep 1; EStep 0; EStep 0; EStep 1; EDestroy 1 0; EStep 1; EDestroy 0 1]%nat.

Definition proc_example : Process :=
  Eval vm_compute in
    default (proc0 two_threads) (proc_run hdr0 events_example (proc0 two_threads)).

(** A thread that makes its thread fiber, builds a fiber, runs it, resets
    it with another closure and runs it again. *)
Definition prog_cycle : list cmd :=
  [CGetThis; CCreate [CGetFiberId] 0 false; CResume 1%nat;
   CReset 1%nat [CGetThis; CGetFiberId]; CResume 1%nat].

(** The machine after two steps, at the first [resume]. *)
Definition m_cycle : Machine :=
  Eval vm_compute in final (run hdr0 2 (machine0 prog_cycle)).

(** The nested scenario at the [resume] in the closure of fiber 1. *)
Definition m_nested_call : Machine :=
  Eval vm_compute in
    on_thr (with_cpu (Block 0) [IMainFuncAfter 1%nat])
      (final (run hdr0 5 (machine0 prog_nested))).

Definition f_nested_1 : Fiber :=
  Eval vm_compute in default (raw_fiber hdr0) (fiber_at m_nested_call 1%nat).

Definition f_nested_2 : Fiber :=
  Eval vm_compute in default (raw_fiber hdr0) (fiber_at m_nested_call 2%nat).

(** A fiber built with [run_in_scheduler] in a thread that leaves the
    scheduler fiber alone. *)
Definition prog_flag : list cmd :=
  [CGetThis; CCreate [CYieldThis] 0 true; CResume 1%nat; CResume 1%nat].

Definition m_flag : Machine :=
  Eval vm_compute in final (run hdr0 4 (machine0 prog_flag)).

Definition f_flag : Fiber :=
  Eval vm_compute in default (raw_fiber hdr0) (fiber_at m_flag 1%nat).










(** A thread that makes its thread fiber and yields from it, resumes it,
    and calls [yield] on it twice more. *)
Definition prog_yield_main : list cmd :=
  [CGetThis; CYieldThis; CResume 0%nat; CYield 0%nat; CYield 0%nat].

(** After one step the thread fiber is built; after two it has yielded. *)
Definition m_main_built : Machine :=
  Eval vm_compute in final (run hdr0 1 (machine0 prog_yield_main)).

Definition f_main_built : Fiber :=
  Eval vm_compute in default (raw_fiber hdr0) (fiber_at m_main_built 0%nat).

Definition m_main_yielded : Machine :=
  Eval vm_compute in final (run hdr0 2 (machine0 prog_yield_main)).

(** ** The claims as they are stated *)

(** C1 as it is stated: in every state a thread reaches, at most one fiber
    is RUNNING. *)
Definition single_running (hdr : Header) : Prop :=
  forall prog n, (running (final (run hdr n (machine0 prog))) <= 1)%nat.

(** C3 as it is stated: when the trampoline has called the closure, the
    current fiber no longer holds it. *)
Definition cleared_at_start (hdr : Header) : Prop :=
  forall prog n m k m' a f,
    run hdr n (machine0 prog) = Ret tt m -> pc (thr m) = IMainFunc :: k ->
    step hdr m = Some (Ret tt m') ->
    t_fiber (thr m') = Some a -> fiber_at m' a = Some f -> m_cb f = None.


(** C10 as it is stated, the part on the thread fiber: it is RUNNING from
    its construction and no operation changes that, so it is RUNNING in
    every state a thread reaches. *)
Definition thread_fiber_stays_running (hdr : Header) : Prop :=
  forall prog n m a f,
    run hdr n (machine0 prog) = Ret tt m ->
    t_thread_fiber (thr m) = Some a -> fiber_at m a = Some f ->
    m_state f = RUNNING.

(** ** Basic facts: memory and the monad *)

Lemma State_eqb_eq a b : State_eqb a b = true <-> a = b.
Proof. destruct a, b; simpl; split; congruence. Qed.

Lemma fiber_at_set_fiber_eq m a f f' :
  fiber_at m a = Some f -> fiber_at (set_fiber a f' m) a = Some f'.
Proof.
  intros H. unfold fiber_at, set_fiber; simpl.
  apply list_lookup_insert_eq. eapply lookup_lt_Some, H.
Qed.

Lemma fiber_at_set_fiber_ne m a b f' :
  a <> b -> fiber_at (set_fiber a f' m) b = fiber_at m b.
Proof. intros H. unfold fiber_at, set_fiber; simpl. by apply list_lookup_insert_ne. Qed.

Lemma set_fiber_set_fiber m a f f' :
  set_fiber a f' (set_fiber a f m) = set_fiber a f' m.
Proof.
  unfold set_fiber, on_glob, with_heap; simpl. by rewrite list_insert_insert_eq.
Qed.

Lemma fiber_at_on_thr m g a : fiber_at (on_thr g m) a = fiber_at m a.
Proof. reflexivity. Qed.

Lemma set_fiber_on_thr m g a f :
  set_fiber a f (on_thr g m) = on_thr g (set_fiber a f m).
Proof. reflexivity. Qed.

Lemma bind_Ret {A B} (c : M A) (k : A -> M B) m a m' :
  c m = Ret a m' -> (c ≫= k) m = k a m'.
Proof. intros H. unfold mbind, M_bind. by rewrite H. Qed.

Lemma bind_Fault {A B} (c : M A) (k : A -> M B) m e m' :
  c m = Fault e m' -> (c ≫= k) m = Fault e m'.
Proof. intros H. unfold mbind, M_bind. by rewrite H. Qed.

Lemma deref_Some m a f : fiber_at m a = Some f -> deref (Some a) m = Ret f m.
Proof. intros H. unfold deref. by rewrite H. Qed.

Lemma update_Some m a f upd :
  fiber_at m a = Some f -> update (Some a) upd m = Ret tt (set_fiber a (upd f) m).
Proof. intros H. unfold update. by rewrite H. Qed.

(** Running library code on a machine whose objects are known: the next
    call is replaced by its result. *)
Ltac known_fiber :=
  first [ eassumption
        | eapply fiber_at_set_fiber_eq; known_fiber
        | rewrite fiber_at_on_thr; known_fiber ].

Ltac mstep :=
  first
    [ erewrite (bind_Ret (deref (Some _))) by (apply deref_Some; known_fiber)
    | erewrite (bind_Ret (update (Some _) _)) by (apply update_Some; known_fiber)
    | erewrite update_Some by known_fiber
    | erewrite deref_Some by known_fiber
    | erewrite (bind_Ret (gets _)) by reflexivity
    | erewrite (bind_Ret (modify _)) by reflexivity
    | erewrite (bind_Ret (SetThis _)) by reflexivity
    | erewrite (bind_Ret (mret _)) by reflexivity
    | erewrite (bind_Ret (assert true)) by reflexivity
    | erewrite (bind_Fault (assert false)) by reflexivity
    | erewrite (bind_Fault (throw _)) by reflexivity ];
  rewrite ?set_fiber_set_fiber.

Lemma swapcontext_eq m o fo ucp :
  fiber_at m o = Some fo ->
  swapcontext (Some o) ucp m =
    (target ← deref ucp; activate (m_ctx target))
      (set_fiber o (with_ctx (with_mcontext (McSaved (sp (thr m)) (pc (thr m))) (m_ctx fo)) fo) m).
Proof.
  intros H. unfold swapcontext. repeat mstep. reflexivity.
Qed.

Lemma lookup_snoc_last {A} (l : list A) (x : A) : (l ++ [x]) !! length l = Some x.
Proof. by apply list_lookup_middle. Qed.

Lemma insert_snoc_last {A} (l : list A) (x y : A) : <[length l := y]> (l ++ [x]) = l ++ [y].
Proof.
  replace (length l) with (length l + 0)%nat by lia.
  by rewrite insert_app_r.
Qed.

(** *** The constructors in closed form *)

Ltac unfold_fields :=
  cbv [on_glob on_thr with_heap with_fiber_id with_fiber_count with_blocks
       with_t_fiber with_t_thread_fiber with_t_scheduler_fiber with_cpu
       with_id with_stacksize with_state with_ctx with_stack with_cb
       with_runInScheduler with_uc_link with_ss_sp with_ss_size with_mcontext
       glob thr heap s_fiber_id s_fiber_count blocks
       t_fiber t_thread_fiber t_scheduler_fiber sp pc
       m_id m_stacksize m_state m_ctx m_stack m_cb m_runInScheduler
       uc_link ss_sp ss_size uc_mcontext].

Ltac run_ctor :=
  repeat (unfold_fields; cbn -[wrap64 Z.eqb];
          rewrite ?lookup_snoc_last, ?insert_snoc_last).

Lemma new_Fiber_eq hdr cb stacksize ris m :
  new_Fiber hdr cb stacksize ris m =
    Ret (length (heap (glob m)))
        {| glob := {| heap := heap (glob m) ++ [built_fiber (glob m) cb stacksize ris];
                      s_fiber_id := wrap64 (s_fiber_id (glob m) + 1);
                      s_fiber_count := wrap64 (s_fiber_count (glob m) + 1);
                      blocks := blocks (glob m) ++
                                [if stacksize =? 0 then 128000 else stacksize] |};
           thr := thr m |}.
Proof.
  destruct m as [[h i c b] t].
  unfold new_Fiber, Fiber_ctor, new_object, update, deref, malloc, getcontext,
    makecontext, s_fiber_id_postinc, s_fiber_count_inc, modify, update, fiber_at,
    set_fiber, mbind, M_bind, mret, M_ret.
  run_ctor. reflexivity.
Qed.

Lemma new_Fiber_main_eq hdr m :
  new_Fiber_main hdr m =
    Ret (length (heap (glob m)))
        {| glob := {| heap := heap (glob m) ++ [built_main hdr (glob m)];
                      s_fiber_id := wrap64 (s_fiber_id (glob m) + 1);
                      s_fiber_count := wrap64 (s_fiber_count (glob m) + 1);
                      blocks := blocks (glob m) |};
           thr := with_t_fiber (Some (length (heap (glob m)))) (thr m) |}.
Proof.
  destruct m as [[h i c b] t].
  unfold new_Fiber_main, Fiber_main, SetThis, new_object, update, deref, getcontext,
    s_fiber_id_postinc, s_fiber_count_inc, modify, update, fiber_at,
    set_fiber, mbind, M_bind, mret, M_ret.
  run_ctor. reflexivity.
Qed.

(** *** The other functions in closed form *)

Lemma swapcontext_Some m o fo ucp :
  fiber_at m o = Some fo ->
  swapcontext (Some o) ucp m = take_up ucp (set_fiber o (save_ctx m fo) m).
Proof. apply swapcontext_eq. Qed.

Lemma swapcontext_wild m o ucp :
  fiber_at m o = None -> swapcontext (Some o) ucp m = Fault WildPointer m.
Proof.
  intros H. unfold swapcontext, update, gets, mbind, M_bind. by rewrite H.
Qed.

Lemma resume_not_READY m this self :
  fiber_at m this = Some self -> m_state self <> READY ->
  resume this m = Fault AssertionFailed m.
Proof.
  intros H Hs. unfold resume. mstep.
  destruct (m_state self); try congruence; reflexivity.
Qed.

Lemma resume_READY m this self :
  fiber_at m this = Some self -> m_state self = READY ->
  resume this m =
    swapcontext (counterpart self (thr m)) (Some this)
      (on_thr (with_t_fiber (Some this)) (set_fiber this (with_state RUNNING self) m)).
Proof.
  intros H Hs. unfold resume, counterpart. mstep. rewrite Hs; simpl. repeat mstep.
  destruct (m_runInScheduler self); repeat mstep; reflexivity.
Qed.

Lemma yield_READY m this self :
  fiber_at m this = Some self -> m_state self = READY ->
  yield this m = Fault AssertionFailed m.
Proof. intros H Hs. unfold yield. mstep. rewrite Hs; reflexivity. Qed.

Lemma yield_not_READY m this self :
  fiber_at m this = Some self -> m_state self <> READY ->
  yield this m =
    take_up (counterpart self (thr m))
      (on_thr (with_t_fiber (counterpart self (thr m)))
         (set_fiber this (save_ctx m (yielded self)) m)).
Proof.
  intros H Hs. unfold yield, counterpart, yielded. mstep.
  destruct (m_state self) eqn:E; try congruence; simpl; repeat mstep;
    destruct (m_runInScheduler self); repeat mstep;
    (erewrite swapcontext_Some by known_fiber);
    rewrite ?set_fiber_on_thr, ?set_fiber_set_fiber; reflexivity.
Qed.

Lemma reset_eq m this self cb :
  fiber_at m this = Some self ->
  reset this cb m =
    if bool_decide (m_stack self <> None) && State_eqb (m_state self) TERM
    then Ret tt (set_fiber this
                   (with_ctx (entry_ctx self) (with_cb (Some cb) (with_state READY self))) m)
    else Fault AssertionFailed m.
Proof.
  intros H. unfold reset, getcontext, makecontext. mstep.
  destruct (bool_decide _ && _); simpl; repeat mstep; reflexivity.
Qed.

Lemma GetThis_Some hdr m a f :
  t_fiber (thr m) = Some a -> fiber_at m a = Some f -> GetThis hdr m = Ret a m.
Proof.
  intros Ht Hf. unfold GetThis, shared_from_this. mstep. rewrite Ht. repeat mstep.
  reflexivity.
Qed.

Lemma GetThis_None hdr m :
  t_fiber (thr m) = None ->
  GetThis hdr m =
    Ret (length (heap (glob m)))
        {| glob := {| heap := heap (glob m) ++ [built_main hdr (glob m)];
                      s_fiber_id := wrap64 (s_fiber_id (glob m) + 1);
                      s_fiber_count := wrap64 (s_fiber_count (glob m) + 1);
                      blocks := blocks (glob m) |};
           thr := {| t_fiber := Some (length (heap (glob m)));
                     t_thread_fiber := Some (length (heap (glob m)));
                     t_scheduler_fiber := Some (length (heap (glob m)));
                     sp := sp (thr m); pc := pc (thr m) |} |}.
Proof.
  intros Ht. unfold GetThis, shared_from_this. mstep. rewrite Ht.
  erewrite bind_Ret by apply new_Fiber_main_eq.
  repeat mstep. unfold ptr_eqb; simpl. rewrite Nat.eqb_refl.
  repeat mstep. unfold deref, fiber_at, mbind, M_bind; simpl.
  rewrite lookup_snoc_last. reflexivity.
Qed.

Lemma MainFunc_eq hdr m a f :
  t_fiber (thr m) = Some a -> fiber_at m a = Some f ->
  MainFunc hdr m = call (m_cb f) (IMainFuncAfter a) m.
Proof.
  intros Ht Hf. unfold MainFunc.
  erewrite bind_Ret by (eapply GetThis_Some; eassumption).
  mstep. reflexivity.
Qed.

Lemma MainFunc_after_eq m curr f :
  fiber_at m curr = Some f ->
  MainFunc_after curr m =
    yield curr (set_fiber curr (with_state TERM (with_cb None f)) m).
Proof. intros H. unfold MainFunc_after. repeat mstep. reflexivity. Qed.

(** *** What a context switch leaves untouched *)

Lemma on_thr_same_cpu m : on_thr (with_cpu (sp (thr m)) (pc (thr m))) m = m.
Proof. by destruct m as [g []]. Qed.

Lemma activate_final u m :
  exists s k, final (activate u m) = on_thr (with_cpu s k) m.
Proof.
  unfold activate. destruct (uc_mcontext u) as [| |s k].
  - exists (sp (thr m)), (pc (thr m)). by rewrite on_thr_same_cpu.
  - destruct (ss_sp u) as [b|].
    + by exists (Block b), [IMainFunc].
    + exists (sp (thr m)), (pc (thr m)). by rewrite on_thr_same_cpu.
  - by exists s, k.
Qed.

Lemma take_up_final ucp m :
  exists s k, final (take_up ucp m) = on_thr (with_cpu s k) m.
Proof.
  unfold take_up, deref, mbind, M_bind.
  destruct ucp as [a|]; [destruct (fiber_at m a) as [f|]|];
    try apply activate_final;
    exists (sp (thr m)), (pc (thr m)); by rewrite on_thr_same_cpu.
Qed.

(** [swapcontext] changes the [m_ctx] of the fiber it saves into and the
    processor state, and nothing else. *)
Lemma swapcontext_final oucp ucp m :
  exists s k,
    final (swapcontext oucp ucp m) = on_thr (with_cpu s k) m \/
    exists o fo, oucp = Some o /\ fiber_at m o = Some fo /\
      final (swapcontext oucp ucp m) =
        on_thr (with_cpu s k) (set_fiber o (save_ctx m fo) m).
Proof.
  destruct oucp as [o|].
  - destruct (fiber_at m o) as [fo|] eqn:E.
    + rewrite (swapcontext_Some _ _ _ _ E).
      destruct (take_up_final ucp (set_fiber o (save_ctx m fo) m)) as (s & k & H).
      exists s, k. right. exists o, fo. auto.
    + rewrite (swapcontext_wild _ _ _ E). exists (sp (thr m)), (pc (thr m)).
      left. by rewrite on_thr_same_cpu.
  - exists (sp (thr m)), (pc (thr m)). left. by rewrite on_thr_same_cpu.
Qed.

Lemma same_but_ctx_refl f : same_but_ctx f f.
Proof. by destruct f. Qed.

Lemma same_but_ctx_save m f : same_but_ctx f (save_ctx m f).
Proof. by destruct f. Qed.

Lemma fiber_at_set_fiber m a b f f' :
  fiber_at m a = Some f ->
  fiber_at (set_fiber a f' m) b = if decide (a = b) then Some f' else fiber_at m b.
Proof.
  intros H. destruct (decide (a = b)) as [<-|Hne].
  - eapply fiber_at_set_fiber_eq, H.
  - by apply fiber_at_set_fiber_ne.
Qed.

Lemma swapcontext_fiber_at oucp ucp m a :
  option_Forall2 same_but_ctx (fiber_at m a) (fiber_at (final (swapcontext oucp ucp m)) a).
Proof.
  destruct (swapcontext_final oucp ucp m) as (s & k & [H | (o & fo & _ & Ho & H)]);
    rewrite H, fiber_at_on_thr.
  - destruct (fiber_at m a); constructor. apply same_but_ctx_refl.
  - rewrite (fiber_at_set_fiber _ _ _ _ _ Ho). destruct (decide (o = a)) as [<-|].
    + rewrite Ho. constructor. apply same_but_ctx_save.
    + destruct (fiber_at m a); constructor. apply same_but_ctx_refl.
Qed.

Lemma swapcontext_state_of oucp ucp m a :
  state_of (final (swapcontext oucp ucp m)) a = state_of m a.
Proof.
  unfold state_of. destruct (swapcontext_fiber_at oucp ucp m a) as [f f' H|]; [|done].
  simpl. rewrite H. reflexivity.
Qed.

Lemma swapcontext_t_fiber oucp ucp m :
  t_fiber (thr (final (swapcontext oucp ucp m))) = t_fiber (thr m).
Proof.
  destruct (swapcontext_final oucp ucp m) as (s & k & [H | (o & fo & _ & Ho & H)]);
    by rewrite H.
Qed.

Lemma take_up_fiber_at ucp m a : fiber_at (final (take_up ucp m)) a = fiber_at m a.
Proof. destruct (take_up_final ucp m) as (s & k & H). by rewrite H. Qed.

(** The fiber [yield] is called on, after the call. *)
Lemma yield_fiber_at m this self a :
  fiber_at m this = Some self -> m_state self <> READY ->
  fiber_at (final (yield this m)) a =
    if decide (this = a) then Some (save_ctx m (yielded self)) else fiber_at m a.
Proof.
  intros H Hs. rewrite (yield_not_READY _ _ _ H Hs), take_up_fiber_at, fiber_at_on_thr.
  by apply (fiber_at_set_fiber _ _ _ self).
Qed.

Lemma activate_resumption u s k m :
  resumption u = Some (s, k) -> activate u m = Ret tt (on_thr (with_cpu s k) m).
Proof.
  unfold resumption, activate. destruct (uc_mcontext u); [done | |].
  - destruct (ss_sp u); [|done]. by intros [= <- <-].
  - by intros [= <- <-].
Qed.

Lemma take_up_resumption m c fc s k :
  fiber_at m c = Some fc -> resumption (m_ctx fc) = Some (s, k) ->
  take_up (Some c) m = Ret tt (on_thr (with_cpu s k) m).
Proof. intros H Hc. unfold take_up. mstep. by apply activate_resumption. Qed.

Lemma take_up_no_assert ucp m e m' :
  take_up ucp m = Fault e m' -> e <> AssertionFailed.
Proof.
  unfold take_up, deref, activate, mbind, M_bind, modify, throw.
  destruct ucp as [a|]; [destruct (fiber_at m a) as [f|]|]; try by intros [= <- _].
  destruct (uc_mcontext (m_ctx f)); try by intros [= <- _].
  destruct (ss_sp (m_ctx f)); by intros [= <- _].
Qed.

Lemma state_of_set_fiber m a b f f' :
  fiber_at m a = Some f ->
  state_of (set_fiber a f' m) b = if decide (a = b) then Some (m_state f') else state_of m b.
Proof.
  intros H. unfold state_of. rewrite (fiber_at_set_fiber _ _ _ _ _ H).
  by destruct (decide (a = b)).
Qed.

Lemma yield_state_of m this self a :
  fiber_at m this = Some self -> m_state self <> READY ->
  state_of (final (yield this m)) a =
    if decide (this = a) then Some (m_state (yielded self)) else state_of m a.
Proof.
  intros H Hs. unfold state_of. rewrite (yield_fiber_at _ _ _ _ H Hs).
  by destruct (decide (this = a)).
Qed.

Lemma resume_state_of m this self a :
  fiber_at m this = Some self -> m_state self = READY ->
  state_of (final (resume this m)) a =
    if decide (this = a) then Some RUNNING else state_of m a.
Proof.
  intros H Hs. rewrite (resume_READY _ _ _ H Hs), swapcontext_state_of.
  exact (state_of_set_fiber m this a self (with_state RUNNING self) H).
Qed.

Lemma resume_t_fiber m this self :
  fiber_at m this = Some self -> m_state self = READY ->
  t_fiber (thr (final (resume this m))) = Some this.
Proof. intros H Hs. by rewrite (resume_READY _ _ _ H Hs), swapcontext_t_fiber. Qed.

(** [resume] on a READY fiber whose counterpart is another, live fiber. *)
Lemma resume_enters m this self c fc s k :
  fiber_at m this = Some self -> m_state self = READY ->
  counterpart self (thr m) = Some c -> c <> this -> fiber_at m c = Some fc ->
  resumption (m_ctx self) = Some (s, k) ->
  resume this m =
    Ret tt (on_thr (with_cpu s k)
              (set_fiber c (save_ctx m fc)
                 (on_thr (with_t_fiber (Some this))
                    (set_fiber this (with_state RUNNING self) m)))).
Proof.
  intros H Hs Hc Hne Hfc Hr. rewrite (resume_READY _ _ _ H Hs), Hc.
  erewrite swapcontext_Some
    by (rewrite fiber_at_on_thr, fiber_at_set_fiber_ne by done; exact Hfc).
  eapply take_up_resumption.
  - rewrite fiber_at_set_fiber_ne, fiber_at_on_thr by done.
    eapply fiber_at_set_fiber_eq, H.
  - exact Hr.
Qed.

Lemma step_MainFunc hdr m s this self body :
  pc (thr m) = [IMainFunc] -> sp (thr m) = s ->
  t_fiber (thr m) = Some this -> fiber_at m this = Some self ->
  m_cb self = Some body ->
  step hdr m =
    Some (Ret tt (on_thr (with_cpu s (map ICmd body ++ [IMainFuncAfter this])) m)).
Proof.
  intros Hpc Hsp Ht Hf Hcb. unfold step. rewrite Hpc, Hsp. simpl.
  erewrite MainFunc_eq by (simpl; eassumption). by rewrite Hcb.
Qed.

(** [resume] on a READY fiber at its entry, the counterpart being another
    live fiber: the switch goes to the trampoline, and the first step of
    the trampoline starts the body of the closure. *)
Lemma resume_starts_closure hdr m this self c fc b body :
  fiber_at m this = Some self -> m_state self = READY ->
  counterpart self (thr m) = Some c -> c <> this -> fiber_at m c = Some fc ->
  uc_mcontext (m_ctx self) = McEntry -> ss_sp (m_ctx self) = Some b ->
  m_cb self = Some body ->
  exists m1 m2,
    resume this m = Ret tt m1 /\
    sp (thr m1) = Block b /\ pc (thr m1) = [IMainFunc] /\
    step hdr m1 = Some (Ret tt m2) /\
    sp (thr m2) = Block b /\
    pc (thr m2) = map ICmd body ++ [IMainFuncAfter this] /\
    state_of m2 this = Some RUNNING /\
    fiber_at m2 this = Some (with_state RUNNING self) /\
    GetThis hdr m2 = Ret this m2.
Proof.
  intros H Hs Hc Hne Hfc Hentry Hb Hcb.
  assert (Hr : resumption (m_ctx self) = Some (Block b, [IMainFunc])).
  { unfold resumption. by rewrite Hentry, Hb. }
  pose proof (resume_enters _ _ _ _ _ _ _ H Hs Hc Hne Hfc Hr) as Hres.
  set (m1 := on_thr _ _) in Hres.
  assert (Hthis : fiber_at m1 this = Some (with_state RUNNING self)).
  { unfold m1. rewrite fiber_at_on_thr, fiber_at_set_fiber_ne, fiber_at_on_thr by done.
    eapply fiber_at_set_fiber_eq, H. }
  exists m1, (on_thr (with_cpu (Block b) (map ICmd body ++ [IMainFuncAfter this])) m1).
  split; [exact Hres|]. split; [reflexivity|]. split; [reflexivity|].
  split; [by eapply step_MainFunc|]. split; [reflexivity|]. split; [reflexivity|].
  split; [|split].
  - unfold state_of. rewrite fiber_at_on_thr, Hthis. reflexivity.
  - rewrite fiber_at_on_thr. exact Hthis.
  - eapply GetThis_Some; [reflexivity|]. rewrite fiber_at_on_thr. exact Hthis.
Qed.

(** ** What the library leaves as it is *)

(** A relation that holds across the moves the library is made of holds
    across its functions.  Writes to [m_state] and [m_cb] are accounted for
    function by function, at the fiber the function is called on. *)
Section Frame.

Variable R : relation Machine.
Hypothesis R_refl : forall m, R m m.
Hypothesis R_trans : forall m1 m2 m3, R m1 m2 -> R m2 m3 -> R m1 m3.
Hypothesis R_thr : forall m g, R m (on_thr g m).
Hypothesis R_ctx : forall m a f u,
  fiber_at m a = Some f -> R m (set_fiber a (with_ctx u f) m).
Hypothesis R_new : forall hdr cb stacksize ris m,
  R m (final (new_Fiber hdr cb stacksize ris m)).
Hypothesis R_new_main : forall hdr m, R m (final (new_Fiber_main hdr m)).

Lemma preserves_bind {A B} (c : M A) (k : A -> M B) :
  preserves R c -> (forall a, preserves R (k a)) -> preserves R (c ≫= k).
Proof.
  intros Hc Hk m. unfold mbind, M_bind. specialize (Hc m).
  destruct (c m) as [a m'|e m']; simpl in *; [|exact Hc].
  eapply R_trans; [exact Hc | apply Hk].
Qed.

Lemma preserves_mret {A} (a : A) : preserves R (mret a).
Proof. intros m. apply R_refl. Qed.

Lemma preserves_throw {A} e : preserves R (@throw A e).
Proof. intros m. apply R_refl. Qed.

Lemma preserves_assert b : preserves R (assert b).
Proof. destruct b; intros m; apply R_refl. Qed.

Lemma preserves_gets {A} (g : Machine -> A) : preserves R (gets g).
Proof. intros m. apply R_refl. Qed.

Lemma preserves_modify_thr g : preserves R (modify (on_thr g)).
Proof. intros m. apply R_thr. Qed.

Lemma preserves_deref p : preserves R (deref p).
Proof.
  intros m. unfold deref. destruct p as [a|]; [destruct (fiber_at m a)|];
    apply R_refl.
Qed.

Lemma preserves_update p upd :
  (forall m a f, p = Some a -> fiber_at m a = Some f -> R m (set_fiber a (upd f) m)) ->
  preserves R (update p upd).
Proof.
  intros Hupd m. unfold update. destruct p as [a|]; [|apply R_refl].
  destruct (fiber_at m a) as [f|] eqn:E; [|apply R_refl].
  simpl. eapply Hupd; eauto.
Qed.

Lemma preserves_update_ctx p (u : Fiber -> ucontext) :
  preserves R (update p (fun f => with_ctx (u f) f)).
Proof. apply preserves_update. intros m a f _ H. by apply R_ctx. Qed.

Lemma preserves_update_state this s :
  state_move R this -> preserves R (update (Some this) (with_state s)).
Proof. intros Hst. apply preserves_update. intros m a f [= <-] H. by apply Hst. Qed.

Lemma preserves_update_cb this cb :
  cb_move R this -> preserves R (update (Some this) (with_cb cb)).
Proof. intros Hcb. apply preserves_update. intros m a f [= <-] H. by apply Hcb. Qed.

Lemma preserves_activate u : preserves R (activate u).
Proof.
  unfold activate. destruct (uc_mcontext u); [apply preserves_throw| |].
  - destruct (ss_sp u); [apply preserves_modify_thr | apply preserves_throw].
  - apply preserves_modify_thr.
Qed.

Lemma preserves_swapcontext oucp ucp : preserves R (swapcontext oucp ucp).
Proof.
  unfold swapcontext.
  repeat first [ apply preserves_gets | apply preserves_deref
               | apply preserves_activate | apply preserves_update_ctx
               | apply preserves_bind; [|intros ?] ].
Qed.

Lemma preserves_shared_from_this p : preserves R (shared_from_this p).
Proof.
  unfold shared_from_this. apply preserves_bind; [apply preserves_deref|].
  intros _. destruct p; [apply preserves_mret | apply preserves_throw].
Qed.

Lemma preserves_GetThis hdr : preserves R (GetThis hdr).
Proof.
  unfold GetThis. apply preserves_bind; [apply preserves_gets|]. intros [a|].
  - apply preserves_shared_from_this.
  - repeat first [ exact (R_new_main hdr) | apply preserves_modify_thr
                 | apply preserves_gets | apply preserves_assert
                 | apply preserves_shared_from_this
                 | apply preserves_bind; [|intros ?] ].
Qed.

Lemma preserves_GetFiberId : preserves R GetFiberId.
Proof.
  unfold GetFiberId. apply preserves_bind; [apply preserves_gets|]. intros [a|].
  - apply preserves_bind; [apply preserves_deref|]. intros ?. apply preserves_mret.
  - apply preserves_mret.
Qed.

Ltac frame_steps :=
  repeat first [ apply preserves_gets | apply preserves_deref
               | apply preserves_assert | apply preserves_mret
               | apply preserves_modify_thr | apply preserves_swapcontext
               | apply preserves_update_ctx
               | apply preserves_update_state; assumption
               | apply preserves_update_cb; assumption
               | apply preserves_bind; [|intros ?] ].

Lemma preserves_resume this : state_move R this -> preserves R (resume this).
Proof.
  intros Hst. unfold resume, SetThis.
  apply preserves_bind; [apply preserves_deref|]. intros self.
  apply preserves_bind; [apply preserves_assert|]. intros _.
  apply preserves_bind; [by apply preserves_update_state|].
  intros _. destruct (m_runInScheduler self); frame_steps.
Qed.

Lemma preserves_yield this : state_move R this -> preserves R (yield this).
Proof.
  intros Hst. unfold yield, SetThis.
  apply preserves_bind; [apply preserves_deref|]. intros self.
  apply preserves_bind; [apply preserves_assert|]. intros _.
  apply preserves_bind.
  { destruct (negb _); [by apply preserves_update_state | apply preserves_mret]. }
  intros _. destruct (m_runInScheduler self); frame_steps.
Qed.

Lemma preserves_reset this cb :
  state_move R this -> cb_move R this -> preserves R (reset this cb).
Proof.
  intros Hst Hcb. unfold reset, getcontext, makecontext. frame_steps.
Qed.

Lemma preserves_call cb after : preserves R (call cb after).
Proof.
  unfold call. destruct cb; [apply preserves_modify_thr | apply preserves_throw].
Qed.

Lemma preserves_MainFunc hdr : preserves R (MainFunc hdr).
Proof.
  unfold MainFunc.
  repeat first [ apply preserves_GetThis | apply preserves_deref
               | apply preserves_call
               | apply preserves_bind; [|intros ?] ].
Qed.

Lemma preserves_MainFunc_after curr :
  state_move R curr -> cb_move R curr -> preserves R (MainFunc_after curr).
Proof.
  intros Hst Hcb. unfold MainFunc_after.
  repeat first [ by apply preserves_yield
               | by apply preserves_update_state
               | by apply preserves_update_cb
               | apply preserves_bind; [|intros ?] ].
Qed.

(** Where the two kinds of writes are allowed at every fiber, the relation
    holds across every step of a thread. *)
Hypothesis R_state : forall this, state_move R this.
Hypothesis R_cb : forall this, cb_move R this.

Lemma preserves_exec_cmd hdr c : preserves R (exec_cmd hdr c).
Proof.
  destruct c; simpl.
  - apply preserves_bind; [apply preserves_GetThis | intros; apply preserves_mret].
  - apply preserves_bind; [apply preserves_GetFiberId | intros; apply preserves_mret].
  - apply preserves_bind; [exact (R_new _ _ _ _) | intros; apply preserves_mret].
  - by apply preserves_reset.
  - by apply preserves_resume.
  - by apply preserves_yield.
  - apply preserves_bind; [apply preserves_GetThis | intros; by apply preserves_yield].
  - apply preserves_modify_thr.
Qed.

Lemma preserves_exec_instr hdr i : preserves R (exec_instr hdr i).
Proof.
  destruct i; simpl.
  - apply preserves_exec_cmd.
  - apply preserves_MainFunc.
  - by apply preserves_MainFunc_after.
Qed.

Lemma step_preserves hdr m o : step hdr m = Some o -> R m (final o).
Proof.
  unfold step. destruct (pc (thr m)) as [|i k]; [done|]. intros [= <-].
  eapply R_trans; [apply R_thr | apply preserves_exec_instr].
Qed.

End Frame.

(** *** Relations between the objects of two machines *)

Section HeapRel.

Variable Rf : addr -> relation Fiber.
Hypothesis Rf_refl : forall a f, Rf a f f.
Hypothesis Rf_trans : forall a f1 f2 f3, Rf a f1 f2 -> Rf a f2 f3 -> Rf a f1 f3.
Hypothesis Rf_ctx : forall a f u, Rf a f (with_ctx u f).

Lemma heap_rel_refl m : heap_rel Rf m m.
Proof. intros a f H. eauto. Qed.

Lemma heap_rel_trans m1 m2 m3 :
  heap_rel Rf m1 m2 -> heap_rel Rf m2 m3 -> heap_rel Rf m1 m3.
Proof.
  intros H12 H23 a f H. destruct (H12 a f H) as (f2 & H2 & R2).
  destruct (H23 a f2 H2) as (f3 & H3 & R3). eauto.
Qed.

Lemma heap_rel_thr m g : heap_rel Rf m (on_thr g m).
Proof. intros a f H. eauto. Qed.

Lemma heap_rel_set_fiber m a f f' :
  fiber_at m a = Some f -> Rf a f f' -> heap_rel Rf m (set_fiber a f' m).
Proof.
  intros H HR b g Hb. rewrite (fiber_at_set_fiber _ _ _ _ _ H).
  destruct (decide (a = b)) as [<-|]; [|eauto].
  rewrite H in Hb. injection Hb as <-. eauto.
Qed.

Lemma heap_rel_ctx m a f u :
  fiber_at m a = Some f -> heap_rel Rf m (set_fiber a (with_ctx u f) m).
Proof. intros H. eapply heap_rel_set_fiber; eauto. Qed.

Lemma heap_rel_snoc m m' x :
  heap (glob m') = heap (glob m) ++ [x] -> heap_rel Rf m m'.
Proof.
  intros E a f H. exists f. split; [|auto].
  unfold fiber_at in *. rewrite E. by apply lookup_app_l_Some.
Qed.

Lemma heap_rel_new hdr cb stacksize ris m :
  heap_rel Rf m (final (new_Fiber hdr cb stacksize ris m)).
Proof. rewrite new_Fiber_eq. simpl. by eapply heap_rel_snoc. Qed.

Lemma heap_rel_new_main hdr m : heap_rel Rf m (final (new_Fiber_main hdr m)).
Proof. rewrite new_Fiber_main_eq. simpl. by eapply heap_rel_snoc. Qed.

Lemma heap_rel_state_move this :
  (forall f s, Rf this f (with_state s f)) -> state_move (heap_rel Rf) this.
Proof. intros Hst m f s H. eapply heap_rel_set_fiber; eauto. Qed.

Lemma heap_rel_cb_move this :
  (forall f cb, Rf this f (with_cb cb f)) -> cb_move (heap_rel Rf) this.
Proof. intros Hcb m f cb H. eapply heap_rel_set_fiber; eauto. Qed.

Lemma heap_rel_resume this m :
  (forall f s, Rf this f (with_state s f)) ->
  heap_rel Rf m (final (resume this m)).
Proof.
  intros Hst. apply preserves_resume;
    auto using heap_rel_refl, heap_rel_thr, heap_rel_ctx, heap_rel_state_move.
  apply heap_rel_trans.
Qed.

Lemma heap_rel_yield this m :
  (forall f s, Rf this f (with_state s f)) ->
  heap_rel Rf m (final (yield this m)).
Proof.
  intros Hst. apply preserves_yield;
    auto using heap_rel_refl, heap_rel_thr, heap_rel_ctx, heap_rel_state_move.
  apply heap_rel_trans.
Qed.

Lemma heap_rel_reset this cb m :
  (forall f s, Rf this f (with_state s f)) ->
  (forall f cb, Rf this f (with_cb cb f)) ->
  heap_rel Rf m (final (reset this cb m)).
Proof.
  intros Hst Hcb. apply preserves_reset;
    auto using heap_rel_refl, heap_rel_thr, heap_rel_ctx, heap_rel_state_move,
      heap_rel_cb_move.
  apply heap_rel_trans.
Qed.

Lemma heap_rel_step hdr m o :
  (forall a f s, Rf a f (with_state s f)) ->
  (forall a f cb, Rf a f (with_cb cb f)) ->
  step hdr m = Some o -> heap_rel Rf m (final o).
Proof.
  intros Hst Hcb. apply step_preserves;
    auto using heap_rel_refl, heap_rel_thr, heap_rel_ctx, heap_rel_state_move,
      heap_rel_cb_move, heap_rel_new, heap_rel_new_main.
  apply heap_rel_trans.
Qed.

End HeapRel.

(** *** Counting the RUNNING fibers *)

Lemma filter_insert_count {A} (p : A -> bool) (l : list A) (i : nat) (x y : A) :
  l !! i = Some x ->
  (length (List.filter p (<[i := y]> l)) + Nat.b2n (p x) =
   length (List.filter p l) + Nat.b2n (p y))%nat.
Proof.
  revert i. induction l as [|z l IH]; intros [|i] H; simpl in *; try done.
  - injection H as ->. destruct (p x), (p y); simpl; lia.
  - specialize (IH i H). destruct (p z); simpl; lia.
Qed.

Lemma running_set_fiber m a f f' :
  fiber_at m a = Some f ->
  (running (set_fiber a f' m) + Nat.b2n (is_running f) =
   running m + Nat.b2n (is_running f'))%nat.
Proof. intros H. unfold running; simpl. by apply filter_insert_count. Qed.

Lemma running_on_thr m g : running (on_thr g m) = running m.
Proof. reflexivity. Qed.

Lemma running_save_ctx m m0 a f :
  fiber_at m a = Some f -> running (set_fiber a (save_ctx m0 f) m) = running m.
Proof.
  intros H. pose proof (running_set_fiber m a f (save_ctx m0 f) H) as E.
  change (is_running (save_ctx m0 f)) with (is_running f) in E. lia.
Qed.

Lemma running_swapcontext oucp ucp m :
  running (final (swapcontext oucp ucp m)) = running m.
Proof.
  destruct (swapcontext_final oucp ucp m) as (s & k & [H | (o & fo & _ & Ho & H)]);
    rewrite H, running_on_thr; [done|]. by apply running_save_ctx.
Qed.

Lemma running_take_up ucp m : running (final (take_up ucp m)) = running m.
Proof. destruct (take_up_final ucp m) as (s & k & H). by rewrite H. Qed.

Lemma running_resume m this self :
  fiber_at m this = Some self -> m_state self = READY ->
  running (final (resume this m)) = S (running m).
Proof.
  intros H Hs. rewrite (resume_READY _ _ _ H Hs), running_swapcontext, running_on_thr.
  pose proof (running_set_fiber m this self (with_state RUNNING self) H) as E.
  change (is_running (with_state RUNNING self)) with true in E.
  unfold is_running in E. rewrite Hs in E. simpl in E. lia.
Qed.

Lemma running_yield m this self :
  fiber_at m this = Some self -> m_state self <> READY ->
  (running (final (yield this m)) + Nat.b2n (is_running self))%nat = running m.
Proof.
  intros H Hs. rewrite (yield_not_READY _ _ _ H Hs), running_take_up, running_on_thr.
  pose proof (running_set_fiber m this self (save_ctx m (yielded self)) H) as E.
  change (is_running (save_ctx m (yielded self))) with (is_running (yielded self)) in E.
  revert E. unfold is_running, yielded.
  destruct (m_state self) eqn:Est; try congruence; simpl; rewrite ?Est; simpl; lia.
Qed.

(** *** What [resume] and [yield] leave of the objects *)

Lemma touched_at_refl this a f : touched_at this a f f.
Proof. split; [by destruct f | done]. Qed.

Lemma touched_at_trans this a f1 f2 f3 :
  touched_at this a f1 f2 -> touched_at this a f2 f3 -> touched_at this a f1 f3.
Proof.
  unfold touched_at, same_fields. intros [E12 S12] [E23 S23]. split.
  - rewrite E23, E12. by destruct f1.
  - intros Hne. rewrite S23, S12 by done. done.
Qed.

Lemma touched_at_ctx this a f u : touched_at this a f (with_ctx u f).
Proof. split; [by destruct f | done]. Qed.

Lemma touched_at_state this f s : touched_at this this f (with_state s f).
Proof. split; [by destruct f | done]. Qed.

Lemma resume_touches this m : heap_rel (touched_at this) m (final (resume this m)).
Proof.
  apply heap_rel_resume;
    [apply touched_at_refl | apply touched_at_trans | apply touched_at_ctx
    | apply touched_at_state].
Qed.

Lemma yield_touches this m : heap_rel (touched_at this) m (final (yield this m)).
Proof.
  apply heap_rel_yield;
    [apply touched_at_refl | apply touched_at_trans | apply touched_at_ctx
    | apply touched_at_state].
Qed.

Lemma reset_keeps_others this cb m :
  heap_rel (state_kept_off this) m (final (reset this cb m)).
Proof.
  apply heap_rel_reset; try (by intros ? ? ?).
  intros a f1 f2 f3 H12 H23 Hne. rewrite H23, H12; done.
Qed.

Lemma same_fields_cb f f' : same_fields f f' -> m_cb f' = m_cb f.
Proof. intros ->. reflexivity. Qed.

Lemma resume_null_counterpart m this self :
  fiber_at m this = Some self -> m_state self = READY ->
  counterpart self (thr m) = None ->
  resume this m =
    Fault NullPointer
      (on_thr (with_t_fiber (Some this)) (set_fiber this (with_state RUNNING self) m)).
Proof. intros H Hs Hc. by rewrite (resume_READY _ _ _ H Hs), Hc. Qed.

(** [yield] does not read [t_fiber]. *)
Lemma yield_ignores_current m this self cur :
  fiber_at m this = Some self -> m_state self <> READY ->
  yield this (on_thr (with_t_fiber cur) m) = yield this m.
Proof.
  intros H Hs.
  rewrite (yield_not_READY (on_thr (with_t_fiber cur) m) this self) by done.
  rewrite (yield_not_READY m this self) by done. reflexivity.
Qed.

(** *** Identities *)

Lemma ids_ok_global0 : ids_ok global0.
Proof. split; [reflexivity | intros a f H; by destruct a]. Qed.

Lemma ids_ok_set_fiber m a f f' :
  fiber_at m a = Some f -> m_id f' = m_id f ->
  ids_ok (glob m) -> ids_ok (glob (set_fiber a f' m)).
Proof.
  intros H Hid [Hc Hids]. split; simpl.
  - by rewrite length_insert.
  - intros b g Hb. change (fiber_at (set_fiber a f' m) b = Some g) in Hb.
    rewrite (fiber_at_set_fiber _ _ _ _ _ H) in Hb.
    destruct (decide (a = b)) as [<-|].
    + injection Hb as <-. rewrite Hid. by apply Hids.
    + by apply Hids.
Qed.

Lemma wrap64_succ n : wrap64 (wrap64 (Z.of_nat n) + 1) = wrap64 (Z.of_nat (S n)).
Proof.
  unfold wrap64. rewrite Zplus_mod_idemp_l. f_equal. lia.
Qed.

Lemma ids_ok_snoc g g' x :
  heap g' = heap g ++ [x] -> m_id x = s_fiber_id g ->
  s_fiber_id g' = wrap64 (s_fiber_id g + 1) ->
  ids_ok g -> ids_ok g'.
Proof.
  intros Hh Hx Hc [Hcnt Hids]. split.
  - rewrite Hc, Hcnt, Hh, length_app. simpl.
    rewrite wrap64_succ. f_equal. lia.
  - intros a f. rewrite Hh. intros Ha.
    apply lookup_app_Some in Ha as [Ha | [Hge Ha]]; [by apply Hids|].
    destruct (a - length (heap g))%nat eqn:E; [|by destruct n].
    injection Ha as <-. rewrite Hx, Hcnt. f_equal. lia.
Qed.

(** Across a step of a thread the counter and the identities stay in
    agreement with the order of construction. *)
Lemma step_ids_ok hdr m o :
  step hdr m = Some o -> ids_ok (glob m) -> ids_ok (glob (final o)).
Proof.
  apply (step_preserves (fun m m' => ids_ok (glob m) -> ids_ok (glob m'))); auto.
  - intros m0 a f u H. by apply (ids_ok_set_fiber _ _ f).
  - intros hdr' cb stacksize ris m0. rewrite new_Fiber_eq. simpl.
    by eapply ids_ok_snoc.
  - intros hdr' m0. rewrite new_Fiber_main_eq. simpl. by eapply ids_ok_snoc.
  - intros this m0 f s H. by apply (ids_ok_set_fiber _ _ f).
  - intros this m0 f cb H. by apply (ids_ok_set_fiber _ _ f).
Qed.

(** Across a step of a thread every object keeps its identity. *)
Lemma step_id_kept hdr m o :
  step hdr m = Some o -> heap_rel id_kept m (final o).
Proof.
  apply heap_rel_step; unfold id_kept; try done.
  intros a f1 f2 f3 H12 H23. congruence.
Qed.

Lemma sys_step_inv hdr i s s' :
  sys_step hdr i s = Some s' ->
  exists t m',
    sys_threads s !! i = Some t /\
    step hdr (mkMachine (sys_glob s) t) = Some (Ret tt m') /\
    sys_glob s' = glob m'.
Proof.
  unfold sys_step. destruct (sys_threads s !! i) as [t|]; [|done].
  destruct (step hdr _) as [[[] m'|]|] eqn:E; try done.
  intros [= <-]. by exists t, m'.
Qed.

Lemma sys_step_ids_ok hdr i s s' :
  sys_step hdr i s = Some s' -> ids_ok (sys_glob s) -> ids_ok (sys_glob s').
Proof.
  intros H Hok. destruct (sys_step_inv _ _ _ _ H) as (t & m' & _ & Hstep & ->).
  by apply (step_ids_ok _ _ _ Hstep).
Qed.

Lemma sys_run_ids_ok hdr sched s s' :
  sys_run hdr sched s = Some s' -> ids_ok (sys_glob s) -> ids_ok (sys_glob s').
Proof.
  revert s. induction sched as [|i sched IH]; intros s; simpl.
  - by intros [= <-].
  - destruct (sys_step hdr i s) as [s1|] eqn:E; [|done].
    intros Hrun Hok. apply (IH _ Hrun). by apply (sys_step_ids_ok _ _ _ _ E).
Qed.

Lemma wrap64_small z : 0 <= z < 2 ^ 64 -> wrap64 z = z.
Proof. intros H. unfold wrap64. by apply Z.mod_small. Qed.

(** ** Whole activations *)

Lemma run_halted hdr n m : step hdr m = None -> run hdr n m = Ret tt m.
Proof. intros H. destruct n; simpl; [done|]. by rewrite H. Qed.

Lemma run_step hdr n m m' :
  step hdr m = Some (Ret tt m') -> run hdr (S n) m = run hdr n m'.
Proof. intros H. simpl. by rewrite H. Qed.

Lemma run_add hdr n p m :
  run hdr (n + p) m =
    match run hdr n m with
    | Ret _ m' => run hdr p m'
    | Fault e m' => Fault e m'
    end.
Proof.
  revert m. induction n as [|n IH]; intros m; simpl; [done|].
  destruct (step hdr m) as [[[] m'|e m']|] eqn:E; [apply IH | done |].
  symmetry. by apply run_halted.
Qed.

Lemma step_cmd hdr m c k :
  pc (thr m) = ICmd c :: k ->
  step hdr m = Some (exec_cmd hdr c (on_thr (with_cpu (sp (thr m)) k) m)).
Proof. intros H. unfold step. by rewrite H. Qed.

Lemma exec_quiet hdr m a f c :
  t_fiber (thr m) = Some a -> fiber_at m a = Some f -> quiet c = true ->
  exec_cmd hdr c m = Ret tt m.
Proof.
  intros Ht Hf Hq. destruct c; try done; simpl.
  - by erewrite bind_Ret by (eapply GetThis_Some; eassumption).
  - unfold GetFiberId, gets, deref, mbind, M_bind, mret, M_ret. by rewrite Ht, Hf.
Qed.

Lemma run_quiet hdr qs : forall m k a f,
  forallb quiet qs = true -> pc (thr m) = map ICmd qs ++ k ->
  t_fiber (thr m) = Some a -> fiber_at m a = Some f ->
  run hdr (length qs) m = Ret tt (on_thr (with_cpu (sp (thr m)) k) m).
Proof.
  induction qs as [|q qs IH]; intros m k a f Hq Hpc Ht Hf; simpl in *.
  - rewrite <- Hpc. by rewrite on_thr_same_cpu.
  - apply andb_prop in Hq as [Hq Hqs].
    rewrite (step_cmd _ _ _ _ Hpc).
    erewrite exec_quiet by (simpl; eassumption).
    by erewrite IH by (simpl; eauto).
Qed.

(** The end of the trampoline, the counterpart being another live fiber
    whose context can be taken up. *)
Lemma MainFunc_after_returns m curr f c fc s k :
  fiber_at m curr = Some f -> counterpart f (thr m) = Some c -> c <> curr ->
  fiber_at m c = Some fc -> resumption (m_ctx fc) = Some (s, k) ->
  MainFunc_after curr m =
    Ret tt (on_thr (with_cpu s k) (on_thr (with_t_fiber (Some c))
              (set_fiber curr (save_ctx m (with_state TERM (with_cb None f))) m))).
Proof.
  intros H Hc Hne Hfc Hr. rewrite (MainFunc_after_eq _ _ _ H).
  set (f1 := with_state TERM (with_cb None f)). set (m1 := set_fiber curr f1 m).
  assert (H1 : fiber_at m1 curr = Some f1) by (eapply fiber_at_set_fiber_eq, H).
  rewrite (yield_not_READY m1 curr f1 H1) by done.
  change (counterpart f1 (thr m1)) with (counterpart f (thr m)). rewrite Hc.
  unfold m1 at 2. rewrite set_fiber_set_fiber.
  eapply take_up_resumption; [|exact Hr].
  rewrite fiber_at_on_thr, fiber_at_set_fiber_ne by done. exact Hfc.
Qed.

(** [yield] on a RUNNING fiber, the counterpart being another live fiber
    whose context can be taken up. *)
Lemma yield_returns m this self c fc s k :
  fiber_at m this = Some self -> m_state self = RUNNING ->
  counterpart self (thr m) = Some c -> c <> this ->
  fiber_at m c = Some fc -> resumption (m_ctx fc) = Some (s, k) ->
  yield this m =
    Ret tt (on_thr (with_cpu s k) (on_thr (with_t_fiber (Some c))
              (set_fiber this (save_ctx m (with_state READY self)) m))).
Proof.
  intros H Hs Hc Hne Hfc Hr.
  rewrite (yield_not_READY _ _ _ H) by congruence. rewrite Hc.
  unfold yielded. rewrite Hs.
  eapply take_up_resumption; [|exact Hr].
  rewrite fiber_at_on_thr, fiber_at_set_fiber_ne by done. exact Hfc.
Qed.

(** Looking up an object past writes to other objects. *)
Ltac skip_writes :=
  repeat first [ rewrite fiber_at_on_thr
               | rewrite fiber_at_set_fiber_ne by done ].

(** A step that resumes a READY fiber, the counterpart being another live
    fiber. *)
Lemma step_resume hdr m this self c fc s' k' k :
  pc (thr m) = ICmd (CResume this) :: k ->
  fiber_at m this = Some self -> m_state self = READY ->
  counterpart self (thr m) = Some c -> c <> this -> fiber_at m c = Some fc ->
  resumption (m_ctx self) = Some (s', k') ->
  step hdr m =
    Some (Ret tt
      (on_thr (with_cpu s' k')
         (set_fiber c (with_ctx (with_mcontext (McSaved (sp (thr m)) k) (m_ctx fc)) fc)
            (on_thr (with_t_fiber (Some this))
               (set_fiber this (with_state RUNNING self) m))))).
Proof.
  intros Hpc H Hs Hc Hne Hfc Hr. rewrite (step_cmd _ _ _ _ Hpc). simpl.
  erewrite resume_enters by (simpl; eassumption). reflexivity.
Qed.

(** A step that yields the current, RUNNING fiber. *)
Lemma step_yield_this hdr m this self c fc s k rest :
  pc (thr m) = ICmd CYieldThis :: rest -> t_fiber (thr m) = Some this ->
  fiber_at m this = Some self -> m_state self = RUNNING ->
  counterpart self (thr m) = Some c -> c <> this ->
  fiber_at m c = Some fc -> resumption (m_ctx fc) = Some (s, k) ->
  step hdr m =
    Some (Ret tt
      (on_thr (with_cpu s k) (on_thr (with_t_fiber (Some c))
         (set_fiber this
            (with_ctx (with_mcontext (McSaved (sp (thr m)) rest) (m_ctx self))
               (with_state READY self)) m)))).
Proof.
  intros Hpc Ht H Hs Hc Hne Hfc Hr. rewrite (step_cmd _ _ _ _ Hpc). simpl.
  erewrite bind_Ret by (eapply GetThis_Some; simpl; eassumption).
  erewrite yield_returns by (simpl; eassumption). reflexivity.
Qed.

(** The rest of an activation: the calls left in the closure, of [GetThis]
    and [GetFiberId] only, then the end of the trampoline. *)
Lemma run_to_end hdr m this f c fc s k q k' :
  pc (thr m) = map ICmd q ++ IMainFuncAfter this :: k' ->
  forallb quiet q = true -> t_fiber (thr m) = Some this ->
  fiber_at m this = Some f -> counterpart f (thr m) = Some c -> c <> this ->
  fiber_at m c = Some fc -> resumption (m_ctx fc) = Some (s, k) ->
  run hdr (length q + 1) m =
    Ret tt
      (on_thr (with_cpu s k) (on_thr (with_t_fiber (Some c))
         (set_fiber this
            (with_ctx (with_mcontext (McSaved (sp (thr m)) k') (m_ctx f))
               (with_state TERM (with_cb None f))) m))).
Proof.
  intros Hpc Hq Ht H Hc Hne Hfc Hr.
  rewrite run_add, (run_quiet _ _ _ _ _ _ Hq Hpc Ht H).
  erewrite run_step; [reflexivity|]. unfold step. simpl.
  erewrite MainFunc_after_returns by (simpl; eassumption). reflexivity.
Qed.

(** The first activation of a fiber whose closure, after calls of
    [GetThis] and [GetFiberId] only, yields. *)
Lemma first_activation hdr m this self c fc b q rest k :
  pc (thr m) = ICmd (CResume this) :: k ->
  fiber_at m this = Some self -> m_state self = READY ->
  uc_mcontext (m_ctx self) = McEntry -> ss_sp (m_ctx self) = Some b ->
  m_cb self = Some (q ++ CYieldThis :: rest) -> forallb quiet q = true ->
  counterpart self (thr m) = Some c -> c <> this -> fiber_at m c = Some fc ->
  exists my,
    run hdr (length q + 3) m = Ret tt my /\
    thr my = mkThread (Some c) (t_thread_fiber (thr m)) (t_scheduler_fiber (thr m))
               (sp (thr m)) k /\
    fiber_at my this =
      Some (with_ctx (with_mcontext
                        (McSaved (Block b) (map ICmd rest ++ [IMainFuncAfter this]))
                        (m_ctx self))
              (with_state READY self)) /\
    fiber_at my c =
      Some (with_ctx (with_mcontext (McSaved (sp (thr m)) k) (m_ctx fc)) fc) /\
    (forall a, a <> this -> a <> c -> fiber_at my a = fiber_at m a) /\
    length (heap (glob my)) = length (heap (glob m)) /\
    blocks (glob my) = blocks (glob m).
Proof.
  intros Hpc H Hs Hentry Hb Hcb Hq Hc Hne Hfc.
  assert (Hr : resumption (m_ctx self) = Some (Block b, [IMainFunc])).
  { unfold resumption. by rewrite Hentry, Hb. }
  pose proof (step_resume hdr _ _ _ _ _ _ _ _ Hpc H Hs Hc Hne Hfc Hr) as Hstep1.
  set (m1 := on_thr _ _) in Hstep1.
  assert (H1 : fiber_at m1 this = Some (with_state RUNNING self)).
  { unfold m1. skip_writes. eapply fiber_at_set_fiber_eq, H. }
  assert (Hstep2 := step_MainFunc hdr m1 (Block b) this _ _ eq_refl eq_refl eq_refl H1 Hcb).
  set (m2 := on_thr _ m1) in Hstep2.
  assert (Hpc2 : pc (thr m2) =
            map ICmd q ++ ICmd CYieldThis :: map ICmd rest ++ [IMainFuncAfter this]).
  { unfold m2; simpl. by rewrite map_app, <- app_assoc. }
  assert (Hq2 := run_quiet hdr q m2 _ this _ Hq Hpc2 eq_refl H1).
  set (m3 := on_thr _ m2) in Hq2.
  assert (Hc3 : fiber_at m3 c =
            Some (with_ctx (with_mcontext (McSaved (sp (thr m)) k) (m_ctx fc)) fc)).
  { unfold m3, m2, m1. rewrite !fiber_at_on_thr. eapply fiber_at_set_fiber_eq.
    skip_writes. exact Hfc. }
  assert (Hstep4 := step_yield_this hdr m3 this _ c _ (sp (thr m)) k _ eq_refl eq_refl
                      H1 eq_refl Hc Hne Hc3 eq_refl).
  set (my := on_thr _ _) in Hstep4.
  exists my. split.
  { replace (length q + 3)%nat with (S (S (length q + 1))) by lia.
    rewrite (run_step _ _ _ _ Hstep1), (run_step _ _ _ _ Hstep2), run_add, Hq2.
    by rewrite (run_step _ _ _ _ Hstep4). }
  split; [reflexivity|]. split; [|split; [|split; [|split]]].
  - unfold my. rewrite !fiber_at_on_thr. eapply fiber_at_set_fiber_eq, H1.
  - unfold my. skip_writes. exact Hc3.
  - intros a Ha Hac. unfold my, m3, m2, m1. by skip_writes.
  - unfold my, m3, m2, m1; simpl. by rewrite !length_insert.
  - reflexivity.
Qed.

(** A READY fiber that has yielded is resumed, and what is left of its
    closure is calls of [GetThis] and [GetFiberId] only. *)
Lemma resumed_to_end hdr m this self c fc s' q k' k :
  pc (thr m) = ICmd (CResume this) :: k ->
  fiber_at m this = Some self -> m_state self = READY ->
  uc_mcontext (m_ctx self) = McSaved s' (map ICmd q ++ IMainFuncAfter this :: k') ->
  forallb quiet q = true ->
  counterpart self (thr m) = Some c -> c <> this -> fiber_at m c = Some fc ->
  exists mf,
    run hdr (length q + 2) m = Ret tt mf /\
    thr mf = mkThread (Some c) (t_thread_fiber (thr m)) (t_scheduler_fiber (thr m))
               (sp (thr m)) k /\
    fiber_at mf this =
      Some (with_ctx (with_mcontext (McSaved s' k') (m_ctx self))
              (with_state TERM (with_cb None self))) /\
    (forall a, a <> this -> a <> c -> fiber_at mf a = fiber_at m a) /\
    length (heap (glob mf)) = length (heap (glob m)) /\
    blocks (glob mf) = blocks (glob m).
Proof.
  intros Hpc H Hs Hsaved Hq Hc Hne Hfc.
  assert (Hr : resumption (m_ctx self) =
            Some (s', map ICmd q ++ IMainFuncAfter this :: k')).
  { unfold resumption. by rewrite Hsaved. }
  pose proof (step_resume hdr _ _ _ _ _ _ _ _ Hpc H Hs Hc Hne Hfc Hr) as Hstep1.
  set (m1 := on_thr _ _) in Hstep1.
  assert (H1 : fiber_at m1 this = Some (with_state RUNNING self)).
  { unfold m1. skip_writes. eapply fiber_at_set_fiber_eq, H. }
  assert (Hc1 : fiber_at m1 c =
            Some (with_ctx (with_mcontext (McSaved (sp (thr m)) k) (m_ctx fc)) fc)).
  { unfold m1. rewrite !fiber_at_on_thr. eapply fiber_at_set_fiber_eq.
    skip_writes. exact Hfc. }
  assert (Hend := run_to_end hdr m1 this _ c _ (sp (thr m)) k q k' eq_refl Hq eq_refl
                    H1 Hc Hne Hc1 eq_refl).
  set (mf := on_thr _ _) in Hend.
  exists mf. split.
  { replace (length q + 2)%nat with (S (length q + 1)) by lia.
    by rewrite (run_step _ _ _ _ Hstep1). }
  split; [reflexivity|]. split; [|split; [|split]].
  - unfold mf. rewrite !fiber_at_on_thr.
    by rewrite (fiber_at_set_fiber_eq _ _ _ _ H1).
  - intros a Ha Hac. unfold mf, m1. by skip_writes.
  - unfold mf, m1; simpl. by rewrite !length_insert.
  - reflexivity.
Qed.

(** [yield] and [resume] on a fiber that is its own counterpart:
    [swapcontext] saves into the context it then takes up. *)
Lemma yield_own_counterpart m this self :
  fiber_at m this = Some self -> m_state self <> READY ->
  counterpart self (thr m) = Some this ->
  yield this m =
    Ret tt (on_thr (with_cpu (sp (thr m)) (pc (thr m)))
              (on_thr (with_t_fiber (Some this))
                 (set_fiber this (save_ctx m (yielded self)) m))).
Proof.
  intros H Hs Hc. rewrite (yield_not_READY _ _ _ H Hs), Hc.
  eapply take_up_resumption.
  - rewrite fiber_at_on_thr. eapply fiber_at_set_fiber_eq, H.
  - reflexivity.
Qed.

Lemma resume_own_counterpart m this self :
  fiber_at m this = Some self -> m_state self = READY ->
  counterpart self (thr m) = Some this ->
  resume this m =
    Ret tt (on_thr (with_cpu (sp (thr m)) (pc (thr m)))
              (set_fiber this (save_ctx m (with_state RUNNING self))
                 (on_thr (with_t_fiber (Some this)) m))).
Proof.
  intros H Hs Hc. rewrite (resume_READY _ _ _ H Hs), Hc.
  set (m1 := on_thr _ (set_fiber this _ m)).
  assert (H1 : fiber_at m1 this = Some (with_state RUNNING self)).
  { unfold m1. rewrite fiber_at_on_thr. eapply fiber_at_set_fiber_eq, H. }
  rewrite (swapcontext_Some _ _ _ _ H1).
  erewrite take_up_resumption;
    [|eapply fiber_at_set_fiber_eq, H1 | reflexivity].
  unfold m1. by rewrite set_fiber_on_thr, set_fiber_set_fiber.
Qed.

(** ** The claims *)

(** *** C1 *)

(** C1, counterexample.  The thread fiber resumes fiber 1: while the
    closure of fiber 1 runs on its own stack, the thread fiber is RUNNING
    (not READY) and so is fiber 1.  Where the closure of fiber 1 resumes
    fiber 2 in turn, three fibers are RUNNING while fiber 2 runs.  So it is
    not so that at most one fiber is RUNNING in every state a thread
    reaches. *)
Lemma two_fibers_running :
  run hdr0 4 (machine0 (prog_AB [CGetFiberId] false)) = Ret tt m_in_B /\
  sp (thr m_in_B) = Block 0 /\
  pc (thr m_in_B) = [ICmd CGetFiberId; IMainFuncAfter 1%nat] /\
  t_fiber (thr m_in_B) = Some 1%nat /\
  state_of m_in_B 0%nat = Some RUNNING /\
  state_of m_in_B 1%nat = Some RUNNING /\
  running m_in_B = 2%nat /\
  run hdr0 7 (machine0 prog_nested) = Ret tt m_nested /\
  sp (thr m_nested) = Block 1 /\
  t_fiber (thr m_nested) = Some 2%nat /\
  running m_nested = 3%nat /\
  ~ single_running hdr0.
Proof.
  do 11 (split; [vm_compute; reflexivity|]).
  intros H. specialize (H (prog_AB [CGetFiberId] false) 4%nat).
  vm_compute in H. lia.
Qed.

(** C1, amended.  [resume] and [yield] write the state of the fiber they
    are called on and of no other: [resume] on a READY fiber makes it
    RUNNING and leaves the fiber that resumes it in the state it has, so
    the number of RUNNING fibers goes up by one; [yield] on a RUNNING fiber
    makes it READY and the number goes down by one; [yield] on a TERM fiber
    changes no state. *)
Theorem resume_yield_running m this self :
  fiber_at m this = Some self ->
  (m_state self = READY ->
     state_of (final (resume this m)) this = Some RUNNING /\
     (forall a, a <> this -> state_of (final (resume this m)) a = state_of m a) /\
     running (final (resume this m)) = S (running m)) /\
  (m_state self = RUNNING ->
     state_of (final (yield this m)) this = Some READY /\
     (forall a, a <> this -> state_of (final (yield this m)) a = state_of m a) /\
     S (running (final (yield this m))) = running m) /\
  (m_state self = TERM ->
     (forall a, state_of (final (yield this m)) a = state_of m a) /\
     running (final (yield this m)) = running m).
Proof.
  intros H. split; [|split]; intros Hs.
  - split; [|split].
    + rewrite (resume_state_of _ _ _ _ H Hs). by rewrite decide_True.
    + intros a Ha. rewrite (resume_state_of _ _ _ _ H Hs). by rewrite decide_False.
    + by apply (running_resume _ _ _ H).
  - assert (Hn : m_state self <> READY) by congruence. split; [|split].
    + rewrite (yield_state_of _ _ _ _ H Hn), decide_True by done.
      unfold yielded. by rewrite Hs.
    + intros a Ha. rewrite (yield_state_of _ _ _ _ H Hn). by rewrite decide_False.
    + pose proof (running_yield _ _ _ H Hn) as E. unfold is_running in E.
      rewrite Hs in E. simpl in E. lia.
  - assert (Hn : m_state self <> READY) by congruence. split.
    + intros a. rewrite (yield_state_of _ _ _ _ H Hn).
      destruct (decide (this = a)) as [<-|]; [|done].
      unfold yielded, state_of. rewrite Hs, H. simpl. congruence.
    + pose proof (running_yield _ _ _ H Hn) as E. unfold is_running in E.
      rewrite Hs in E. simpl in E. lia.
Qed.

(** On the scenario: the thread fiber resumes fiber 1, and fiber 1 yields. *)
Lemma resume_yield_running_witness :
  fiber_at m_before_resume 1%nat = Some f_B_ready /\
  running (final (resume 1%nat m_before_resume)) = S (running m_before_resume) /\
  state_of (final (resume 1%nat m_before_resume)) 0%nat = state_of m_before_resume 0%nat /\
  S (running (final (yield 1%nat m_in_B))) = running m_in_B.
Proof.
  split; [reflexivity|].
  destruct (resume_yield_running m_before_resume 1%nat f_B_ready eq_refl) as (Hr & _ & _).
  destruct (Hr eq_refl) as (_ & Hothers & Hcount).
  destruct (resume_yield_running m_in_B 1%nat f_B eq_refl) as (_ & Hy & _).
  destruct (Hy eq_refl) as (_ & _ & Hdown).
  split; [exact Hcount|]. split; [|exact Hdown].
  apply Hothers. lia.
Defined.

(** *** C2 *)




(** *** C3 *)

(** C3, counterexample.  Fiber 1 is resumed and its trampoline calls the
    closure: the body of the closure is what the thread runs next, and
    [m_cb] of the fiber still holds the closure. *)
Lemma closure_held_while_running :
  run hdr0 3 (machine0 (prog_AB [CGetFiberId] false)) =
    Ret tt (on_thr (with_cpu (Block 0) [IMainFunc]) m_in_B) /\
  step hdr0 (on_thr (with_cpu (Block 0) [IMainFunc]) m_in_B) = Some (Ret tt m_in_B) /\
  pc (thr m_in_B) = [ICmd CGetFiberId; IMainFuncAfter 1%nat] /\
  t_fiber (thr m_in_B) = Some 1%nat /\
  fiber_at m_in_B 1%nat = Some f_B /\
  m_cb f_B = Some [CGetFiberId] /\
  ~ cleared_at_start hdr0.
Proof.
  do 6 (split; [vm_compute; reflexivity|]).
  intros H.
  specialize (H (prog_AB [CGetFiberId] false) 3%nat
                (on_thr (with_cpu (Block 0) [IMainFunc]) m_in_B) [] m_in_B 1%nat f_B).
  discriminate H; vm_compute; reflexivity.
Qed.

(** C3, amended.  The call of the closure by the trampoline leaves the
    memory as it is, [m_cb] included; [resume] and [yield], on whatever
    fiber, leave [m_cb] of every fiber as it is; the closure is cleared,
    and the state set to TERM, by the part of the trampoline that follows
    the return of the closure. *)
Theorem closure_cleared_on_return hdr m a self :
  fiber_at m a = Some self ->
  (forall body,
     t_fiber (thr m) = Some a -> m_cb self = Some body ->
     MainFunc hdr m =
       Ret tt (on_thr (with_cpu (sp (thr m))
                         (map ICmd body ++ IMainFuncAfter a :: pc (thr m))) m)) /\
  (forall g,
     (exists self', fiber_at (final (resume g m)) a = Some self' /\ m_cb self' = m_cb self) /\
     (exists self', fiber_at (final (yield g m)) a = Some self' /\ m_cb self' = m_cb self)) /\
  (exists self',
     fiber_at (final (MainFunc_after a m)) a = Some self' /\
     m_cb self' = None /\ m_state self' = TERM).
Proof.
  intros H. split; [|split].
  - intros body Ht Hcb. rewrite (MainFunc_eq _ _ _ _ Ht H), Hcb. reflexivity.
  - intros g. split.
    + destruct (resume_touches g m a self H) as (f' & Hf' & Hsame & _).
      exists f'. split; [done|]. by apply same_fields_cb.
    + destruct (yield_touches g m a self H) as (f' & Hf' & Hsame & _).
      exists f'. split; [done|]. by apply same_fields_cb.
  - rewrite (MainFunc_after_eq _ _ _ H).
    set (m1 := set_fiber a _ m).
    assert (H1 : fiber_at m1 a = Some (with_state TERM (with_cb None self)))
      by (eapply fiber_at_set_fiber_eq, H).
    eexists. split.
    + rewrite (yield_fiber_at _ _ _ _ H1) by done. by rewrite decide_True.
    + done.
Qed.

(** On the scenario: the closure of fiber 1 is started, kept across a
    [yield], and cleared when it has returned. *)
Lemma closure_cleared_on_return_witness :
  fiber_at m_in_B 1%nat = Some f_B /\
  MainFunc hdr0 (on_thr (with_cpu (Block 0) []) m_in_B) = Ret tt m_in_B /\
  (exists self', fiber_at (final (yield 1%nat m_in_B)) 1%nat = Some self' /\
     m_cb self' = Some [CGetFiberId]) /\
  (exists self', fiber_at (final (MainFunc_after 1%nat m_in_B)) 1%nat = Some self' /\
     m_cb self' = None /\ m_state self' = TERM).
Proof.
  split; [reflexivity|].
  destruct (closure_cleared_on_return hdr0 (on_thr (with_cpu (Block 0) []) m_in_B)
              1%nat f_B eq_refl) as (Hstart & _ & _).
  destruct (closure_cleared_on_return hdr0 m_in_B 1%nat f_B eq_refl)
    as (_ & Hkeep & Hdone).
  split; [exact (Hstart [CGetFiberId] eq_refl eq_refl)|].
  split; [exact (proj2 (Hkeep 1%nat)) | exact Hdone].
Defined.

(** *** C4 *)

(** C4. [resume] on a fiber that is not READY fails its assertion.  On a
    READY fiber it leaves the fiber RUNNING and recorded as the current
    fiber of the thread, in every outcome; and where the counterpart is
    another live fiber and the fiber is at its entry, the call switches to
    the trampoline, whose first step starts the body of the closure with
    the fiber RUNNING and [GetThis] returning it. *)
Theorem resume_runs hdr m this self :
  fiber_at m this = Some self ->
  (m_state self <> READY -> resume this m = Fault AssertionFailed m) /\
  (m_state self = READY ->
     state_of (final (resume this m)) this = Some RUNNING /\
     t_fiber (thr (final (resume this m))) = Some this /\
     forall c fc b body,
       counterpart self (thr m) = Some c -> c <> this -> fiber_at m c = Some fc ->
       uc_mcontext (m_ctx self) = McEntry -> ss_sp (m_ctx self) = Some b ->
       m_cb self = Some body ->
       exists m1 m2,
         resume this m = Ret tt m1 /\
         sp (thr m1) = Block b /\ pc (thr m1) = [IMainFunc] /\
         step hdr m1 = Some (Ret tt m2) /\
         sp (thr m2) = Block b /\
         pc (thr m2) = map ICmd body ++ [IMainFuncAfter this] /\
         state_of m2 this = Some RUNNING /\
         GetThis hdr m2 = Ret this m2).
Proof.
  intros H. split; [by apply resume_not_READY|].
  intros Hs. split; [|split].
  - rewrite (resume_state_of _ _ _ _ H Hs). by rewrite decide_True.
  - by apply (resume_t_fiber _ _ _ H Hs).
  - intros c fc b body Hc Hne Hfc Hentry Hb Hcb.
    destruct (resume_starts_closure hdr _ _ _ _ _ _ _ H Hs Hc Hne Hfc Hentry Hb Hcb)
      as (m1 & m2 & Hr & Hsp1 & Hpc1 & Hstep & Hsp & Hpc & Hst & _ & Hget).
    by exists m1, m2.
Qed.

(** On the scenario: the first [resume] of fiber 1 starts its closure; a
    second one, while it is RUNNING, fails. *)
Lemma resume_runs_witness :
  fiber_at m_before_resume 1%nat = Some f_B_ready /\
  m_state f_B_ready = READY /\
  (exists m1 m2,
     resume 1%nat m_before_resume = Ret tt m1 /\
     step hdr0 m1 = Some (Ret tt m2) /\
     pc (thr m2) = map ICmd [CGetFiberId] ++ [IMainFuncAfter 1%nat] /\
     state_of m2 1%nat = Some RUNNING /\
     GetThis hdr0 m2 = Ret 1%nat m2) /\
  resume 1%nat m_in_B = Fault AssertionFailed m_in_B.
Proof.
  split; [reflexivity|]. split; [reflexivity|].
  destruct (resume_runs hdr0 m_before_resume 1%nat f_B_ready eq_refl) as (_ & Hgo).
  destruct (Hgo eq_refl) as (_ & _ & Henter).
  destruct (resume_runs hdr0 m_in_B 1%nat f_B eq_refl) as (Hbad & _).
  split.
  - destruct (Henter 0%nat (with_ctx uc_raw f_A) 0%nat [CGetFiberId] eq_refl)
      as (m1 & m2 & H1 & _ & _ & H2 & _ & H3 & H4 & H5);
      [lia | reflexivity | reflexivity | reflexivity | reflexivity |].
    exists m1, m2. auto.
  - apply Hbad. discriminate.
Defined.

(** *** C5 *)

(** C5. [yield] asserts that the state of the fiber is RUNNING or TERM: on
    a READY fiber the call fails its assertion, and that is the only way it
    does.  A RUNNING fiber is READY after the call and a TERM fiber is
    still TERM, whether the switch that follows goes through or faults. *)
Theorem yield_state m this self :
  fiber_at m this = Some self ->
  (m_state self = READY -> yield this m = Fault AssertionFailed m) /\
  (m_state self <> READY -> forall e m', yield this m = Fault e m' -> e <> AssertionFailed) /\
  (m_state self = RUNNING -> state_of (final (yield this m)) this = Some READY) /\
  (m_state self = TERM -> state_of (final (yield this m)) this = Some TERM).
Proof.
  intros H. repeat split.
  - by apply yield_READY.
  - intros Hs e m'. rewrite (yield_not_READY _ _ _ H Hs). apply take_up_no_assert.
  - intros Hs. rewrite (yield_state_of _ _ _ _ H) by congruence.
    rewrite decide_True by done. unfold yielded. by rewrite Hs.
  - intros Hs. rewrite (yield_state_of _ _ _ _ H) by congruence.
    rewrite decide_True by done. unfold yielded. rewrite Hs. congruence.
Qed.

(** On the scenario: [yield] on fiber 1 while RUNNING, once TERM, and while
    READY. *)
Lemma yield_state_witness :
  fiber_at m_in_B 1%nat = Some f_B /\
  state_of (final (yield 1%nat m_in_B)) 1%nat = Some READY /\
  state_of (final (yield 1%nat m_B_done)) 1%nat = Some TERM /\
  yield 1%nat m_before_resume = Fault AssertionFailed m_before_resume.
Proof.
  split; [reflexivity|].
  destruct (yield_state m_in_B 1%nat f_B eq_refl) as (_ & _ & Hrunning & _).
  destruct (yield_state m_B_done 1%nat f_B_done eq_refl) as (_ & _ & _ & Hterm).
  destruct (yield_state m_before_resume 1%nat f_B_ready eq_refl) as (Hready & _).
  split; [exact (Hrunning eq_refl)|]. split; [exact (Hterm eq_refl) | exact (Hready eq_refl)].
Defined.

(** *** C6 *)

(** C6. [reset] fails its assertion unless the fiber is TERM and has a
    stack block.  Otherwise it returns with the fiber READY, the new
    closure stored, [m_stack] and [m_stacksize] as they were, the context
    at the entry of the trampoline on that same block, and no block
    allocated; a [resume] that follows (the counterpart being another live
    fiber) enters the trampoline on that block, and its first step starts
    the new closure. *)
Theorem reset_reuses_stack hdr m this self cb :
  fiber_at m this = Some self ->
  (m_state self <> TERM \/ m_stack self = None ->
     reset this cb m = Fault AssertionFailed m) /\
  (forall b, m_state self = TERM -> m_stack self = Some b ->
     exists m' self',
       reset this cb m = Ret tt m' /\ fiber_at m' this = Some self' /\
       m_state self' = READY /\ m_cb self' = Some cb /\
       m_stack self' = Some b /\ m_stacksize self' = m_stacksize self /\
       ss_sp (m_ctx self') = Some b /\ ss_size (m_ctx self') = m_stacksize self /\
       uc_mcontext (m_ctx self') = McEntry /\
       blocks (glob m') = blocks (glob m) /\
       (forall a, a <> this -> fiber_at m' a = fiber_at m a) /\
       forall c fc,
         counterpart self' (thr m') = Some c -> c <> this -> fiber_at m' c = Some fc ->
         exists m1 m2,
           resume this m' = Ret tt m1 /\ step hdr m1 = Some (Ret tt m2) /\
           sp (thr m2) = Block b /\
           pc (thr m2) = map ICmd cb ++ [IMainFuncAfter this]).
Proof.
  intros H. split.
  - intros Hbad. rewrite (reset_eq _ _ _ _ H).
    destruct Hbad as [Hs | Hk].
    + destruct (m_state self); try congruence; by rewrite andb_false_r.
    + rewrite Hk. by rewrite bool_decide_false by auto.
  - intros b Hs Hk.
    set (self' := with_ctx (entry_ctx self) (with_cb (Some cb) (with_state READY self))).
    assert (Hre : reset this cb m = Ret tt (set_fiber this self' m)).
    { rewrite (reset_eq _ _ _ _ H), Hs, Hk. by rewrite bool_decide_true by done. }
    assert (Hself' : fiber_at (set_fiber this self' m) this = Some self')
      by (eapply fiber_at_set_fiber_eq, H).
    exists (set_fiber this self' m), self'.
    repeat (split; [first [exact Hre | exact Hself' | exact Hk | reflexivity]|]).
    split; [intros a Ha; by apply fiber_at_set_fiber_ne|].
    intros c fc Hc Hne Hfc.
    destruct (resume_starts_closure hdr _ _ _ _ _ b cb Hself' eq_refl Hc Hne Hfc
                eq_refl Hk eq_refl)
      as (m1 & m2 & Hr & _ & _ & Hstep & Hsp & Hpc & _).
    by exists m1, m2.
Qed.

(** On the scenario: fiber 1, once TERM, is reset with a new closure and
    resumed; while RUNNING it cannot be reset. *)
Lemma reset_reuses_stack_witness :
  fiber_at m_B_done 1%nat = Some f_B_done /\
  m_state f_B_done = TERM /\ m_stack f_B_done = Some 0%nat /\
  (exists m' self',
     reset 1%nat [CGetThis] m_B_done = Ret tt m' /\ fiber_at m' 1%nat = Some self' /\
     m_state self' = READY /\ m_cb self' = Some [CGetThis] /\
     m_stack self' = Some 0%nat /\ blocks (glob m') = blocks (glob m_B_done) /\
     exists m1 m2,
       resume 1%nat m' = Ret tt m1 /\ step hdr0 m1 = Some (Ret tt m2) /\
       sp (thr m2) = Block 0 /\
       pc (thr m2) = map ICmd [CGetThis] ++ [IMainFuncAfter 1%nat]) /\
  reset 1%nat [CGetThis] m_in_B = Fault AssertionFailed m_in_B.
Proof.
  split; [reflexivity|]. split; [reflexivity|]. split; [reflexivity|].
  destruct (reset_reuses_stack hdr0 m_B_done 1%nat f_B_done [CGetThis] eq_refl)
    as (_ & Hok).
  destruct (reset_reuses_stack hdr0 m_in_B 1%nat f_B [CGetThis] eq_refl) as (Hbad & _).
  split.
  - destruct (Hok 0%nat eq_refl eq_refl)
      as (m' & self' & Hre & Hf & Hs & Hcb & Hk & _ & _ & _ & _ & Hb & _ & Hgo).
    pose proof Hre as Em. vm_compute in Em. injection Em as Em. subst m'.
    pose proof Hf as Ef. vm_compute in Ef. injection Ef as Ef. subst self'.
    destruct (Hgo 0%nat f_A eq_refl) as (m1 & m2 & H1 & H2 & H3 & H4);
      [lia | reflexivity |].
    eexists _, _. repeat (split; [eassumption|]). by exists m1, m2.
  - apply Hbad. left. discriminate.
Defined.

(** *** C7 *)

(** C7. [new Fiber(cb, stacksize, run_in_scheduler)] returns a new object
    in state READY.  Its stack is a new block; with [stacksize = 0] the
    block, [m_stacksize] and the size in the context are 128000, the
    default of the code, and otherwise they are [stacksize]. *)
Theorem create_ready hdr m cb stacksize ris :
  exists m' f b,
    new_Fiber hdr cb stacksize ris m = Ret (length (heap (glob m))) m' /\
    fiber_at m (length (heap (glob m))) = None /\
    fiber_at m' (length (heap (glob m))) = Some f /\
    m_state f = READY /\ m_cb f = Some cb /\ m_runInScheduler f = ris /\
    m_stack f = Some b /\ ss_sp (m_ctx f) = Some b /\
    blocks (glob m) !! b = None /\
    blocks (glob m') !! b = Some (m_stacksize f) /\
    ss_size (m_ctx f) = m_stacksize f /\
    uc_mcontext (m_ctx f) = McEntry /\
    (stacksize = 0 -> m_stacksize f = 128000) /\
    (stacksize <> 0 -> m_stacksize f = stacksize).
Proof.
  eexists _, (built_fiber (glob m) cb stacksize ris), (length (blocks (glob m))).
  split; [apply new_Fiber_eq|].
  split; [apply lookup_ge_None; unfold fiber_at; lia|].
  split; [unfold fiber_at; simpl; apply lookup_snoc_last|].
  repeat (split; [reflexivity|]).
  split; [apply lookup_ge_None; lia|].
  split; [simpl; apply lookup_snoc_last|].
  repeat (split; [reflexivity|]). simpl. split.
  - by intros ->.
  - intros Hne. apply Z.eqb_neq in Hne. by rewrite Hne.
Qed.

(** The constructor with [stacksize] 0 and with [stacksize] 4096. *)
Lemma create_ready_witness :
  (exists m' f, new_Fiber hdr0 [CGetFiberId] 0 false (machine0 []) = Ret 0%nat m' /\
     fiber_at m' 0%nat = Some f /\ m_state f = READY /\ m_stacksize f = 128000) /\
  (exists m' f, new_Fiber hdr0 [CGetFiberId] 4096 true (machine0 []) = Ret 0%nat m' /\
     fiber_at m' 0%nat = Some f /\ m_state f = READY /\ m_stacksize f = 4096).
Proof.
  split.
  - destruct (create_ready hdr0 (machine0 []) [CGetFiberId] 0 false)
      as (m' & f & b & H & _ & Hf & Hs & _ & _ & _ & _ & _ & _ & _ & _ & Hzero & _).
    exists m', f. repeat (split; [assumption|]). by apply Hzero.
  - destruct (create_ready hdr0 (machine0 []) [CGetFiberId] 4096 true)
      as (m' & f & b & H & _ & Hf & Hs & _ & _ & _ & _ & _ & _ & _ & _ & _ & Hsize).
    exists m', f. repeat (split; [assumption|]). by apply Hsize.
Defined.

(** *** C8 *)

(** C8. In every state that threads running any programs reach, in any
    interleaving: the fiber built [a]-th (from 0, thread fibers and worker
    fibers alike) has identity [a] modulo 2^64, and the one counter
    [s_fiber_id] is the number of fibers built, modulo 2^64; so, as long as
    no more than 2^64 fibers have been built (where the [uint64_t] counter
    wraps), identities are strictly increasing in the order of construction
    and pairwise distinct.  A further step of any thread leaves every
    object in place with the identity it has. *)
Theorem fiber_ids_increase hdr progs sched s :
  sys_run hdr sched (sys0 progs) = Some s ->
  (forall a f, heap (sys_glob s) !! a = Some f -> m_id f = wrap64 (Z.of_nat a)) /\
  s_fiber_id (sys_glob s) = wrap64 (Z.of_nat (length (heap (sys_glob s)))) /\
  (Z.of_nat (length (heap (sys_glob s))) <= 2 ^ 64 ->
   forall a b fa fb,
     heap (sys_glob s) !! a = Some fa -> heap (sys_glob s) !! b = Some fb ->
     m_id fa = Z.of_nat a /\
     ((a < b)%nat -> m_id fa < m_id fb) /\ (a <> b -> m_id fa <> m_id fb)) /\
  (forall i s' a f,
     sys_step hdr i s = Some s' -> heap (sys_glob s) !! a = Some f ->
     exists f', heap (sys_glob s') !! a = Some f' /\ m_id f' = m_id f).
Proof.
  intros Hrun.
  destruct (sys_run_ids_ok _ _ _ _ Hrun ids_ok_global0) as [Hcnt Hids].
  split; [exact Hids|]. split; [exact Hcnt|]. split.
  - intros Hlen.
    assert (Hid : forall a f, heap (sys_glob s) !! a = Some f -> m_id f = Z.of_nat a).
    { intros a f Ha. rewrite (Hids a f Ha). apply wrap64_small.
      apply lookup_lt_Some in Ha. lia. }
    intros a b fa fb Ha Hb. rewrite (Hid a fa Ha), (Hid b fb Hb).
    split; [done|]. split; lia.
  - intros i s' a f Hstep Ha.
    destruct (sys_step_inv _ _ _ _ Hstep) as (t & m' & _ & Hst & ->).
    exact (step_id_kept _ _ _ Hst a f Ha).
Qed.

(** On the scenario with two threads: five fibers, with identities 0 to 4. *)
Lemma fiber_ids_increase_witness :
  sys_run hdr0 interleaving (sys0 two_threads) = Some sys_example /\
  length (heap (sys_glob sys_example)) = 5%nat /\
  s_fiber_id (sys_glob sys_example) = 5 /\
  (forall a b fa fb,
     heap (sys_glob sys_example) !! a = Some fa ->
     heap (sys_glob sys_example) !! b = Some fb ->
     m_id fa = Z.of_nat a /\
     ((a < b)%nat -> m_id fa < m_id fb) /\ (a <> b -> m_id fa <> m_id fb)).
Proof.
  assert (Hrun : sys_run hdr0 interleaving (sys0 two_threads) = Some sys_example)
    by (vm_compute; reflexivity).
  assert (Hlen : Z.of_nat (length (heap (sys_glob sys_example))) <= 2 ^ 64)
    by (vm_compute; discriminate).
  destruct (fiber_ids_increase hdr0 two_threads interleaving sys_example Hrun)
    as (_ & Hcnt & Hincr & _).
  split; [exact Hrun|]. split; [reflexivity|]. split; [|exact (Hincr Hlen)].
  rewrite Hcnt. vm_compute. reflexivity.
Defined.

(** *** C9 *)

(** C9. The constructor of a worker fiber leaves the three thread-local
    pointers as they are.  [resume] on a READY fiber dereferences
    [t_thread_fiber] (or [t_scheduler_fiber], by the flag of the fiber) and
    faults on a null pointer when it is null, with the fiber already set
    RUNNING and recorded as current; so does the first [resume] of a
    thread that has only constructed the fiber.  After [GetThis] on such a
    thread both pointers refer to the thread fiber. *)
Theorem resume_needs_thread_fiber hdr :
  (forall m cb stacksize ris,
     thr (final (new_Fiber hdr cb stacksize ris m)) = thr m) /\
  (forall m this self,
     fiber_at m this = Some self -> m_state self = READY ->
     (m_runInScheduler self = false -> t_thread_fiber (thr m) = None ->
        exists m', resume this m = Fault NullPointer m' /\
                   state_of m' this = Some RUNNING /\ t_fiber (thr m') = Some this) /\
     (m_runInScheduler self = true -> t_scheduler_fiber (thr m) = None ->
        exists m', resume this m = Fault NullPointer m' /\
                   state_of m' this = Some RUNNING /\ t_fiber (thr m') = Some this)) /\
  (forall cb stacksize ris rest,
     exists m1 m2,
       run hdr 1 (machine0 (CCreate cb stacksize ris :: CResume 0%nat :: rest)) = Ret tt m1 /\
       state_of m1 0%nat = Some READY /\
       t_fiber (thr m1) = None /\ t_thread_fiber (thr m1) = None /\
       t_scheduler_fiber (thr m1) = None /\
       run hdr 2 (machine0 (CCreate cb stacksize ris :: CResume 0%nat :: rest)) =
         Fault NullPointer m2) /\
  (forall m, t_fiber (thr m) = None ->
     exists a m' f,
       GetThis hdr m = Ret a m' /\ fiber_at m' a = Some f /\
       t_fiber (thr m') = Some a /\
       t_thread_fiber (thr m') = Some a /\ t_scheduler_fiber (thr m') = Some a).
Proof.
  split; [|split; [|split]].
  - intros. by rewrite new_Fiber_eq.
  - intros m this self H Hs.
    assert (Hnull : counterpart self (thr m) = None ->
              exists m', resume this m = Fault NullPointer m' /\
                state_of m' this = Some RUNNING /\ t_fiber (thr m') = Some this).
    { intros Hc. eexists. split; [by apply resume_null_counterpart|]. split; [|done].
      unfold state_of. rewrite fiber_at_on_thr.
      by rewrite (fiber_at_set_fiber_eq _ _ _ _ H). }
    split; intros Hris Hp; apply Hnull; unfold counterpart; by rewrite Hris.
  - intros cb stacksize ris rest.
    exists (final (run hdr 1 (machine0 (CCreate cb stacksize ris :: CResume 0%nat :: rest)))),
           (final (run hdr 2 (machine0 (CCreate cb stacksize ris :: CResume 0%nat :: rest)))).
    destruct ris; repeat (apply conj); vm_compute; reflexivity.
  - intros m Ht. do 3 eexists. split; [by apply GetThis_None|].
    split; [unfold fiber_at; simpl; apply lookup_snoc_last|]. done.
Qed.

(** A thread that builds a fiber and resumes it at once, for both flags. *)
Lemma resume_needs_thread_fiber_witness :
  thr (final (new_Fiber hdr0 [] 0 false (machine0 [CResume 0%nat]))) =
    thread0 [CResume 0%nat] /\
  (exists m', resume 0%nat (final (new_Fiber hdr0 [] 0 false (machine0 []))) =
                Fault NullPointer m') /\
  (exists m', resume 0%nat (final (new_Fiber hdr0 [] 0 true (machine0 []))) =
                Fault NullPointer m').
Proof.
  destruct (resume_needs_thread_fiber hdr0) as (Hctor & Hnull & _ & _).
  split; [exact (Hctor (machine0 [CResume 0%nat]) [] 0 false)|]. split.
  - destruct (Hnull (final (new_Fiber hdr0 [] 0 false (machine0 []))) 0%nat
                (built_fiber global0 [] 0 false) eq_refl eq_refl) as (Hthread & _).
    destruct (Hthread eq_refl eq_refl) as (m' & H & _). by exists m'.
  - destruct (Hnull (final (new_Fiber hdr0 [] 0 true (machine0 []))) 0%nat
                (built_fiber global0 [] 0 true) eq_refl eq_refl) as (_ & Hsched).
    destruct (Hsched eq_refl eq_refl) as (m' & H & _). by exists m'.
Defined.

(** *** C10 *)

(** C10, counterexample.  The thread fiber is RUNNING when [GetThis] has
    built it, and a [yield] on it, here [GetThis()->yield()] called by the
    thread with the thread fiber current, leaves it READY.  After that
    [resume] on it passes its assertion and makes it RUNNING, a [yield]
    makes it READY once more, and a further [yield] fails the assertion.
    So it is not so that no operation changes the state of the thread
    fiber. *)
Lemma thread_fiber_made_ready :
  run hdr0 1 (machine0 prog_yield_main) = Ret tt m_main_built /\
  t_fiber (thr m_main_built) = Some 0%nat /\
  t_thread_fiber (thr m_main_built) = Some 0%nat /\
  state_of m_main_built 0%nat = Some RUNNING /\
  pc (thr m_main_built) =
    [ICmd CYieldThis; ICmd (CResume 0%nat); ICmd (CYield 0%nat); ICmd (CYield 0%nat)] /\
  run hdr0 2 (machine0 prog_yield_main) = Ret tt m_main_yielded /\
  t_thread_fiber (thr m_main_yielded) = Some 0%nat /\
  state_of m_main_yielded 0%nat = Some READY /\
  (exists m, run hdr0 3 (machine0 prog_yield_main) = Ret tt m /\
     state_of m 0%nat = Some RUNNING) /\
  (exists m, run hdr0 4 (machine0 prog_yield_main) = Ret tt m /\
     state_of m 0%nat = Some READY) /\
  (exists m, run hdr0 5 (machine0 prog_yield_main) = Fault AssertionFailed m) /\
  ~ thread_fiber_stays_running hdr0.
Proof.
  do 8 (split; [vm_compute; reflexivity|]).
  split; [|split; [|split]].
  - exists (final (run hdr0 3 (machine0 prog_yield_main))).
    split; vm_compute; reflexivity.
  - exists (final (run hdr0 4 (machine0 prog_yield_main))).
    split; vm_compute; reflexivity.
  - exists (final (run hdr0 5 (machine0 prog_yield_main))).
    vm_compute; reflexivity.
  - intros H.
    assert (Hrun : run hdr0 2 (machine0 prog_yield_main) = Ret tt m_main_yielded)
      by (vm_compute; reflexivity).
    specialize (H prog_yield_main 2%nat m_main_yielded 0%nat
                  (default (raw_fiber hdr0) (fiber_at m_main_yielded 0%nat))
                  Hrun eq_refl eq_refl).
    vm_compute in H. discriminate.
Qed.

(** C10, amended.  The thread fiber is RUNNING from its construction;
    [resume], [yield] and [reset] on another fiber leave its state, and
    [resume] and [reset] on it fail their assertions while it is RUNNING.
    [yield] on a fiber that is RUNNING or TERM behaves the same whatever
    [t_fiber] is; on a RUNNING fiber whose counterpart is another live
    fiber it goes through, makes the fiber READY and stores in it the
    context that was running, whichever stack that is.  In the scenario,
    fiber 1 is current and runs on its block when it calls [yield] on the
    thread fiber: the call returns, the thread fiber is READY and holds the
    context of fiber 1.  [yield] on a RUNNING fiber that is its own
    counterpart, as the thread fiber is after [GetThis], returns to its
    caller and leaves the fiber READY and current: a further [yield] on it
    then fails the assertion and [resume] on it passes and makes it RUNNING
    again.  In the second scenario the thread calls [GetThis()->yield()]
    with its thread fiber current and RUNNING: the thread fiber is READY
    afterwards. *)
Theorem yield_unchecked hdr :
  (forall m, t_fiber (thr m) = None ->
     exists a m' f,
       GetThis hdr m = Ret a m' /\ t_thread_fiber (thr m') = Some a /\
       fiber_at m' a = Some f /\ m_state f = RUNNING /\ m_stack f = None) /\
  (forall m tf f g cb,
     fiber_at m tf = Some f -> g <> tf ->
     (exists f', fiber_at (final (resume g m)) tf = Some f' /\ m_state f' = m_state f) /\
     (exists f', fiber_at (final (yield g m)) tf = Some f' /\ m_state f' = m_state f) /\
     (exists f', fiber_at (final (reset g cb m)) tf = Some f' /\ m_state f' = m_state f)) /\
  (forall m tf f cb,
     fiber_at m tf = Some f -> m_state f = RUNNING -> m_stack f = None ->
     resume tf m = Fault AssertionFailed m /\ reset tf cb m = Fault AssertionFailed m) /\
  (forall m this self cur,
     fiber_at m this = Some self -> m_state self <> READY ->
     yield this (on_thr (with_t_fiber cur) m) = yield this m) /\
  (forall m this self c fc s k,
     fiber_at m this = Some self -> m_state self = RUNNING ->
     counterpart self (thr m) = Some c -> c <> this ->
     fiber_at m c = Some fc -> resumption (m_ctx fc) = Some (s, k) ->
     exists m' self',
       yield this m = Ret tt m' /\ fiber_at m' this = Some self' /\
       m_state self' = READY /\
       uc_mcontext (m_ctx self') = McSaved (sp (thr m)) (pc (thr m)) /\
       t_fiber (thr m') = Some c /\ sp (thr m') = s /\ pc (thr m') = k) /\
  (exists m m' f0,
     run hdr 4 (machine0 prog_yield_other) = Ret tt m /\
     t_fiber (thr m) = Some 1%nat /\ sp (thr m) = Block 0 /\
     pc (thr m) = [ICmd (CYield 0%nat); ICmd CGetFiberId; IMainFuncAfter 1%nat] /\
     state_of m 0%nat = Some RUNNING /\
     step hdr m = Some (Ret tt m') /\
     fiber_at m' 0%nat = Some f0 /\ m_state f0 = READY /\
     uc_mcontext (m_ctx f0) = McSaved (Block 0) [ICmd CGetFiberId; IMainFuncAfter 1%nat] /\
     t_fiber (thr m') = Some 0%nat /\ sp (thr m') = Block 0) /\
  (forall m tf f,
     fiber_at m tf = Some f -> m_state f = RUNNING ->
     counterpart f (thr m) = Some tf ->
     exists m' f',
       yield tf m = Ret tt m' /\ fiber_at m' tf = Some f' /\ m_state f' = READY /\
       t_fiber (thr m') = Some tf /\
       sp (thr m') = sp (thr m) /\ pc (thr m') = pc (thr m) /\
       yield tf m' = Fault AssertionFailed m' /\
       exists m'' f'',
         resume tf m' = Ret tt m'' /\ fiber_at m'' tf = Some f'' /\
         m_state f'' = RUNNING) /\
  (exists m m' k,
     run hdr 1 (machine0 prog_yield_main) = Ret tt m /\
     t_fiber (thr m) = Some 0%nat /\ t_thread_fiber (thr m) = Some 0%nat /\
     state_of m 0%nat = Some RUNNING /\
     pc (thr m) = ICmd CYieldThis :: k /\
     step hdr m = Some (Ret tt m') /\
     t_thread_fiber (thr m') = Some 0%nat /\
     state_of m' 0%nat = Some READY /\ pc (thr m') = k).
Proof.
  split; [|split; [|split; [|split; [|split; [|split; [|split]]]]]].
  - intros m Ht. do 3 eexists. split; [by apply GetThis_None|].
    split; [reflexivity|].
    split; [unfold fiber_at; simpl; apply lookup_snoc_last|]. done.
  - intros m tf f g cb H Hne. split; [|split].
    + destruct (resume_touches g m tf f H) as (f' & Hf' & _ & Hs). eauto.
    + destruct (yield_touches g m tf f H) as (f' & Hf' & _ & Hs). eauto.
    + destruct (reset_keeps_others g cb m tf f H) as (f' & Hf' & Hs). eauto.
  - intros m tf f cb H Hs Hk. split.
    + apply (resume_not_READY _ _ _ H). congruence.
    + rewrite (reset_eq _ _ _ _ H), Hk. by rewrite bool_decide_false by auto.
  - intros m this self cur. apply yield_ignores_current.
  - intros m this self c fc s k H Hs Hc Hne Hfc Hr.
    assert (Hn : m_state self <> READY) by congruence.
    exists (on_thr (with_cpu s k) (on_thr (with_t_fiber (Some c))
              (set_fiber this (save_ctx m (yielded self)) m))),
           (save_ctx m (yielded self)).
    split.
    { rewrite (yield_not_READY _ _ _ H Hn), Hc.
      eapply take_up_resumption; [|exact Hr].
      rewrite fiber_at_on_thr, fiber_at_set_fiber_ne by done. exact Hfc. }
    split; [simpl; eapply fiber_at_set_fiber_eq, H|].
    split; [unfold yielded; by rewrite Hs|]. done.
  - exists (final (run hdr 4 (machine0 prog_yield_other))),
           (final (run hdr 5 (machine0 prog_yield_other))),
           (default (raw_fiber hdr)
              (fiber_at (final (run hdr 5 (machine0 prog_yield_other))) 0%nat)).
    destruct hdr as [sz [|]];
      (do 10 (split; [vm_compute; reflexivity|])); vm_compute; reflexivity.
  - intros m tf f H Hs Hc.
    assert (Hn : m_state f <> READY) by congruence.
    pose proof (yield_own_counterpart _ _ _ H Hn Hc) as Hy.
    set (m' := on_thr _ _) in Hy.
    set (f' := save_ctx m (with_state READY f)).
    assert (H' : fiber_at m' tf = Some f').
    { unfold m', f', yielded. rewrite Hs, !fiber_at_on_thr.
      eapply fiber_at_set_fiber_eq, H. }
    assert (Hc' : counterpart f' (thr m') = Some tf) by exact Hc.
    exists m', f'. split; [exact Hy|]. split; [exact H'|].
    do 4 (split; [reflexivity|]). split.
    + by apply (yield_READY _ _ _ H').
    + eexists _, _. split; [exact (resume_own_counterpart _ _ _ H' eq_refl Hc')|].
      split; [eapply fiber_at_set_fiber_eq; rewrite fiber_at_on_thr; exact H'|].
      reflexivity.
  - exists (final (run hdr 1 (machine0 prog_yield_main))),
           (final (run hdr 2 (machine0 prog_yield_main))),
           [ICmd (CResume 0%nat); ICmd (CYield 0%nat); ICmd (CYield 0%nat)].
    destruct hdr as [sz [|]];
      (do 8 (split; [vm_compute; reflexivity|])); vm_compute; reflexivity.
Qed.

(** On the scenarios: fiber 1 is current and running; [yield] on it does
    not depend on [t_fiber], and [resume] on the thread fiber fails.  And
    the thread fiber, current and its own counterpart, is READY after a
    [yield] on it. *)
Lemma yield_unchecked_witness :
  fiber_at m_yield_other 0%nat = Some f_A /\
  t_fiber (thr m_yield_other) = Some 1%nat /\ sp (thr m_yield_other) = Block 0 /\
  yield 0%nat (on_thr (with_t_fiber (Some 0%nat)) m_yield_other) =
    yield 0%nat m_yield_other /\
  (exists m' self',
     yield 1%nat (on_thr (with_t_fiber (Some 0%nat)) m_yield_other) = Ret tt m' /\
     fiber_at m' 1%nat = Some self' /\ m_state self' = READY /\
     t_fiber (thr m') = Some 0%nat) /\
  resume 0%nat m_yield_other = Fault AssertionFailed m_yield_other /\
  fiber_at m_main_built 0%nat = Some f_main_built /\
  (exists m' f',
     yield 0%nat m_main_built = Ret tt m' /\ fiber_at m' 0%nat = Some f' /\
     m_state f' = READY /\ yield 0%nat m' = Fault AssertionFailed m').
Proof.
  destruct (yield_unchecked hdr0) as (_ & _ & Hfail & Hcur & Hgo & _ & Hself & _).
  split; [reflexivity|]. split; [reflexivity|]. split; [reflexivity|].
  split; [|split; [|split; [|split]]].
  - apply (Hcur m_yield_other 0%nat f_A (Some 0%nat)); [reflexivity | discriminate].
  - destruct (Hgo (on_thr (with_t_fiber (Some 0%nat)) m_yield_other) 1%nat
                (default f_A (fiber_at m_yield_other 1%nat)) 0%nat f_A OsStack [])
      as (m' & self' & H & Hf & Hs & _ & Ht & _);
      [reflexivity | reflexivity | reflexivity | lia | reflexivity | reflexivity |].
    by exists m', self'.
  - apply (Hfail m_yield_other 0%nat f_A []); reflexivity.
  - reflexivity.
  - destruct (Hself m_main_built 0%nat f_main_built eq_refl eq_refl eq_refl)
      as (m' & f' & Hy & Hf & Hs & _ & _ & _ & Hfault & _).
    by exists m', f'.
Defined.

(** ** The life of a fiber *)

(** X1. The next instruction of the thread is [resume] on a READY fiber
    whose context is at the entry of the trampoline (as the constructor
    and [reset] leave it), whose closure consists of calls of [GetThis]
    and [GetFiberId] only, and whose counterpart (the thread fiber, or the
    scheduler fiber for a fiber built with [run_in_scheduler]) is another
    live fiber.  Then [length body + 3] steps later the thread is back in
    the code that follows the [resume], on the stack it was on, with the
    counterpart recorded as current; the fiber is TERM, its closure
    cleared, its context at the end of the trampoline; every other object
    but the counterpart is as it was, and nothing was built or allocated.
    A further [resume] fails its assertion. *)
Theorem returns_after_one_resume hdr m this self c fc b body k :
  pc (thr m) = ICmd (CResume this) :: k ->
  fiber_at m this = Some self -> m_state self = READY ->
  uc_mcontext (m_ctx self) = McEntry -> ss_sp (m_ctx self) = Some b ->
  m_cb self = Some body -> forallb quiet body = true ->
  counterpart self (thr m) = Some c -> c <> this -> fiber_at m c = Some fc ->
  exists mf f',
    run hdr (length body + 3) m = Ret tt mf /\
    sp (thr mf) = sp (thr m) /\ pc (thr mf) = k /\ t_fiber (thr mf) = Some c /\
    fiber_at mf this = Some f' /\ m_state f' = TERM /\ m_cb f' = None /\
    uc_mcontext (m_ctx f') = McSaved (Block b) [] /\
    (forall a, a <> this -> a <> c -> fiber_at mf a = fiber_at m a) /\
    length (heap (glob mf)) = length (heap (glob m)) /\
    blocks (glob mf) = blocks (glob m) /\
    resume this mf = Fault AssertionFailed mf.
Proof.
  intros Hpc H Hs Hentry Hb Hcb Hq Hc Hne Hfc.
  assert (Hr : resumption (m_ctx self) = Some (Block b, [IMainFunc])).
  { unfold resumption. by rewrite Hentry, Hb. }
  pose proof (step_resume hdr _ _ _ _ _ _ _ _ Hpc H Hs Hc Hne Hfc Hr) as Hstep1.
  set (m1 := on_thr _ _) in Hstep1.
  assert (H1 : fiber_at m1 this = Some (with_state RUNNING self)).
  { unfold m1. rewrite fiber_at_on_thr, fiber_at_set_fiber_ne, fiber_at_on_thr by done.
    eapply fiber_at_set_fiber_eq, H. }
  assert (Hstep2 := step_MainFunc hdr m1 (Block b) this _ body eq_refl eq_refl eq_refl H1 Hcb).
  set (m2 := on_thr _ m1) in Hstep2.
  assert (Hc2 : fiber_at m2 c =
            Some (with_ctx (with_mcontext (McSaved (sp (thr m)) k) (m_ctx fc)) fc)).
  { unfold m2, m1. rewrite !fiber_at_on_thr. eapply fiber_at_set_fiber_eq.
    rewrite fiber_at_on_thr, fiber_at_set_fiber_ne by done. exact Hfc. }
  assert (Hend := run_to_end hdr m2 this _ c _ (sp (thr m)) k body [] eq_refl Hq eq_refl
                    H1 Hc Hne Hc2 eq_refl).
  set (mf := on_thr _ _) in Hend.
  assert (Hf : fiber_at mf this =
            Some (with_ctx (with_mcontext (McSaved (Block b) []) (m_ctx self))
                    (with_state TERM (with_cb None (with_state RUNNING self))))).
  { unfold mf. rewrite !fiber_at_on_thr. eapply fiber_at_set_fiber_eq, H1. }
  exists mf, (with_ctx (with_mcontext (McSaved (Block b) []) (m_ctx self))
               (with_state TERM (with_cb None (with_state RUNNING self)))).
  split.
  { replace (length body + 3)%nat with (S (S (length body + 1))) by lia.
    by rewrite (run_step _ _ _ _ Hstep1), (run_step _ _ _ _ Hstep2). }
  do 3 (split; [reflexivity|]). split; [exact Hf|]. do 3 (split; [reflexivity|]).
  split; [|split; [|split]].
  - intros a Ha Hac. unfold mf, m2, m1. by skip_writes.
  - unfold mf, m2, m1; simpl. by rewrite !length_insert.
  - reflexivity.
  - by apply (resume_not_READY _ _ _ Hf).
Qed.

(** X2. The next instruction of the thread is [resume] on a READY fiber
    whose context is at the entry of the trampoline, whose counterpart is
    another live fiber, and whose closure, after calls [q] of [GetThis]
    and [GetFiberId] only, calls [GetThis()->yield()].  Then
    [length q + 3] steps later the thread is back in the code that follows
    the [resume], on the stack it was on, with the counterpart recorded as
    current; the fiber is READY, still holds its closure, and its context
    is what is left of the closure on its own block, followed by the end
    of the trampoline; every other object but the counterpart is as it
    was. *)
Theorem yield_returns_to_resumer hdr m this self c fc b q rest k :
  pc (thr m) = ICmd (CResume this) :: k ->
  fiber_at m this = Some self -> m_state self = READY ->
  uc_mcontext (m_ctx self) = McEntry -> ss_sp (m_ctx self) = Some b ->
  m_cb self = Some (q ++ CYieldThis :: rest) -> forallb quiet q = true ->
  counterpart self (thr m) = Some c -> c <> this -> fiber_at m c = Some fc ->
  exists my f',
    run hdr (length q + 3) m = Ret tt my /\
    sp (thr my) = sp (thr m) /\ pc (thr my) = k /\ t_fiber (thr my) = Some c /\
    fiber_at my this = Some f' /\ m_state f' = READY /\
    m_cb f' = Some (q ++ CYieldThis :: rest) /\
    uc_mcontext (m_ctx f') =
      McSaved (Block b) (map ICmd rest ++ [IMainFuncAfter this]) /\
    (forall a, a <> this -> a <> c -> fiber_at my a = fiber_at m a).
Proof.
  intros Hpc H Hs Hentry Hb Hcb Hq Hc Hne Hfc.
  destruct (first_activation hdr _ _ _ _ _ _ _ _ _ Hpc H Hs Hentry Hb Hcb Hq Hc Hne Hfc)
    as (my & Hrun & Hthr & Hthis & _ & Hothers & _).
  exists my, (with_ctx (with_mcontext
                          (McSaved (Block b) (map ICmd rest ++ [IMainFuncAfter this]))
                          (m_ctx self)) (with_state READY self)).
  split; [exact Hrun|]. rewrite Hthr.
  do 3 (split; [reflexivity|]). split; [exact Hthis|].
  split; [reflexivity|]. split; [exact Hcb|]. split; [reflexivity|exact Hothers].
Qed.

(** X3. The next two instructions of the thread are [resume] on one
    READY fiber whose context is at the entry of the trampoline, whose
    counterpart is another live fiber, and whose closure is calls [q1] of
    [GetThis] and [GetFiberId] only, then [GetThis()->yield()], then calls
    [q2] of [GetThis] and [GetFiberId] only.  Then after the first
    [resume] ([length q1 + 3] steps) the thread is at the second and the
    fiber is READY; after the second ([length q2 + 2] steps more) the
    thread is in the code that follows, on the stack it was on, with the
    counterpart recorded as current, the fiber is TERM with its closure
    cleared, and every other object but the counterpart is as it was. *)
Theorem terminates_after_second_resume hdr m this self c fc b q1 q2 k :
  pc (thr m) = ICmd (CResume this) :: ICmd (CResume this) :: k ->
  fiber_at m this = Some self -> m_state self = READY ->
  uc_mcontext (m_ctx self) = McEntry -> ss_sp (m_ctx self) = Some b ->
  m_cb self = Some (q1 ++ CYieldThis :: q2) ->
  forallb quiet q1 = true -> forallb quiet q2 = true ->
  counterpart self (thr m) = Some c -> c <> this -> fiber_at m c = Some fc ->
  exists my mf fy ff,
    run hdr (length q1 + 3) m = Ret tt my /\
    pc (thr my) = ICmd (CResume this) :: k /\
    fiber_at my this = Some fy /\ m_state fy = READY /\
    run hdr (length q1 + 3 + (length q2 + 2)) m = Ret tt mf /\
    sp (thr mf) = sp (thr m) /\ pc (thr mf) = k /\ t_fiber (thr mf) = Some c /\
    fiber_at mf this = Some ff /\ m_state ff = TERM /\ m_cb ff = None /\
    (forall a, a <> this -> a <> c -> fiber_at mf a = fiber_at m a).
Proof.
  intros Hpc H Hs Hentry Hb Hcb Hq1 Hq2 Hc Hne Hfc.
  destruct (first_activation hdr _ _ _ _ _ _ _ _ _ Hpc H Hs Hentry Hb Hcb Hq1 Hc Hne Hfc)
    as (my & Hrun & Hthr & Hthis & Hcy & Hothers & _).
  assert (Hpcy : pc (thr my) = ICmd (CResume this) :: k) by by rewrite Hthr.
  assert (Hcy' : counterpart
            (with_ctx (with_mcontext
                         (McSaved (Block b) (map ICmd q2 ++ [IMainFuncAfter this]))
                         (m_ctx self)) (with_state READY self)) (thr my) = Some c).
  { rewrite Hthr. exact Hc. }
  destruct (resumed_to_end hdr my this _ c _ (Block b) q2 [] k Hpcy Hthis eq_refl
              eq_refl Hq2 Hcy' Hne Hcy)
    as (mf & Hrun2 & Hthr2 & Hthis2 & Hothers2 & _).
  exists my, mf. eexists _, _.
  split; [exact Hrun|]. split; [exact Hpcy|]. split; [exact Hthis|].
  split; [reflexivity|]. split; [by rewrite run_add, Hrun|].
  rewrite Hthr2, Hthr. do 3 (split; [reflexivity|]).
  split; [exact Hthis2|]. do 2 (split; [reflexivity|]).
  intros a Ha Hac. by rewrite Hothers2, Hothers.
Qed.

(** X4. [resume] on a READY fiber that is its own counterpart (a fiber
    built with [run_in_scheduler] and named scheduler fiber, say) returns
    at once: the thread goes on in the code that called [resume], on the
    same stack; the fiber is RUNNING and current, and its context, the
    entry of the trampoline included, is overwritten with that of the
    caller, so its closure is not started. *)
Theorem resume_of_own_counterpart hdr m this self k :
  fiber_at m this = Some self -> m_state self = READY ->
  counterpart self (thr m) = Some this ->
  (exists m' f',
     resume this m = Ret tt m' /\
     sp (thr m') = sp (thr m) /\ pc (thr m') = pc (thr m) /\
     t_fiber (thr m') = Some this /\
     fiber_at m' this = Some f' /\ m_state f' = RUNNING /\ m_cb f' = m_cb self /\
     uc_mcontext (m_ctx f') = McSaved (sp (thr m)) (pc (thr m))) /\
  (pc (thr m) = ICmd (CResume this) :: k ->
   exists m' f',
     step hdr m = Some (Ret tt m') /\ sp (thr m') = sp (thr m) /\ pc (thr m') = k /\
     fiber_at m' this = Some f' /\ m_state f' = RUNNING /\
     uc_mcontext (m_ctx f') = McSaved (sp (thr m)) k).
Proof.
  intros H Hs Hc.
  assert (Hgo : forall m0, fiber_at m0 this = Some self ->
            counterpart self (thr m0) = Some this ->
            resume this m0 =
              Ret tt (on_thr (with_cpu (sp (thr m0)) (pc (thr m0)))
                        (set_fiber this (save_ctx m0 (with_state RUNNING self))
                           (on_thr (with_t_fiber (Some this)) m0)))).
  { intros m0 H0 Hc0. rewrite (resume_READY _ _ _ H0 Hs), Hc0.
    set (m1 := on_thr _ (set_fiber this _ m0)).
    assert (H1 : fiber_at m1 this = Some (with_state RUNNING self)).
    { unfold m1. rewrite fiber_at_on_thr. eapply fiber_at_set_fiber_eq, H0. }
    rewrite (swapcontext_Some _ _ _ _ H1).
    erewrite take_up_resumption;
      [|eapply fiber_at_set_fiber_eq, H1 | reflexivity].
    unfold m1. by rewrite set_fiber_on_thr, set_fiber_set_fiber. }
  split.
  - eexists _, _. split; [by apply Hgo|].
    do 3 (split; [reflexivity|]).
    split; [simpl; eapply fiber_at_set_fiber_eq; rewrite fiber_at_on_thr; exact H|].
    by repeat split.
  - intros Hpc. eexists _, _. split.
    { rewrite (step_cmd _ _ _ _ Hpc). simpl. by rewrite Hgo. }
    do 2 (split; [reflexivity|]).
    split; [simpl; eapply fiber_at_set_fiber_eq; rewrite !fiber_at_on_thr; exact H|].
    by repeat split.
Qed.

(** X5. [GetThis] is idempotent: when it returns, a second call returns
    the same fiber and changes nothing.  It builds a fiber only when the
    thread has no current fiber, and then exactly one: a fiber with no
    stack and no closure, RUNNING, which becomes the current, the thread
    and the scheduler fiber. *)
Theorem GetThis_idempotent hdr m :
  (forall a m', GetThis hdr m = Ret a m' ->
     GetThis hdr m' = Ret a m' /\ t_fiber (thr m') = Some a /\
     (t_fiber (thr m) <> None -> m' = m)) /\
  (t_fiber (thr m) = None ->
   exists m' f,
     GetThis hdr m = Ret (length (heap (glob m))) m' /\
     length (heap (glob m')) = S (length (heap (glob m))) /\
     fiber_at m' (length (heap (glob m))) = Some f /\
     m_state f = RUNNING /\ m_stack f = None /\ m_cb f = None /\
     m_id f = s_fiber_id (glob m) /\
     t_fiber (thr m') = Some (length (heap (glob m))) /\
     t_thread_fiber (thr m') = Some (length (heap (glob m))) /\
     t_scheduler_fiber (thr m') = Some (length (heap (glob m))) /\
     sp (thr m') = sp (thr m) /\ pc (thr m') = pc (thr m) /\
     forall a, (a < length (heap (glob m)))%nat -> fiber_at m' a = fiber_at m a).
Proof.
  split.
  - intros a m' Hret. destruct (t_fiber (thr m)) as [x|] eqn:Ht.
    + assert (Hx : exists f, fiber_at m x = Some f /\ a = x /\ m' = m).
      { revert Hret. unfold GetThis, shared_from_this, gets, deref, mbind, M_bind.
        rewrite Ht. destruct (fiber_at m x) as [f|]; [|done].
        intros [= <- <-]. eauto. }
      destruct Hx as (f & Hf & -> & ->).
      split; [by eapply GetThis_Some|]. done.
    + rewrite (GetThis_None _ _ Ht) in Hret. injection Hret as <- <-.
      split; [|done].
      eapply GetThis_Some; [reflexivity|]. unfold fiber_at; simpl. apply lookup_snoc_last.
  - intros Ht. eexists _, (built_main hdr (glob m)).
    split; [by apply GetThis_None|]. split; [simpl; rewrite length_app; simpl; lia|].
    split; [unfold fiber_at; simpl; apply lookup_snoc_last|].
    do 9 (split; [reflexivity|]).
    intros a Ha. unfold fiber_at; simpl. by rewrite lookup_app_l.
Qed.

(** X6. [SetSchedulerFiber] called before the thread fiber exists is
    undone by the first [GetThis], which names the thread fiber scheduler
    fiber; called once the thread has a current fiber, it holds across
    [GetThis].  It takes any pointer, null included, and checks nothing. *)
Theorem scheduler_fiber_override hdr m p :
  (t_fiber (thr m) = None ->
   exists a m',
     (SetSchedulerFiber p ≫= fun _ => GetThis hdr) m = Ret a m' /\
     t_scheduler_fiber (thr m') = Some a /\ t_thread_fiber (thr m') = Some a /\
     fiber_at m a = None) /\
  (forall a f,
     t_fiber (thr m) = Some a -> fiber_at m a = Some f ->
     exists m',
       (SetSchedulerFiber p ≫= fun _ => GetThis hdr) m = Ret a m' /\
       t_scheduler_fiber (thr m') = p /\
       t_thread_fiber (thr m') = t_thread_fiber (thr m)).
Proof.
  split.
  - intros Ht. eexists _, _. split.
    + erewrite bind_Ret by reflexivity. by apply GetThis_None.
    + split; [reflexivity|]. split; [reflexivity|].
      apply lookup_ge_None. simpl. lia.
  - intros a f Ht Hf. eexists. split.
    + erewrite bind_Ret by reflexivity. by eapply GetThis_Some.
    + done.
Qed.

(** ** The pointers of a thread along a run *)

Lemma step_fixed_kept hdr m o :
  step hdr m = Some o -> heap_rel fixed_kept m (final o).
Proof.
  apply heap_rel_step; unfold fixed_kept; try done.
  intros a f1 f2 f3 (-> & -> & -> & ->) (-> & -> & -> & ->). done.
Qed.

Lemma take_up_registry ucp m :
  t_thread_fiber (thr (final (take_up ucp m))) = t_thread_fiber (thr m) /\
  t_scheduler_fiber (thr (final (take_up ucp m))) = t_scheduler_fiber (thr m).
Proof. destruct (take_up_final ucp m) as (s & k & ->). done. Qed.

Lemma swapcontext_registry oucp ucp m :
  t_thread_fiber (thr (final (swapcontext oucp ucp m))) = t_thread_fiber (thr m) /\
  t_scheduler_fiber (thr (final (swapcontext oucp ucp m))) = t_scheduler_fiber (thr m).
Proof.
  destruct (swapcontext_final oucp ucp m) as (s & k & [-> | (o & fo & _ & _ & ->)]);
    done.
Qed.

Lemma READY_or_not (s : State) : s = READY \/ s <> READY.
Proof. destruct s; auto; right; discriminate. Qed.

Lemma deref_wild {A} (k : Fiber -> M A) m a :
  fiber_at m a = None -> (deref (Some a) ≫= k) m = Fault WildPointer m.
Proof. intros H. unfold deref, mbind, M_bind. by rewrite H. Qed.

(** What is known when [resume] returns. *)
Lemma resume_Ret m this m' :
  resume this m = Ret tt m' ->
  is_Some (fiber_at m this) /\ t_fiber (thr m') = Some this /\
  t_thread_fiber (thr m') = t_thread_fiber (thr m) /\
  t_scheduler_fiber (thr m') = t_scheduler_fiber (thr m).
Proof.
  intros Hret. destruct (fiber_at m this) as [self|] eqn:H.
  - destruct (READY_or_not (m_state self)) as [Hs|Hs].
    + pose proof (resume_t_fiber _ _ _ H Hs) as Ht.
      pose proof (resume_READY _ _ _ H Hs) as E. rewrite Hret in E.
      pose proof (swapcontext_registry (counterpart self (thr m)) (Some this)
                    (on_thr (with_t_fiber (Some this))
                       (set_fiber this (with_state RUNNING self) m))) as Hreg.
      rewrite <- E in Hreg. rewrite Hret in Ht. simpl in *. by eauto.
    + by rewrite (resume_not_READY _ _ _ H Hs) in Hret.
  - unfold resume in Hret. by rewrite deref_wild in Hret.
Qed.

(** What is known when [yield] returns. *)
Lemma yield_Ret m this m' :
  yield this m = Ret tt m' ->
  exists c, is_Some (fiber_at m' c) /\ t_fiber (thr m') = Some c /\
  t_thread_fiber (thr m') = t_thread_fiber (thr m) /\
  t_scheduler_fiber (thr m') = t_scheduler_fiber (thr m).
Proof.
  intros Hret. destruct (fiber_at m this) as [self|] eqn:H.
  - destruct (READY_or_not (m_state self)) as [Hs|Hs].
    + by rewrite (yield_READY _ _ _ H Hs) in Hret.
    + rewrite (yield_not_READY _ _ _ H Hs) in Hret.
      set (m1 := on_thr _ _) in Hret.
      destruct (counterpart self (thr m)) as [c|] eqn:Hc; [|done].
      pose proof (take_up_registry (Some c) m1) as Hreg.
      pose proof (take_up_fiber_at (Some c) m1 c) as Hfc.
      destruct (take_up_final (Some c) m1) as (s & k & Hfin).
      rewrite Hret in Hreg, Hfc, Hfin. simpl in *.
      exists c. split; [|split; [by rewrite Hfin|done]].
      rewrite Hfc. revert Hret. unfold take_up, deref, mbind, M_bind.
      by destruct (fiber_at m1 c).
  - unfold yield in Hret. by rewrite deref_wild in Hret.
Qed.

(** What is known when [GetThis] returns. *)
Lemma GetThis_Ret hdr m a m' :
  GetThis hdr m = Ret a m' ->
  (t_fiber (thr m) = Some a /\ is_Some (fiber_at m a) /\ m' = m) \/
  (t_fiber (thr m) = None /\ a = length (heap (glob m)) /\
   m' = final (GetThis hdr m) /\
   fiber_at m' a = Some (built_main hdr (glob m)) /\
   t_fiber (thr m') = Some a /\ t_thread_fiber (thr m') = Some a /\
   t_scheduler_fiber (thr m') = Some a /\
   sp (thr m') = sp (thr m) /\ pc (thr m') = pc (thr m)).
Proof.
  intros Hret. destruct (t_fiber (thr m)) as [x|] eqn:Ht.
  - left. revert Hret. unfold GetThis, shared_from_this, gets, deref, mbind, M_bind.
    rewrite Ht. destruct (fiber_at m x) as [f|] eqn:Hf; [|done].
    intros [= <- <-]. rewrite Hf. eauto.
  - right. rewrite Hret. rewrite (GetThis_None _ _ Ht) in Hret.
    injection Hret as <- <-. repeat split.
    unfold fiber_at; simpl. apply lookup_snoc_last.
Qed.

Lemma bind_Ret_inv {A B} (c : M A) (k : A -> M B) m b m' :
  (c ≫= k) m = Ret b m' -> exists a m1, c m = Ret a m1 /\ k a m1 = Ret b m'.
Proof.
  unfold mbind, M_bind. destruct (c m) as [a m1|e m1]; [|done]. eauto.
Qed.

Lemma update_Ret p upd m m' :
  update p upd m = Ret tt m' -> thr m' = thr m.
Proof.
  unfold update. destruct p as [a|]; [|done].
  destruct (fiber_at m a); [|done]. by intros [= <-].
Qed.

Lemma yield_fixed_kept this m : heap_rel fixed_kept m (final (yield this m)).
Proof.
  apply heap_rel_yield; unfold fixed_kept; try done.
  intros a f1 f2 f3 (-> & -> & -> & ->) (-> & -> & -> & ->). done.
Qed.

Lemma resume_fixed_kept this m : heap_rel fixed_kept m (final (resume this m)).
Proof.
  apply heap_rel_resume; unfold fixed_kept; try done.
  intros a f1 f2 f3 (-> & -> & -> & ->) (-> & -> & -> & ->). done.
Qed.

Lemma GetThis_ptrs hdr m a m' :
  GetThis hdr m = Ret a m' ->
  (m' = m /\ t_fiber (thr m) = Some a) \/
  (t_fiber (thr m) = None /\ t_fiber (thr m') = Some a /\
   t_thread_fiber (thr m') = Some a /\
   fiber_at m' a = Some (built_main hdr (glob m))).
Proof.
  intros H. destruct (GetThis_Ret _ _ _ _ H) as [(Ht & _ & ->) | (Ht & _ & _ & Hf & Ht' & Hth & _)];
    [left | right]; auto.
Qed.

Lemma exec_instr_ptrs hdr i m m' :
  exec_instr hdr i m = Ret tt m' -> ptrs_after m m'.
Proof.
  destruct i as [c| |curr]; simpl.
  - destruct c; simpl.
    + intros H. apply bind_Ret_inv in H as (a & m1 & Hg & [= <-]).
      destruct (GetThis_Ret _ _ _ _ Hg)
        as [(Ht & _ & ->) | (Ht & _ & _ & Hf & Ht' & Hth & _)]; [by left|].
      right; right. split; [done|]. exists a, (built_main hdr (glob m)), a.
      rewrite Hf. by eauto.
    + intros H. apply bind_Ret_inv in H as (v & m1 & Hg & [= <-]). left.
      revert Hg. unfold GetFiberId, gets, deref, mbind, M_bind, mret, M_ret.
      destruct (t_fiber (thr m)) as [x|] eqn:Ht; [destruct (fiber_at m x)|];
        try done; by intros [= _ <-].
    + intros H. apply bind_Ret_inv in H as (v & m1 & Hg & [= <-]). left.
      rewrite new_Fiber_eq in Hg. by injection Hg as _ <-.
    + intros H. left. destruct (fiber_at m f) as [self|] eqn:Hf.
      * rewrite (reset_eq _ _ _ _ Hf) in H.
        destruct (_ && _); [|done]. by injection H as <-.
      * unfold reset in H. by rewrite deref_wild in H.
    + intros H. right; left.
      destruct (resume_Ret _ _ _ H) as (Hlive & Ht & Hth & _). split; [|done].
      exists f. split; [done|]. destruct Hlive as [self Hself].
      destruct (resume_fixed_kept f m f self Hself) as (f' & Hf' & _).
      rewrite H in Hf'. simpl in Hf'. by rewrite Hf'.
    + intros H. right; left.
      destruct (yield_Ret _ _ _ H) as (c & Hlive & Ht & Hth & _). eauto.
    + intros H. apply bind_Ret_inv in H as (a & m1 & Hg & Hy).
      destruct (yield_Ret _ _ _ Hy) as (c & Hlive & Ht & Hth & _).
      destruct (GetThis_ptrs _ _ _ _ Hg) as [[-> _] | (Hnone & _ & Hth1 & Hf1)].
      * right; left. eauto.
      * right; right. split; [done|].
        destruct (yield_fixed_kept a m1 a _ Hf1) as (f' & Hf' & _ & Hk & _).
        rewrite Hy in Hf'. simpl in Hf'.
        exists a, f', c. rewrite Hth, Hth1. by eauto.
    + intros [= <-]. by left.
  - intros H. unfold MainFunc in H.
    apply bind_Ret_inv in H as (a & m1 & Hg & H).
    apply bind_Ret_inv in H as (self & m2 & Hd & Hcall).
    assert (m2 = m1 /\ fiber_at m1 a = Some self) as [-> Hself].
    { revert Hd. unfold deref. destruct (fiber_at m1 a); [|done]. by intros [= <- <-]. }
    destruct (GetThis_ptrs _ _ _ _ Hg) as [[-> Ht] | (Hnone & _ & _ & Hf1)].
    + left. revert Hcall. unfold call. destruct (m_cb self); [|done]. by intros [= <-].
    + rewrite Hf1 in Hself. injection Hself as <-. done.
  - intros H. unfold MainFunc_after in H.
    apply bind_Ret_inv in H as ([] & m1 & Hu1 & H).
    apply bind_Ret_inv in H as ([] & m2 & Hu2 & Hy).
    destruct (yield_Ret _ _ _ Hy) as (c & Hlive & Ht & Hth & _).
    right; left. split; [eauto|].
    by rewrite Hth, (update_Ret _ _ _ _ Hu2), (update_Ret _ _ _ _ Hu1).
Qed.

Lemma step_reg_ok hdr m m' :
  step hdr m = Some (Ret tt m') -> reg_ok m ->
  reg_ok m' /\
  (forall a, t_thread_fiber (thr m) = Some a -> t_thread_fiber (thr m') = Some a).
Proof.
  intros Hstep [Hcur Hthread].
  pose proof (step_fixed_kept _ _ _ Hstep) as Hkept. simpl in Hkept.
  assert (Hlive : forall a, is_Some (fiber_at m a) -> is_Some (fiber_at m' a)).
  { intros a [f Hf]. destruct (Hkept a f Hf) as (f' & -> & _). eauto. }
  assert (Hptrs : ptrs_after m m').
  { revert Hstep. unfold step. destruct (pc (thr m)) as [|i k]; [done|].
    intros [= H]. exact (exec_instr_ptrs _ _ _ _ H). }
  destruct Hptrs as [[Ht Hth] | [[(c & Ht & Hc) Hth] | (Hnone & a & f & c & Hth & Hf & Hk & Ht & Hc)]].
  - split; [split|].
    + intros a Ha. apply Hlive, Hcur. congruence.
    + intros a Ha. rewrite Hth in Ha. destruct (Hthread a Ha) as (Hsome & f & Hf & Hk).
      split; [congruence|]. destruct (Hkept a f Hf) as (f' & Hf' & _ & Hk' & _).
      exists f'. split; [done|]. congruence.
    + intros a Ha. congruence.
  - split; [split|].
    + intros a Ha. congruence.
    + intros a Ha. rewrite Hth in Ha. destruct (Hthread a Ha) as (_ & f & Hf & Hk).
      split; [congruence|]. destruct (Hkept a f Hf) as (f' & Hf' & _ & Hk' & _).
      exists f'. split; [done|]. congruence.
    + intros a Ha. congruence.
  - split; [split|].
    + intros x Hx. congruence.
    + intros x Hx. assert (x = a) as -> by congruence.
      split; [congruence|]. eauto.
    + intros x Hx. by destruct (Hthread x Hx) as [Hsome _].
Qed.

Lemma reg_ok_machine0 prog : reg_ok (machine0 prog).
Proof. split; intros a Ha; discriminate. Qed.

Lemma heap_rel_fixed_kept_trans m1 m2 m3 :
  heap_rel fixed_kept m1 m2 -> heap_rel fixed_kept m2 m3 -> heap_rel fixed_kept m1 m3.
Proof.
  apply heap_rel_trans. unfold fixed_kept.
  intros a f1 f2 f3 (-> & -> & -> & ->) (-> & -> & -> & ->). done.
Qed.

Lemma run_reg_ok hdr n : forall m m',
  run hdr n m = Ret tt m' -> reg_ok m ->
  reg_ok m' /\
  (forall a, t_thread_fiber (thr m) = Some a -> t_thread_fiber (thr m') = Some a) /\
  heap_rel fixed_kept m m'.
Proof.
  induction n as [|n IH]; intros m m'; simpl.
  - intros [= <-] Hok. split; [done|]. split; [done|].
    intros a f Hf. exists f. by repeat split.
  - destruct (step hdr m) as [[[] m1|e m1]|] eqn:E; try done.
    + intros Hrun Hok. destruct (step_reg_ok _ _ _ E Hok) as [Hok1 Hth1].
      destruct (IH _ _ Hrun Hok1) as (Hok' & Hth' & Hkept').
      split; [done|]. split; [by auto|].
      eapply heap_rel_fixed_kept_trans; [|exact Hkept'].
      exact (step_fixed_kept _ _ _ E).
    + intros [= <-] Hok. split; [done|]. split; [done|].
      intros a f Hf. exists f. by repeat split.
Qed.

Lemma run_ids_ok hdr n : forall m m',
  run hdr n m = Ret tt m' -> ids_ok (glob m) -> ids_ok (glob m').
Proof.
  induction n as [|n IH]; intros m m'; simpl.
  - by intros [= <-].
  - destruct (step hdr m) as [[[] m1|e m1]|] eqn:E; try done.
    + intros Hrun Hok. apply (IH _ _ Hrun). exact (step_ids_ok _ _ _ E Hok).
    + by intros [= <-].
Qed.

(** X7. Along a run of a thread that does not fault: the current fiber, if
    any, is a live object, so [GetThis] returns it and changes nothing;
    the thread fiber, once [GetThis] has built it, is the thread fiber for
    good (no second one is built), it never has a stack block, and from
    then on the thread always has a current fiber. *)
Theorem thread_fiber_permanent hdr prog n p m m' :
  run hdr n (machine0 prog) = Ret tt m -> run hdr p m = Ret tt m' ->
  (forall a, t_fiber (thr m) = Some a -> GetThis hdr m = Ret a m) /\
  (forall a, t_thread_fiber (thr m) = Some a ->
     t_thread_fiber (thr m') = Some a /\
     (exists c, t_fiber (thr m') = Some c /\ GetThis hdr m' = Ret c m') /\
     exists f f', fiber_at m a = Some f /\ fiber_at m' a = Some f' /\
       m_stack f = None /\ m_stack f' = None /\ m_id f' = m_id f).
Proof.
  intros Hrun Hrun'.
  destruct (run_reg_ok _ _ _ _ Hrun (reg_ok_machine0 prog)) as ([Hcur Hthread] & _ & _).
  destruct (run_reg_ok _ _ _ _ Hrun' (conj Hcur Hthread)) as ([Hcur' Hthread'] & Hth & Hkept).
  split.
  - intros a Ha. destruct (Hcur a Ha) as [f Hf]. by eapply GetThis_Some.
  - intros a Ha. pose proof (Hth a Ha) as Ha'. split; [done|].
    destruct (Hthread a Ha) as (_ & f & Hf & Hk).
    destruct (Hthread' a Ha') as (Hsome & f' & Hf' & Hk').
    split.
    + destruct (t_fiber (thr m')) as [c|] eqn:Hc; [|done].
      exists c. split; [done|]. destruct (Hcur' c eq_refl) as [fc Hfc].
      by eapply GetThis_Some.
    + exists f, f'. destruct (Hkept a f Hf) as (f2 & Hf2 & Hid & _).
      rewrite Hf' in Hf2. injection Hf2 as <-. done.
Qed.

(** X8. In a state a thread reaches on its own without a fault, with fewer
    than 2^64 fibers built: [GetFiberId] returns and changes nothing; what
    it returns is 2^64 - 1 exactly when the thread has no current fiber,
    and otherwise the rank of the current fiber in the order of
    construction. *)
Theorem GetFiberId_sentinel hdr prog n m :
  run hdr n (machine0 prog) = Ret tt m ->
  Z.of_nat (length (heap (glob m))) < 2 ^ 64 ->
  exists v,
    GetFiberId m = Ret v m /\
    (v = 18446744073709551615 <-> t_fiber (thr m) = None) /\
    (forall a, t_fiber (thr m) = Some a -> v = Z.of_nat a).
Proof.
  intros Hrun Hlen.
  destruct (run_reg_ok _ _ _ _ Hrun (reg_ok_machine0 prog)) as ([Hcur _] & _ & _).
  destruct (run_ids_ok _ _ _ _ Hrun ids_ok_global0) as [_ Hids].
  unfold GetFiberId, gets, deref, mbind, M_bind, mret, M_ret.
  destruct (t_fiber (thr m)) as [a|] eqn:Ht.
  - destruct (Hcur a eq_refl) as [f Hf]. rewrite Hf. exists (m_id f).
    assert (Hid : m_id f = Z.of_nat a).
    { rewrite (Hids a f Hf). apply wrap64_small.
      apply lookup_lt_Some in Hf. lia. }
    split; [done|]. split.
    + split; [|done]. intros Hv. apply lookup_lt_Some in Hf. lia.
    + by intros ? [= <-].
  - exists (wrap64 (-1)). split; [done|]. split; [|done]. split; [done|].
    intros _. reflexivity.
Qed.

(** ** Stack blocks *)

Lemma stacks_ok_global0 : stacks_ok global0.
Proof. intros a f b H. by destruct a. Qed.

Lemma stacks_ok_set_fiber m a f f' :
  fiber_at m a = Some f -> m_stack f' = m_stack f -> m_stacksize f' = m_stacksize f ->
  stacks_ok (glob m) -> stacks_ok (glob (set_fiber a f' m)).
Proof.
  intros H Hk Hsz Hok x fx b Hx Hb.
  assert (Hget : forall y fy, fiber_at (set_fiber a f' m) y = Some fy ->
            exists gy, fiber_at m y = Some gy /\ m_stack fy = m_stack gy /\
                       m_stacksize fy = m_stacksize gy).
  { intros y fy Hy. rewrite (fiber_at_set_fiber _ _ _ _ _ H) in Hy.
    destruct (decide (a = y)) as [<-|]; [|by eauto].
    injection Hy as <-. eauto. }
  destruct (Hget x fx Hx) as (gx & Hgx & Ek & Esz).
  rewrite Ek in Hb. destruct (Hok x gx b Hgx Hb) as (Hblk & Hnz & Hinj).
  rewrite Esz. split; [done|]. split; [done|].
  intros y fy Hy Hyb. destruct (Hget y fy Hy) as (gy & Hgy & Eky & _).
  rewrite Eky in Hyb. by eapply Hinj.
Qed.

Lemma stacks_ok_new hdr cb stacksize ris m :
  stacks_ok (glob m) -> stacks_ok (glob (final (new_Fiber hdr cb stacksize ris m))).
Proof.
  intros Hok. rewrite new_Fiber_eq. simpl. intros a f b Ha Hb.
  apply lookup_app_Some in Ha as [Ha | [Hge Ha]].
  - destruct (Hok a f b Ha Hb) as (Hblk & Hnz & Hinj).
    split; [by apply lookup_app_l_Some|]. split; [done|].
    intros a' f' Ha' Hb'. apply lookup_app_Some in Ha' as [Ha' | [Hge' Ha']];
      [by eapply Hinj|].
    destruct (a' - length (heap (glob m)))%nat; [|by destruct n].
    injection Ha' as <-. simpl in Hb'. injection Hb' as <-.
    apply lookup_lt_Some in Hblk. lia.
  - destruct (a - length (heap (glob m)))%nat eqn:E; [|by destruct n].
    injection Ha as <-. simpl in Hb. injection Hb as <-. simpl.
    split; [apply lookup_snoc_last|]. split.
    { destruct (stacksize =? 0) eqn:Ez; [done|]. by apply Z.eqb_neq. }
    intros a' f' Ha' Hb'. apply lookup_app_Some in Ha' as [Ha' | [Hge' Ha']].
    + destruct (Hok a' f' _ Ha' Hb') as (Hblk & _). apply lookup_lt_Some in Hblk. lia.
    + destruct (a' - length (heap (glob m)))%nat eqn:E'; [lia | by destruct n].
Qed.

Lemma stacks_ok_new_main hdr m :
  stacks_ok (glob m) -> stacks_ok (glob (final (new_Fiber_main hdr m))).
Proof.
  intros Hok. rewrite new_Fiber_main_eq. simpl. intros a f b Ha Hb.
  apply lookup_app_Some in Ha as [Ha | [Hge Ha]].
  - destruct (Hok a f b Ha Hb) as (Hblk & Hnz & Hinj).
    split; [done|]. split; [done|].
    intros a' f' Ha' Hb'. apply lookup_app_Some in Ha' as [Ha' | [Hge' Ha']];
      [by eapply Hinj|].
    destruct (a' - length (heap (glob m)))%nat; [|by destruct n].
    by injection Ha' as <-.
  - destruct (a - length (heap (glob m)))%nat; [|by destruct n].
    by injection Ha as <-.
Qed.

Lemma step_stacks_ok hdr m o :
  step hdr m = Some o -> stacks_ok (glob m) -> stacks_ok (glob (final o)).
Proof.
  apply (step_preserves (fun m m' => stacks_ok (glob m) -> stacks_ok (glob m'))); auto.
  - intros m0 a f u H. by apply (stacks_ok_set_fiber _ _ f).
  - intros. by apply stacks_ok_new.
  - intros. by apply stacks_ok_new_main.
  - intros this m0 f s H. by apply (stacks_ok_set_fiber _ _ f).
  - intros this m0 f cb H. by apply (stacks_ok_set_fiber _ _ f).
Qed.

Lemma sys_run_stacks_ok hdr sched : forall s s',
  sys_run hdr sched s = Some s' -> stacks_ok (sys_glob s) -> stacks_ok (sys_glob s').
Proof.
  induction sched as [|i sched IH]; intros s s'; simpl.
  - by intros [= <-].
  - destruct (sys_step hdr i s) as [s1|] eqn:E; [|done].
    intros Hrun Hok. apply (IH _ _ Hrun).
    destruct (sys_step_inv _ _ _ _ E) as (t & m' & _ & Hstep & ->).
    exact (step_stacks_ok _ _ _ Hstep Hok).
Qed.

(** X9. In every state that threads running any programs reach, in any
    interleaving: a fiber that has a stack block has one that [malloc]
    handed out with the size in [m_stacksize], which is not 0, and no two
    fibers share a block.  A further step of any thread, [reset] included,
    leaves the block, the size and the flag [m_runInScheduler] of every
    fiber as they are. *)
Theorem stacks_disjoint hdr progs sched s :
  sys_run hdr sched (sys0 progs) = Some s ->
  (forall a f b,
     heap (sys_glob s) !! a = Some f -> m_stack f = Some b ->
     blocks (sys_glob s) !! b = Some (m_stacksize f) /\ m_stacksize f <> 0) /\
  (forall a a' f f' b,
     heap (sys_glob s) !! a = Some f -> heap (sys_glob s) !! a' = Some f' ->
     m_stack f = Some b -> m_stack f' = Some b -> a = a') /\
  (forall i s' a f,
     sys_step hdr i s = Some s' -> heap (sys_glob s) !! a = Some f ->
     exists f', heap (sys_glob s') !! a = Some f' /\
       m_stack f' = m_stack f /\ m_stacksize f' = m_stacksize f /\
       m_runInScheduler f' = m_runInScheduler f).
Proof.
  intros Hrun. pose proof (sys_run_stacks_ok _ _ _ _ Hrun stacks_ok_global0) as Hok.
  split; [|split].
  - intros a f b Ha Hb. destruct (Hok a f b Ha Hb) as (H1 & H2 & _). done.
  - intros a a' f f' b Ha Ha' Hb Hb'. destruct (Hok a' f' b Ha' Hb') as (_ & _ & Hinj).
    by eapply Hinj.
  - intros i s' a f Hstep Ha.
    destruct (sys_step_inv _ _ _ _ Hstep) as (t & m' & _ & Hst & ->).
    destruct (step_fixed_kept _ _ _ Hst a f Ha) as (f' & Hf' & _ & H1 & H2 & H3).
    by exists f'.
Qed.

(** ** The count of fibers and the blocks freed *)

Lemma Fiber_dtor_eq m this self :
  fiber_at m this = Some self ->
  Fiber_dtor this m =
    Ret (m_stack self)
        (on_glob (fun g => with_fiber_count (wrap64 (s_fiber_count g - 1)) g) m).
Proof.
  intros H. unfold Fiber_dtor, s_fiber_count_dec. mstep.
  erewrite bind_Ret by (apply deref_Some; exact H).
  by destruct (m_stack self).
Qed.

Lemma Fiber_dtor_wild m this :
  fiber_at m this = None -> exists m', Fiber_dtor this m = Fault WildPointer m'.
Proof.
  intros H. unfold Fiber_dtor, s_fiber_count_dec. mstep.
  eexists. by apply deref_wild.
Qed.

Lemma wrap64_pred z : wrap64 (wrap64 z - 1) = wrap64 (z - 1).
Proof. unfold wrap64. by rewrite Zminus_mod_idemp_l. Qed.

Lemma wrap64_succ_Z z : wrap64 (wrap64 z + 1) = wrap64 (z + 1).
Proof. unfold wrap64. by rewrite Zplus_mod_idemp_l. Qed.

Lemma step_count_ok hdr m o d :
  step hdr m = Some o -> count_ok (glob m) d -> count_ok (glob (final o)) d.
Proof.
  apply (step_preserves (fun m m' => count_ok (glob m) d -> count_ok (glob m') d));
    unfold count_ok; auto.
  - intros m0 a f u H. simpl. by rewrite length_insert.
  - intros hdr' cb stacksize ris m0 Hc. rewrite new_Fiber_eq. simpl.
    rewrite Hc, wrap64_succ_Z, length_app. simpl. f_equal. lia.
  - intros hdr' m0 Hc. rewrite new_Fiber_main_eq. simpl.
    rewrite Hc, wrap64_succ_Z, length_app. simpl. f_equal. lia.
  - intros this m0 f s H. simpl. by rewrite length_insert.
  - intros this m0 f cb H. simpl. by rewrite length_insert.
Qed.

Lemma proc_ok_proc0 progs : proc_ok (proc0 progs).
Proof.
  split; [reflexivity|]. split; [apply stacks_ok_global0|].
  split; [constructor|]. split; [by intros a Ha%elem_of_nil|].
  split; [constructor|]. by intros b Hb%elem_of_nil.
Qed.

Lemma Fiber_dtor_Ret m this b m' :
  Fiber_dtor this m = Ret b m' ->
  exists self, fiber_at m this = Some self /\ b = m_stack self /\
    m' = on_glob (fun g => with_fiber_count (wrap64 (s_fiber_count g - 1)) g) m.
Proof.
  intros H. destruct (fiber_at m this) as [self|] eqn:Hf.
  - rewrite (Fiber_dtor_eq _ _ _ Hf) in H. injection H as <- <-. eauto.
  - destruct (Fiber_dtor_wild _ _ Hf) as (m1 & E). congruence.
Qed.

Lemma proc_step_ok hdr e p p' :
  proc_step hdr e p = Some p' -> proc_ok p -> proc_ok p'.
Proof.
  intros Hstep (Hcnt & Hstk & Hnd & Hlive & Hndf & Hfreed). destruct e as [i|i a]; simpl in Hstep.
  - destruct (sys_step hdr i (proc_sys p)) as [s'|] eqn:E; [|done].
    injection Hstep as <-. unfold proc_ok; simpl.
    destruct (sys_step_inv _ _ _ _ E) as (t & m' & _ & Hst & ->).
    pose proof (step_fixed_kept _ _ _ Hst) as Hkept. simpl in Hkept.
    split; [exact (step_count_ok _ _ _ _ Hst Hcnt)|].
    split; [exact (step_stacks_ok _ _ _ Hst Hstk)|].
    split; [done|]. split; [|split; [done|]].
    + intros a Ha. destruct (Hlive a Ha) as [f Hf].
      destruct (Hkept a f Hf) as (f' & Hf' & _). by exists f'.
    + intros b Hb. destruct (Hfreed b Hb) as (a & f & Ha & Hf & Hk).
      destruct (Hkept a f Hf) as (f' & Hf' & _ & Hk' & _).
      exists a, f'. split; [done|]. split; [done|]. congruence.
  - destruct (bool_decide (a ∈ destroyed p)) eqn:Hin; [done|].
    apply bool_decide_eq_false in Hin.
    destruct (sys_threads (proc_sys p) !! i) as [t|]; [|done].
    destruct (Fiber_dtor a _) as [b m'|] eqn:E; [|done].
    injection Hstep as <-. unfold proc_ok; simpl.
    destruct (Fiber_dtor_Ret _ _ _ _ E) as (self & Hself & -> & ->). simpl in *.
    split; [|split; [exact Hstk|split; [by constructor|split; [|split]]]].
    + unfold count_ok in *. simpl. rewrite Hcnt, wrap64_pred. f_equal. lia.
    + intros x Hx. apply elem_of_cons in Hx as [->|Hx]; [by exists self | by apply Hlive].
    + destruct (m_stack self) as [b|] eqn:Hb; simpl; [|done].
      constructor; [|done]. intros Hbf.
      destruct (Hfreed b Hbf) as (a' & f' & Ha' & Hf' & Hk').
      destruct (Hstk a self b Hself Hb) as (_ & _ & Hinj).
      by rewrite (Hinj a' f' Hf' Hk') in Ha'.
    + intros b Hb. destruct (m_stack self) as [b0|] eqn:Hb0; simpl in Hb.
      * apply elem_of_cons in Hb as [->|Hb].
        -- exists a, self. split; [by left|done].
        -- destruct (Hfreed b Hb) as (a' & f' & Ha' & Hf' & Hk').
           exists a', f'. split; [by right|done].
      * destruct (Hfreed b Hb) as (a' & f' & Ha' & Hf' & Hk').
        exists a', f'. split; [by right|done].
Qed.

Lemma proc_run_ok hdr es : forall p p',
  proc_run hdr es p = Some p' -> proc_ok p -> proc_ok p'.
Proof.
  induction es as [|e es IH]; intros p p'; simpl.
  - by intros [= <-].
  - destruct (proc_step hdr e p) as [p1|] eqn:E; [|done].
    intros Hrun Hok. apply (IH _ _ Hrun). exact (proc_step_ok _ _ _ _ E Hok).
Qed.

Lemma NoDup_bounded_length (l : list nat) (n : nat) :
  NoDup l -> (forall x, x ∈ l -> (x < n)%nat) -> (length l <= n)%nat.
Proof.
  intros Hnd Hlt.
  assert (Hsub : l ⊆+ seq 0 n).
  { apply NoDup_submseteq; [done|].
    intros x Hx. apply elem_of_seq. specialize (Hlt x Hx). lia. }
  apply submseteq_length in Hsub. by rewrite length_seq in Hsub.
Qed.

(** X10. In a process whose threads run any programs and destroy objects
    (each once at most), in any interleaving: [s_fiber_count] is the
    number of fibers built less the number destroyed, modulo 2^64, and is
    that number itself when fewer than 2^64 fibers were built; no block is
    handed to [free] twice, and every block freed is the stack block of a
    destroyed fiber, of the size that fiber records.  The destructor
    brings the count down by one and frees the block of the fiber if it
    has one (the thread fiber has none); it leaves the objects, the
    identity counter and the pointers of the threads as they are, also
    those that point to the object destroyed. *)
Theorem no_double_free hdr progs es p :
  proc_run hdr es (proc0 progs) = Some p ->
  let g := sys_glob (proc_sys p) in
  s_fiber_count g =
    wrap64 (Z.of_nat (length (heap g)) - Z.of_nat (length (destroyed p))) /\
  (length (destroyed p) <= length (heap g))%nat /\
  (Z.of_nat (length (heap g)) < 2 ^ 64 ->
   s_fiber_count g = Z.of_nat (length (heap g)) - Z.of_nat (length (destroyed p))) /\
  NoDup (freed p) /\
  (forall b, b ∈ freed p ->
     exists a f, a ∈ destroyed p /\ heap g !! a = Some f /\ m_stack f = Some b /\
                 blocks g !! b = Some (m_stacksize f)) /\
  (forall i a p',
     proc_step hdr (EDestroy i a) p = Some p' ->
     exists f,
       heap g !! a = Some f /\
       freed p' = free_block (m_stack f) (freed p) /\
       destroyed p' = a :: destroyed p /\
       s_fiber_count (sys_glob (proc_sys p')) = wrap64 (s_fiber_count g - 1) /\
       heap (sys_glob (proc_sys p')) = heap g /\
       s_fiber_id (sys_glob (proc_sys p')) = s_fiber_id g /\
       blocks (sys_glob (proc_sys p')) = blocks g /\
       sys_threads (proc_sys p') = sys_threads (proc_sys p)).
Proof.
  intros Hrun g.
  destruct (proc_run_ok _ _ _ _ Hrun (proc_ok_proc0 progs))
    as (Hcnt & Hstk & Hnd & Hlive & Hndf & Hfreed).
  assert (Hle : (length (destroyed p) <= length (heap g))%nat).
  { apply NoDup_bounded_length; [done|]. intros x Hx.
    destruct (Hlive x Hx) as [f Hf]. by apply lookup_lt_Some in Hf. }
  split; [exact Hcnt|]. split; [exact Hle|]. split; [|split; [exact Hndf|split]].
  - intros Hlen. fold g in Hcnt. rewrite Hcnt. apply wrap64_small. lia.
  - intros b Hb. destruct (Hfreed b Hb) as (a & f & Ha & Hf & Hk).
    exists a, f. destruct (Hstk a f b Hf Hk) as (Hblk & _). done.
  - intros i a p' Hstep. simpl in Hstep.
    destruct (bool_decide (a ∈ destroyed p)); [done|].
    destruct (sys_threads (proc_sys p) !! i) as [t|]; [|done].
    destruct (Fiber_dtor a _) as [b m'|] eqn:E; [|done].
    injection Hstep as <-.
    destruct (Fiber_dtor_Ret _ _ _ _ E) as (self & Hself & -> & ->).
    by exists self.
Qed.

(** ** The further theorems on the scenarios *)

(** Fiber 1 of the first scenario, whose closure only reads its identity,
    is TERM four steps after the [resume]. *)
Lemma returns_after_one_resume_witness :
  pc (thr m_before_resume) = [ICmd (CResume 1%nat)] /\
  fiber_at m_before_resume 1%nat = Some f_B_ready /\
  exists mf f',
    run hdr0 4 m_before_resume = Ret tt mf /\ pc (thr mf) = [] /\
    sp (thr mf) = OsStack /\ t_fiber (thr mf) = Some 0%nat /\
    fiber_at mf 1%nat = Some f' /\ m_state f' = TERM /\ m_cb f' = None /\
    resume 1%nat mf = Fault AssertionFailed mf.
Proof.
  split; [reflexivity|]. split; [reflexivity|].
  destruct (returns_after_one_resume hdr0 m_before_resume 1%nat f_B_ready 0%nat
              (with_ctx uc_raw f_A) 0%nat [CGetFiberId] [])
    as (mf & f' & Hrun & Hsp & Hpc & Ht & Hf & Hs & Hcb & _ & _ & _ & _ & Hres);
    try reflexivity; [lia|].
  exists mf, f'. auto 10.
Defined.

(** The closure of fiber 1 reads its identity, yields and reads the current
    fiber: four steps after the first [resume] the thread is at the
    second. *)
Lemma yield_returns_to_resumer_witness :
  pc (thr m_twice) = [ICmd (CResume 1%nat); ICmd (CResume 1%nat)] /\
  fiber_at m_twice 1%nat = Some f_twice /\
  exists my f',
    run hdr0 4 m_twice = Ret tt my /\ pc (thr my) = [ICmd (CResume 1%nat)] /\
    sp (thr my) = OsStack /\ t_fiber (thr my) = Some 0%nat /\
    fiber_at my 1%nat = Some f' /\ m_state f' = READY /\
    uc_mcontext (m_ctx f') = McSaved (Block 0) [ICmd CGetThis; IMainFuncAfter 1%nat].
Proof.
  split; [reflexivity|]. split; [reflexivity|].
  destruct (yield_returns_to_resumer hdr0 m_twice 1%nat f_twice 0%nat f_twice_main
              0%nat [CGetFiberId] [CGetThis] [ICmd (CResume 1%nat)])
    as (my & f' & Hrun & Hsp & Hpc & Ht & Hf & Hs & _ & Hctx & _);
    try reflexivity; [lia|].
  exists my, f'. auto 10.
Defined.

(** The same fiber is TERM seven steps after the first [resume]. *)
Lemma terminates_after_second_resume_witness :
  pc (thr m_twice) = [ICmd (CResume 1%nat); ICmd (CResume 1%nat)] /\
  fiber_at m_twice 1%nat = Some f_twice /\
  exists mf ff,
    run hdr0 7 m_twice = Ret tt mf /\ pc (thr mf) = [] /\
    t_fiber (thr mf) = Some 0%nat /\
    fiber_at mf 1%nat = Some ff /\ m_state ff = TERM /\ m_cb ff = None.
Proof.
  split; [reflexivity|]. split; [reflexivity|].
  destruct (terminates_after_second_resume hdr0 m_twice 1%nat f_twice 0%nat
              f_twice_main 0%nat [CGetFiberId] [CGetThis] [])
    as (my & mf & fy & ff & _ & _ & _ & _ & Hrun & _ & Hpc & Ht & Hf & Hs & Hcb & _);
    try reflexivity; [lia|].
  exists mf, ff. auto 10.
Defined.

(** Fiber 1 is scheduler-managed and is the scheduler fiber: the [resume]
    goes on to the next call of the thread, on the thread's stack. *)
Lemma resume_of_own_counterpart_witness :
  fiber_at m_self 1%nat = Some f_self /\
  t_scheduler_fiber (thr m_self) = Some 1%nat /\ m_runInScheduler f_self = true /\
  exists m' f',
    step hdr0 m_self = Some (Ret tt m') /\ sp (thr m') = OsStack /\
    pc (thr m') = [ICmd CGetFiberId] /\
    fiber_at m' 1%nat = Some f' /\ m_state f' = RUNNING /\
    uc_mcontext (m_ctx f') = McSaved OsStack [ICmd CGetFiberId].
Proof.
  do 3 (split; [reflexivity|]).
  destruct (resume_of_own_counterpart hdr0 m_self 1%nat f_self [ICmd CGetFiberId]
              eq_refl eq_refl eq_refl) as (_ & Hstep).
  destruct (Hstep eq_refl) as (m' & f' & H1 & H2 & H3 & H4 & H5 & H6).
  exists m', f'. auto 10.
Defined.

(** The first [GetThis] of a thread, and the second. *)
Lemma GetThis_idempotent_witness :
  exists m' f,
    GetThis hdr0 (machine0 []) = Ret 0%nat m' /\
    fiber_at m' 0%nat = Some f /\ m_state f = RUNNING /\ m_stack f = None /\
    t_thread_fiber (thr m') = Some 0%nat /\
    GetThis hdr0 m' = Ret 0%nat m'.
Proof.
  destruct (GetThis_idempotent hdr0 (machine0 [])) as (Hidem & Hfirst).
  destruct (Hfirst eq_refl)
    as (m' & f & Hget & _ & Hf & Hs & Hk & _ & _ & _ & Hth & _).
  exists m', f. destruct (Hidem _ _ Hget) as (Hagain & _).
  repeat (split; [assumption|]). exact Hagain.
Defined.

(** A scheduler fiber named before the first [GetThis] is lost; named
    after, it is kept. *)
Lemma scheduler_fiber_override_witness :
  (exists m', (SetSchedulerFiber (Some 7%nat) ≫= fun _ => GetThis hdr0) (machine0 []) =
                Ret 0%nat m' /\ t_scheduler_fiber (thr m') = Some 0%nat) /\
  (exists m', (SetSchedulerFiber (Some 1%nat) ≫= fun _ => GetThis hdr0) m_before_resume =
                Ret 0%nat m' /\ t_scheduler_fiber (thr m') = Some 1%nat).
Proof.
  split.
  - destruct (scheduler_fiber_override hdr0 (machine0 []) (Some 7%nat)) as (Hlost & _).
    destruct (Hlost eq_refl) as (a & m' & Hrun & Hsched & _ & Hnew).
    assert (a = 0%nat) as ->.
    { pose proof Hrun as E. vm_compute in E. by injection E as <- _. }
    by exists m'.
  - destruct (scheduler_fiber_override hdr0 m_before_resume (Some 1%nat)) as (_ & Hkept).
    destruct (Hkept 0%nat (with_ctx uc_raw f_A) eq_refl eq_refl) as (m' & Hrun & Hsched & _).
    by exists m'.
Defined.

(** The thread fiber of the first scenario, from its construction to the
    end of the run. *)
Lemma thread_fiber_permanent_witness :
  run hdr0 2 (machine0 (prog_AB [CGetFiberId] false)) = Ret tt m_before_resume /\
  run hdr0 4 m_before_resume = Ret tt m_B_done /\
  t_thread_fiber (thr m_before_resume) = Some 0%nat /\
  t_thread_fiber (thr m_B_done) = Some 0%nat /\
  GetThis hdr0 m_before_resume = Ret 0%nat m_before_resume.
Proof.
  assert (H1 : run hdr0 2 (machine0 (prog_AB [CGetFiberId] false)) = Ret tt m_before_resume)
    by (vm_compute; reflexivity).
  assert (H2 : run hdr0 4 m_before_resume = Ret tt m_B_done) by (vm_compute; reflexivity).
  destruct (thread_fiber_permanent hdr0 _ _ _ _ _ H1 H2) as (Hcur & Hthread).
  destruct (Hthread 0%nat eq_refl) as (Hth & _).
  split; [exact H1|]. split; [exact H2|]. split; [reflexivity|]. split; [exact Hth|].
  exact (Hcur 0%nat eq_refl).
Defined.

(** [GetFiberId] inside the closure of fiber 1, and on a thread with no
    fiber. *)
Lemma GetFiberId_sentinel_witness :
  (exists v, GetFiberId m_in_B = Ret v m_in_B /\ v = 1) /\
  (exists v, GetFiberId (machine0 []) = Ret v (machine0 []) /\ v = 18446744073709551615).
Proof.
  split.
  - destruct (GetFiberId_sentinel hdr0 (prog_AB [CGetFiberId] false) 4 m_in_B)
      as (v & Hret & _ & Hrank);
      [vm_compute; reflexivity | vm_compute; reflexivity |].
    exists v. split; [exact Hret|]. exact (Hrank 1%nat eq_refl).
  - destruct (GetFiberId_sentinel hdr0 [] 0 (machine0 []))
      as (v & Hret & Hnone & _);
      [vm_compute; reflexivity | vm_compute; reflexivity |].
    exists v. split; [exact Hret|]. by apply Hnone.
Defined.

(** The stack blocks of the scenario with two threads. *)
Lemma stacks_disjoint_witness :
  sys_run hdr0 interleaving (sys0 two_threads) = Some sys_example /\
  blocks (sys_glob sys_example) = [4096; 128000; 128000] /\
  (forall a f b,
     heap (sys_glob sys_example) !! a = Some f -> m_stack f = Some b ->
     blocks (sys_glob sys_example) !! b = Some (m_stacksize f) /\ m_stacksize f <> 0).
Proof.
  assert (Hrun : sys_run hdr0 interleaving (sys0 two_threads) = Some sys_example)
    by (vm_compute; reflexivity).
  destruct (stacks_disjoint hdr0 two_threads interleaving sys_example Hrun) as (Hblk & _).
  split; [exact Hrun|]. split; [reflexivity | exact Hblk].
Defined.

(** The process of the scenario: five fibers built, two destroyed, one
    block freed. *)
Lemma no_double_free_witness :
  proc_run hdr0 events_example (proc0 two_threads) = Some proc_example /\
  destroyed proc_example = [1; 0]%nat /\ freed proc_example = [0%nat] /\
  s_fiber_count (sys_glob (proc_sys proc_example)) = 5 - 2 /\
  NoDup (freed proc_example).
Proof.
  assert (Hrun : proc_run hdr0 events_example (proc0 two_threads) = Some proc_example)
    by (vm_compute; reflexivity).
  destruct (no_double_free hdr0 two_threads events_example proc_example Hrun)
    as (_ & _ & Hcount & Hnd & _).
  split; [exact Hrun|]. split; [reflexivity|]. split; [reflexivity|].
  split; [|exact Hnd].
  rewrite Hcount; [reflexivity|]. vm_compute. reflexivity.
Defined.

(** ** Reuse *)

(** A whole activation of a fiber whose closure is calls of [GetThis] and
    [GetFiberId] only. *)
Lemma whole_activation hdr m this self c fc b body k :
  pc (thr m) = ICmd (CResume this) :: k ->
  fiber_at m this = Some self -> m_state self = READY ->
  uc_mcontext (m_ctx self) = McEntry -> ss_sp (m_ctx self) = Some b ->
  m_cb self = Some body -> forallb quiet body = true ->
  counterpart self (thr m) = Some c -> c <> this -> fiber_at m c = Some fc ->
  exists mf,
    run hdr (length body + 3) m = Ret tt mf /\
    thr mf = mkThread (Some c) (t_thread_fiber (thr m)) (t_scheduler_fiber (thr m))
               (sp (thr m)) k /\
    fiber_at mf this =
      Some (with_ctx (with_mcontext (McSaved (Block b) []) (m_ctx self))
              (with_state TERM (with_cb None self))) /\
    fiber_at mf c =
      Some (with_ctx (with_mcontext (McSaved (sp (thr m)) k) (m_ctx fc)) fc) /\
    (forall a, a <> this -> a <> c -> fiber_at mf a = fiber_at m a) /\
    length (heap (glob mf)) = length (heap (glob m)) /\
    blocks (glob mf) = blocks (glob m).
Proof.
  intros Hpc H Hs Hentry Hb Hcb Hq Hc Hne Hfc.
  assert (Hr : resumption (m_ctx self) = Some (Block b, [IMainFunc])).
  { unfold resumption. by rewrite Hentry, Hb. }
  pose proof (step_resume hdr _ _ _ _ _ _ _ _ Hpc H Hs Hc Hne Hfc Hr) as Hstep1.
  set (m1 := on_thr _ _) in Hstep1.
  assert (H1 : fiber_at m1 this = Some (with_state RUNNING self)).
  { unfold m1. skip_writes. eapply fiber_at_set_fiber_eq, H. }
  assert (Hstep2 := step_MainFunc hdr m1 (Block b) this _ body eq_refl eq_refl eq_refl H1 Hcb).
  set (m2 := on_thr _ m1) in Hstep2.
  assert (Hc2 : fiber_at m2 c =
            Some (with_ctx (with_mcontext (McSaved (sp (thr m)) k) (m_ctx fc)) fc)).
  { unfold m2, m1. rewrite !fiber_at_on_thr. eapply fiber_at_set_fiber_eq.
    skip_writes. exact Hfc. }
  assert (Hend := run_to_end hdr m2 this _ c _ (sp (thr m)) k body [] eq_refl Hq eq_refl
                    H1 Hc Hne Hc2 eq_refl).
  set (mf := on_thr _ _) in Hend.
  exists mf. split.
  { replace (length body + 3)%nat with (S (S (length body + 1))) by lia.
    by rewrite (run_step _ _ _ _ Hstep1), (run_step _ _ _ _ Hstep2). }
  split; [reflexivity|]. split; [|split; [|split; [|split]]].
  - unfold mf. rewrite !fiber_at_on_thr.
    exact (fiber_at_set_fiber_eq m2 this _ _ H1).
  - unfold mf. skip_writes. exact Hc2.
  - intros a Ha Hac. unfold mf, m2, m1. by skip_writes.
  - unfold mf, m2, m1; simpl. by rewrite !length_insert.
  - reflexivity.
Qed.

Lemma step_reset hdr m this self cb k b :
  pc (thr m) = ICmd (CReset this cb) :: k ->
  fiber_at m this = Some self -> m_state self = TERM -> m_stack self = Some b ->
  step hdr m =
    Some (Ret tt (on_thr (with_cpu (sp (thr m)) k)
                    (set_fiber this
                       (with_ctx (entry_ctx self)
                          (with_cb (Some cb) (with_state READY self))) m))).
Proof.
  intros Hpc H Hs Hk. rewrite (step_cmd _ _ _ _ Hpc). simpl.
  erewrite reset_eq by (simpl; exact H). rewrite Hs, Hk.
  by rewrite bool_decide_true.
Qed.

(** X11. The next three instructions of the thread are [resume] on a
    READY fiber, [reset] of that fiber with a closure [cb], and [resume]
    on it again; the fiber has a stack block, its context is at the entry
    of the trampoline on that block, its counterpart is another live
    fiber, and its closure and [cb] consist of calls of [GetThis] and
    [GetFiberId] only.  Then the three instructions and the two
    activations take [length body + length cb + 7] steps; the second
    activation ends on the block of the first, the fiber is TERM again
    with its closure cleared and its stack block and size as they were,
    the thread is in the code that follows, on the stack it was on, and
    over the whole cycle no fiber is built and no block allocated. *)
Theorem reset_cycle hdr m this self c fc b body cb k :
  pc (thr m) =
    ICmd (CResume this) :: ICmd (CReset this cb) :: ICmd (CResume this) :: k ->
  fiber_at m this = Some self -> m_state self = READY ->
  uc_mcontext (m_ctx self) = McEntry -> ss_sp (m_ctx self) = Some b ->
  m_stack self = Some b ->
  m_cb self = Some body -> forallb quiet body = true -> forallb quiet cb = true ->
  counterpart self (thr m) = Some c -> c <> this -> fiber_at m c = Some fc ->
  exists mf f',
    run hdr (length body + 3 + (1 + (length cb + 3))) m = Ret tt mf /\
    sp (thr mf) = sp (thr m) /\ pc (thr mf) = k /\
    fiber_at mf this = Some f' /\ m_state f' = TERM /\ m_cb f' = None /\
    m_stack f' = Some b /\ m_stacksize f' = m_stacksize self /\
    uc_mcontext (m_ctx f') = McSaved (Block b) [] /\
    length (heap (glob mf)) = length (heap (glob m)) /\
    blocks (glob mf) = blocks (glob m).
Proof.
  intros Hpc H Hs Hentry Hb Hk Hcb Hq Hq2 Hc Hne Hfc.
  destruct (whole_activation hdr _ _ _ _ _ _ _ _ Hpc H Hs Hentry Hb Hcb Hq Hc Hne Hfc)
    as (m1 & Hrun1 & Hthr1 & Hthis1 & Hc1 & _ & Hlen1 & Hblk1).
  set (f1 := with_ctx _ _) in Hthis1.
  assert (Hpc1 : pc (thr m1) = ICmd (CReset this cb) :: ICmd (CResume this) :: k)
    by by rewrite Hthr1.
  pose proof (step_reset hdr m1 this f1 cb _ b Hpc1 Hthis1 eq_refl Hk) as Hstep.
  set (m2 := on_thr _ _) in Hstep. set (f2 := with_ctx (entry_ctx f1) _) in m2.
  assert (Hthis2 : fiber_at m2 this = Some f2).
  { unfold m2. rewrite fiber_at_on_thr. eapply fiber_at_set_fiber_eq, Hthis1. }
  assert (Hc2 : fiber_at m2 c = Some (with_ctx (with_mcontext
                  (McSaved (sp (thr m)) (ICmd (CReset this cb) :: ICmd (CResume this) :: k))
                  (m_ctx fc)) fc)).
  { unfold m2. skip_writes. exact Hc1. }
  assert (Hcp2 : counterpart f2 (thr m2) = Some c).
  { unfold m2; simpl. rewrite Hthr1. exact Hc. }
  assert (Hpc2 : pc (thr m2) = ICmd (CResume this) :: k) by reflexivity.
  destruct (whole_activation hdr m2 this f2 c _ b cb k Hpc2 Hthis2 eq_refl eq_refl Hk
              eq_refl Hq2 Hcp2 Hne Hc2)
    as (mf & Hrun2 & Hthr2 & Hthisf & _ & _ & Hlenf & Hblkf).
  exists mf. eexists. split.
  { rewrite run_add, Hrun1. rewrite (run_step _ _ _ _ Hstep). exact Hrun2. }
  rewrite Hthr2. split; [by unfold m2; simpl; rewrite Hthr1|]. split; [reflexivity|].
  split; [exact Hthisf|]. do 2 (split; [reflexivity|]). split; [exact Hk|].
  do 2 (split; [reflexivity|]). split.
  - rewrite Hlenf. unfold m2; simpl. by rewrite length_insert.
  - by rewrite Hblkf.
Qed.

(** X12. [resume] saves the context of the code that calls it in the
    counterpart of the fiber resumed, not in the fiber that is running:
    when the caller is a fiber other than the counterpart (a [resume]
    nested in a closure), its own object is left as it is, and the context
    the counterpart held (the way back to the code that resumed the caller)
    is overwritten. *)
Theorem resume_saves_into_counterpart m this self c fc cur fcur s k :
  fiber_at m this = Some self -> m_state self = READY ->
  counterpart self (thr m) = Some c -> c <> this -> fiber_at m c = Some fc ->
  resumption (m_ctx self) = Some (s, k) ->
  t_fiber (thr m) = Some cur -> cur <> c -> cur <> this ->
  fiber_at m cur = Some fcur ->
  exists m' fc',
    resume this m = Ret tt m' /\
    fiber_at m' cur = Some fcur /\
    fiber_at m' c = Some fc' /\
    uc_mcontext (m_ctx fc') = McSaved (sp (thr m)) (pc (thr m)) /\
    m_state fc' = m_state fc /\
    t_fiber (thr m') = Some this /\ sp (thr m') = s /\ pc (thr m') = k.
Proof.
  intros H Hs Hc Hne Hfc Hr Ht Hcc Hct Hcur.
  eexists _, _. split; [by eapply resume_enters|].
  split; [skip_writes; exact Hcur|]. split.
  { rewrite fiber_at_on_thr. eapply fiber_at_set_fiber_eq. skip_writes. exact Hfc. }
  done.
Qed.

(** Fiber 1 is run, reset and run again, ten steps in all, on block 0. *)
Lemma reset_cycle_witness :
  fiber_at m_cycle 1%nat = Some f_B_ready /\
  exists mf f',
    run hdr0 10 m_cycle = Ret tt mf /\ pc (thr mf) = [] /\
    fiber_at mf 1%nat = Some f' /\ m_state f' = TERM /\ m_stack f' = Some 0%nat /\
    blocks (glob mf) = [128000].
Proof.
  split; [reflexivity|].
  destruct (reset_cycle hdr0 m_cycle 1%nat f_B_ready 0%nat (with_ctx uc_raw f_A) 0%nat
              [CGetFiberId] [CGetThis; CGetFiberId] [])
    as (mf & f' & Hrun & _ & Hpc & Hf & Hs & _ & Hk & _ & _ & _ & Hblk);
    try reflexivity; [lia|].
  exists mf, f'. auto 10.
Defined.

(** Fiber 1 resumes fiber 2: the way back to the program of the thread,
    kept in the thread fiber, is overwritten with the context of fiber 1,
    and the object of fiber 1 is untouched. *)
Lemma resume_saves_into_counterpart_witness :
  t_fiber (thr m_nested_call) = Some 1%nat /\
  (uc_mcontext ∘ m_ctx) <$> fiber_at m_nested_call 0%nat = Some (McSaved OsStack []) /\
  exists m' fc',
    resume 2%nat m_nested_call = Ret tt m' /\
    fiber_at m' 1%nat = Some f_nested_1 /\
    fiber_at m' 0%nat = Some fc' /\
    uc_mcontext (m_ctx fc') = McSaved (Block 0) [IMainFuncAfter 1%nat].
Proof.
  split; [reflexivity|]. split; [reflexivity|].
  destruct (resume_saves_into_counterpart m_nested_call 2%nat f_nested_2 0%nat f_A
              1%nat f_nested_1 (Block 1) [IMainFunc])
    as (m' & fc' & Hres & Hcur & Hc & Hctx & _);
    try reflexivity; try lia.
  exists m', fc'. auto.
Defined.

(** ** The scheduler fiber *)

(** How an instruction that returns leaves [t_thread_fiber] and
    [t_scheduler_fiber]: both as they were; or it is a call of
    [SetSchedulerFiber]; or the thread had no current fiber and both now
    name one fiber. *)
Lemma exec_instr_sched hdr i m m' :
  exec_instr hdr i m = Ret tt m' ->
  (t_thread_fiber (thr m') = t_thread_fiber (thr m) /\
   t_scheduler_fiber (thr m') = t_scheduler_fiber (thr m)) \/
  (exists p, i = ICmd (CSetSchedulerFiber p) /\
     t_thread_fiber (thr m') = t_thread_fiber (thr m) /\
     t_scheduler_fiber (thr m') = p) \/
  (t_fiber (thr m) = None /\
   t_scheduler_fiber (thr m') = t_thread_fiber (thr m') /\
   t_thread_fiber (thr m') = Some (length (heap (glob m)))).
Proof.
  destruct i as [c| |curr]; simpl.
  - destruct c; simpl.
    + intros H. apply bind_Ret_inv in H as (a & m1 & Hg & [= <-]).
      destruct (GetThis_Ret _ _ _ _ Hg)
        as [(_ & _ & ->) | (Ht & -> & _ & _ & _ & Hth & Hsc & _)]; [by left|].
      right; right. by rewrite Hsc, Hth.
    + intros H. apply bind_Ret_inv in H as (v & m1 & Hg & [= <-]). left.
      revert Hg. unfold GetFiberId, gets, deref, mbind, M_bind, mret, M_ret.
      destruct (t_fiber (thr m)) as [x|] eqn:Ht; [destruct (fiber_at m x)|];
        try done; by intros [= _ <-].
    + intros H. apply bind_Ret_inv in H as (v & m1 & Hg & [= <-]). left.
      rewrite new_Fiber_eq in Hg. by injection Hg as _ <-.
    + intros H. left. destruct (fiber_at m f) as [self|] eqn:Hf.
      * rewrite (reset_eq _ _ _ _ Hf) in H.
        destruct (_ && _); [|done]. by injection H as <-.
      * unfold reset in H. by rewrite deref_wild in H.
    + intros H. left. by destruct (resume_Ret _ _ _ H) as (_ & _ & Hth & Hsc).
    + intros H. left. by destruct (yield_Ret _ _ _ H) as (c & _ & _ & Hth & Hsc).
    + intros H. apply bind_Ret_inv in H as (a & m1 & Hg & Hy).
      destruct (yield_Ret _ _ _ Hy) as (c & _ & _ & Hth & Hsc).
      destruct (GetThis_Ret _ _ _ _ Hg)
        as [(_ & _ & ->) | (Ht & -> & _ & _ & _ & Hth1 & Hsc1 & _)]; [by left|].
      right; right. by rewrite Hsc, Hth, Hsc1, Hth1.
    + intros [= <-]. right; left. by exists f.
  - intros H. unfold MainFunc in H.
    apply bind_Ret_inv in H as (a & m1 & Hg & H).
    apply bind_Ret_inv in H as (self & m2 & Hd & Hcall).
    assert (m2 = m1 /\ fiber_at m1 a = Some self) as [-> Hself].
    { revert Hd. unfold deref. destruct (fiber_at m1 a); [|done]. by intros [= <- <-]. }
    destruct (GetThis_Ret _ _ _ _ Hg)
      as [(_ & _ & ->) | (Ht & _ & _ & Hf1 & _)].
    + left. revert Hcall. unfold call. destruct (m_cb self); [|done]. by intros [= <-].
    + rewrite Hf1 in Hself. injection Hself as <-. done.
  - intros H. unfold MainFunc_after in H.
    apply bind_Ret_inv in H as ([] & m1 & Hu1 & H).
    apply bind_Ret_inv in H as ([] & m2 & Hu2 & Hy).
    destruct (yield_Ret _ _ _ Hy) as (c & _ & _ & Hth & Hsc).
    left. by rewrite Hth, Hsc, (update_Ret _ _ _ _ Hu2), (update_Ret _ _ _ _ Hu1).
Qed.

Lemma run_sched hdr n : forall m m',
  run hdr n m = Ret tt m' ->
  (forall p, ICmd (CSetSchedulerFiber p) ∉ trace hdr n m) ->
  t_scheduler_fiber (thr m) = t_thread_fiber (thr m) ->
  t_scheduler_fiber (thr m') = t_thread_fiber (thr m').
Proof.
  induction n as [|n IH]; intros m m'; simpl.
  - by intros [= <-].
  - unfold step. destruct (pc (thr m)) as [|i k] eqn:Hpc; [by intros [= <-]|].
    destruct (exec_instr hdr i _) as [[] m1|e m1] eqn:E; [|done].
    intros Hrun Htr Heq. apply (IH m1 m' Hrun).
    + intros p Hp. apply (Htr p). by right.
    + destruct (exec_instr_sched _ _ _ _ E)
        as [[Hth Hsc] | [(p & -> & _) | (_ & Hsc & _)]].
      * by rewrite Hsc, Hth.
      * exfalso. apply (Htr p). by left.
      * done.
Qed.

(** X13. In a thread that has not called [SetSchedulerFiber], the
    scheduler fiber is the thread fiber: [m_runInScheduler] makes no
    difference to the fiber that [resume] and [yield] exchange contexts
    with, and every [yield] that passes its assertion records the thread
    fiber as current.  An instruction that returns changes
    [t_scheduler_fiber] only if it is a call of [SetSchedulerFiber], or if
    the thread had no current fiber and [GetThis] built the thread fiber. *)
Theorem flag_idle_without_scheduler hdr prog n m :
  run hdr n (machine0 prog) = Ret tt m ->
  (forall p, ICmd (CSetSchedulerFiber p) ∉ trace hdr n (machine0 prog)) ->
  t_scheduler_fiber (thr m) = t_thread_fiber (thr m) /\
  (forall f, counterpart f (thr m) = t_thread_fiber (thr m)) /\
  (forall this self,
     fiber_at m this = Some self -> m_state self <> READY ->
     t_fiber (thr (final (yield this m))) = t_thread_fiber (thr m)) /\
  (forall i k m',
     pc (thr m) = i :: k -> step hdr m = Some (Ret tt m') ->
     t_scheduler_fiber (thr m') = t_scheduler_fiber (thr m) \/
     (exists p, i = ICmd (CSetSchedulerFiber p) /\ t_scheduler_fiber (thr m') = p) \/
     (t_fiber (thr m) = None /\ t_scheduler_fiber (thr m') = t_thread_fiber (thr m'))).
Proof.
  intros Hrun Htr.
  assert (Heq : t_scheduler_fiber (thr m) = t_thread_fiber (thr m))
    by exact (run_sched _ _ _ _ Hrun Htr eq_refl).
  assert (Hcp : forall f, counterpart f (thr m) = t_thread_fiber (thr m)).
  { intros f. unfold counterpart. by destruct (m_runInScheduler f). }
  split; [exact Heq|]. split; [exact Hcp|]. split.
  - intros this self H Hs. rewrite (yield_not_READY _ _ _ H Hs), Hcp.
    destruct (take_up_final (t_thread_fiber (thr m))
                (on_thr (with_t_fiber (t_thread_fiber (thr m)))
                   (set_fiber this (save_ctx m (yielded self)) m))) as (s & k & ->).
    reflexivity.
  - intros i k m' Hpc Hstep. unfold step in Hstep. rewrite Hpc in Hstep.
    injection Hstep as Hstep.
    destruct (exec_instr_sched _ _ _ _ Hstep)
      as [[_ Hsc] | [(p & -> & _ & Hsc) | (Ht & Hsc & _)]]; eauto.
Qed.

(** Inside the closure of fiber 1, which has the flag: the counterpart is
    the thread fiber 0, and [yield] goes back to it. *)
Lemma flag_idle_without_scheduler_witness :
  m_runInScheduler f_flag = true /\
  counterpart f_flag (thr m_flag) = Some 0%nat /\
  t_fiber (thr (final (yield 1%nat m_flag))) = Some 0%nat.
Proof.
  assert (Hrun : run hdr0 4 (machine0 prog_flag) = Ret tt m_flag)
    by (vm_compute; reflexivity).
  assert (Htr : forall p, ICmd (CSetSchedulerFiber p) ∉ trace hdr0 4 (machine0 prog_flag)).
  { intros p Hp. vm_compute in Hp.
    repeat (apply elem_of_cons in Hp as [Hp|Hp]; [discriminate|]).
    by apply elem_of_nil in Hp. }
  destruct (flag_idle_without_scheduler hdr0 prog_flag 4 m_flag Hrun Htr)
    as (_ & Hcp & Hy & _).
  split; [reflexivity|]. split; [exact (Hcp f_flag)|].
  apply (Hy 1%nat f_flag); [reflexivity | discriminate].
Defined.
